(** * AI transaction bot: validation, extraction, duplicate resolution

    A shallow embedding of the backend of the transaction bot
    (src/utils/validation.js, src/services/llmService.js,
    src/services/dynamodbService.js, src/services/ocrService.js and
    src/services/transactionService.js) together with the properties
    the design document states about it.

    Conventions of the embedding.
    - A JavaScript number is an IEEE 754 binary64 value, here the
      [spec_float] of the standard library at precision 53 and maximal
      exponent 1024; all arithmetic rounds to nearest, ties to even.
    - A JavaScript string is a [string]; the character classes
      (white space, letters, digits) are the ASCII ones, so the model is
      exact on ASCII text.
    - A thrown exception is the [Throw] case of [result]; code that talks
      to a collaborator (table store, recognizer, completion service,
      file system) runs in the state-and-exception monad [M] over an
      explicit [world]. *)

From Stdlib Require Import ZArith NArith List String Ascii Bool Lia.
From Stdlib Require Import Floats.SpecFloat Sorting.Permutation.
Import ListNotations.

Local Open Scope string_scope.
Local Open Scope Z_scope.

Set Implicit Arguments.
Set Warnings "-register-all".


(* ------------------------------------------------------------------ *)
(** ** Strings *)

Module Str.

Definition code (c : ascii) : nat := nat_of_ascii c.

(** White space and line terminators of the ASCII range. *)
Definition is_ws (c : ascii) : bool :=
  let n := code c in
  ((9 <=? n) && (n <=? 13) || (n =? 32))%nat.

Definition is_digit (c : ascii) : bool :=
  let n := code c in ((48 <=? n) && (n <=? 57))%nat.

Definition is_upper (c : ascii) : bool :=
  let n := code c in ((65 <=? n) && (n <=? 90))%nat.

Definition is_lower (c : ascii) : bool :=
  let n := code c in ((97 <=? n) && (n <=? 122))%nat.

Definition upper (c : ascii) : ascii :=
  if is_lower c then ascii_of_nat (code c - 32) else c.

Definition lower (c : ascii) : ascii :=
  if is_upper c then ascii_of_nat (code c + 32) else c.

Fixpoint map (f : ascii -> ascii) (s : string) : string :=
  match s with
  | EmptyString => EmptyString
  | String c r => String (f c) (map f r)
  end.

Definition toUpperCase : string -> string := map upper.
Definition toLowerCase : string -> string := map lower.

Fixpoint forallb (p : ascii -> bool) (s : string) : bool :=
  match s with
  | EmptyString => true
  | String c r => p c && forallb p r
  end.

Fixpoint trimStart (s : string) : string :=
  match s with
  | String c r => if is_ws c then trimStart r else s
  | EmptyString => EmptyString
  end.

(** [trimEnd] drops the trailing run of white space: a character stays
    when it is not white space or when something stays after it. *)
Fixpoint trimEnd (s : string) : string :=
  match s with
  | EmptyString => EmptyString
  | String c r =>
      match trimEnd r with
      | EmptyString => if is_ws c then EmptyString else String c EmptyString
      | r' => String c r'
      end
  end.

Definition trim (s : string) : string := trimEnd (trimStart s).

Definition len (s : string) : Z := Z.of_nat (String.length s).

Fixpoint startsWith (p s : string) : bool :=
  match p, s with
  | EmptyString, _ => true
  | String a p', String b s' => Ascii.eqb a b && startsWith p' s'
  | String _ _, EmptyString => false
  end.

Fixpoint drop (n : nat) (s : string) : string :=
  match n, s with
  | O, _ => s
  | S n', String _ r => drop n' r
  | S _, EmptyString => EmptyString
  end.

Fixpoint includes (s p : string) : bool :=
  startsWith p s ||
  match s with
  | EmptyString => false
  | String _ r => includes r p
  end.

Fixpoint join (sep : string) (l : list string) : string :=
  match l with
  | [] => EmptyString
  | [x] => x
  | x :: r => x ++ sep ++ join sep r
  end.

(** [split sep s] for a one-character separator. *)
Fixpoint split_aux (sep : ascii) (cur : string) (s : string) : list string :=
  match s with
  | EmptyString => [cur]
  | String c r =>
      if Ascii.eqb c sep then cur :: split_aux sep EmptyString r
      else split_aux sep (cur ++ String c EmptyString) r
  end.

Definition split (sep : ascii) (s : string) : list string :=
  split_aux sep EmptyString s.

Definition quote : ascii := ascii_of_nat 34.
Definition LF : ascii := ascii_of_nat 10.
Definition backtick : ascii := ascii_of_nat 96.

End Str.

(* ------------------------------------------------------------------ *)
(** ** Numbers: IEEE 754 binary64 *)

Module Num.

Definition number := spec_float.

Definition prec : Z := 53.
Definition emax : Z := 1024.

Definition NaN : number := S754_nan.
Definition zero : number := S754_zero false.
Definition infinity (neg : bool) : number := S754_infinity neg.

Definition of_Z (z : Z) : number := binary_normalize prec emax z 0 false.

Definition sub : number -> number -> number := SFsub prec emax.
Definition div : number -> number -> number := SFdiv prec emax.
Definition abs : number -> number := SFabs.
Definition ltb : number -> number -> bool := SFltb.
Definition leb : number -> number -> bool := SFleb.

Definition is_nan (x : number) : bool :=
  match x with S754_nan => true | _ => false end.

Definition is_zero (x : number) : bool :=
  match x with S754_zero _ => true | _ => false end.

(** The value of the decimal numeral [m * 10^e10], correctly rounded.
    For a negative exponent the quotient is computed with at least 64
    significant bits and a sticky bit, which fixes the rounding. *)
Definition of_decimal (neg : bool) (m : N) (e10 : Z) : number :=
  match m with
  | N0 => S754_zero neg
  | Npos p =>
      let digits := Z.log2 (Zpos p) + 1 in
      if 0 <=? e10 then
        if 400 <? e10 then S754_infinity neg
        else binary_normalize prec emax
               ((if neg then Zneg p else Zpos p) * 10 ^ e10) 0 neg
      else
        let k := - e10 in
        if digits + 400 <? k then S754_zero neg
        else
          let d := 10 ^ k in
          let s := Z.max 0 (64 + (Z.log2 d + 1) - digits) in
          let n := Z.shiftl (Zpos p) s in
          let q := n / d in
          let sticky := if n mod d =? 0 then 0 else 1 in
          let mant := 2 * q + sticky in
          binary_normalize prec emax
            (if neg then - mant else mant) (- s - 1) neg
  end.

(** Reading digits: the accumulated value, how many digits were read,
    and the rest of the text. *)
Fixpoint digits (acc : N) (cnt : Z) (s : string) : N * Z * string :=
  match s with
  | String c r =>
      if Str.is_digit c
      then digits (acc * 10 + N.of_nat (Str.code c - 48)) (cnt + 1) r
      else (acc, cnt, s)
  | EmptyString => (acc, cnt, s)
  end.

Definition is_e (c : ascii) : bool :=
  (Ascii.eqb c "e" || Ascii.eqb c "E")%char.

(** The exponent part [e[+-]digits] when there is one. *)
Definition exponent (s : string) : Z * string :=
  match s with
  | String c r =>
      if is_e c then
        let '(neg, r1) :=
          match r with
          | String "-"%char r' => (true, r')
          | String "+"%char r' => (false, r')
          | _ => (false, r)
          end in
        let '(v, n, r2) := digits 0 0 r1 in
        if 0 <? n then ((if neg then - Z.of_N v else Z.of_N v), r2)
        else (0, s)
      else (0, s)
  | EmptyString => (0, s)
  end.

(** The longest prefix of [s] that is an unsigned StrDecimalLiteral
    ([Infinity], [d.d e], [.d e], [d e]), with its value. *)
Definition unsigned_decimal (neg : bool) (s : string)
  : option (number * string) :=
  if Str.startsWith "Infinity" s then Some (infinity neg, Str.drop 8 s)
  else
    let '(m1, c1, r1) := digits 0 0 s in
    let '(m2, c2, r2) :=
      match r1 with
      | String "."%char r' =>
          let '(m, c, r'') := digits m1 0 r' in
          if (0 <? c1) || (0 <? c) then (m, c, r'') else (m1, 0, r1)
      | _ => (m1, 0, r1)
      end in
    if (0 <? c1) || (0 <? c2) then
      let '(e, r3) := exponent r2 in
      Some (of_decimal neg m2 (e - c2), r3)
    else None.

Definition signed_decimal (s : string) : option (number * string) :=
  match s with
  | String "-"%char r => unsigned_decimal true r
  | String "+"%char r => unsigned_decimal false r
  | _ => unsigned_decimal false s
  end.

(** The global [parseFloat]: leading white space is skipped, the
    longest decimal prefix is read, anything after it is ignored. *)
Definition parseFloat (s : string) : number :=
  match signed_decimal (Str.trimStart s) with
  | Some (v, _) => v
  | None => NaN
  end.

(** StringToNumber, used by ToNumber on strings: the whole trimmed text
    has to be a numeral; the empty text is [+0].  Hexadecimal, octal
    and binary integer literals are read digit by digit. *)
Definition radix_digit (radix : N) (c : ascii) : option N :=
  let n := Str.code c in
  let v :=
    if Str.is_digit c then Some (N.of_nat (n - 48))
    else if Str.is_lower c then Some (N.of_nat (n - 87))
    else if Str.is_upper c then Some (N.of_nat (n - 55))
    else None in
  match v with
  | Some d => if (d <? radix)%N then Some d else None
  | None => None
  end.

Fixpoint radix_digits (radix : N) (acc : N) (s : string) : option N :=
  match s with
  | EmptyString => Some acc
  | String c r =>
      match radix_digit radix c with
      | Some d => radix_digits radix (acc * radix + d)%N r
      | None => None
      end
  end.

Definition radix_literal (radix : N) (body : string) : number :=
  match body with
  | EmptyString => NaN
  | _ => match radix_digits radix 0 body with
         | Some v => of_Z (Z.of_N v)
         | None => NaN
         end
  end.

Definition StringToNumber (s : string) : number :=
  let t := Str.trim s in
  match t with
  | EmptyString => zero
  | String "0"%char (String c body) =>
      if (Ascii.eqb c "x" || Ascii.eqb c "X")%char then radix_literal 16 body
      else if (Ascii.eqb c "o" || Ascii.eqb c "O")%char then radix_literal 8 body
      else if (Ascii.eqb c "b" || Ascii.eqb c "B")%char then radix_literal 2 body
      else match signed_decimal t with
           | Some (v, EmptyString) => v
           | _ => NaN
           end
  | _ => match signed_decimal t with
         | Some (v, EmptyString) => v
         | _ => NaN
         end
  end.

Definition one : number := Eval vm_compute in of_Z 1.
Definition billion : number := Eval vm_compute in of_Z 1000000000.
(** The literal [0.05]. *)
Definition tolerance : number := Eval vm_compute in of_decimal false 5 (-2).

End Num.

(** The integer part of a finite number (truncation toward zero). *)
Definition num_trunc (x : Num.number) : option Z :=
  match x with
  | S754_zero _ => Some 0
  | S754_finite s m e =>
      let a := if 0 <=? e then Zpos m * 2 ^ e else Zpos m / 2 ^ (- e) in
      Some (if s then - a else a)
  | _ => None
  end.

(* ------------------------------------------------------------------ *)
(** ** Values, exceptions *)

(** The values a candidate record can hold: what [JSON.parse] produces,
    and [undefined] for a property that is not there. *)
Inductive value : Type :=
| VUndefined
| VNull
| VBool (b : bool)
| VNum (n : Num.number)
| VStr (s : string)
| VArr (items : list value)
| VObj (props : list (string * value)).

Definition is_string (v : value) : bool :=
  match v with VStr _ => true | _ => false end.

Definition is_nullish (v : value) : bool :=
  match v with VUndefined | VNull => true | _ => false end.

(** ToBoolean. *)
Definition truthy (v : value) : bool :=
  match v with
  | VUndefined | VNull => false
  | VBool b => b
  | VNum n => negb (Num.is_nan n || Num.is_zero n)
  | VStr s => negb (String.eqb s EmptyString)
  | VArr _ | VObj _ => true
  end.

(** [a || b] *)
Definition or_else (a b : value) : value := if truthy a then a else b.

(** ToNumber.  An array goes through its text: the elements joined by
    commas, so only the empty array and the one-element array can be
    numeric, and a number element reads back as itself; a plain object
    has the text [[object Object]], which is not numeric. *)
Fixpoint ToNumber (v : value) : Num.number :=
  match v with
  | VUndefined => Num.NaN
  | VNull => Num.zero
  | VBool b => if b then Num.one else Num.zero
  | VNum n => n
  | VStr s => Num.StringToNumber s
  | VArr [] => Num.zero
  | VArr [x] =>
      match x with
      | VUndefined | VNull => Num.zero
      | VBool _ => Num.NaN
      | VNum n => if Num.is_zero n then Num.zero else n
      | _ => ToNumber x
      end
  | VArr _ => Num.NaN
  | VObj _ => Num.NaN
  end.

Definition isNaN (v : value) : bool := Num.is_nan (ToNumber v).

(** Own-property lookup in the property list of an object; an absent
    property reads as [undefined]. *)
Fixpoint lookup (props : list (string * value)) (k : string) : value :=
  match props with
  | [] => VUndefined
  | (k', v) :: r => if String.eqb k' k then v else lookup r k
  end.

(** Assignment [o.k = v]: an existing property keeps its place. *)
Fixpoint assign (props : list (string * value)) (k : string) (v : value)
  : list (string * value) :=
  match props with
  | [] => [(k, v)]
  | (k', v') :: r =>
      if String.eqb k' k then (k, v) :: r else (k', v') :: assign r k v
  end.

(** What the program throws and what a collaborator rejects with.  A
    [ServiceError] is the error object of a client library: its [code]
    and [message], its [response] when it has one (the status and the
    message of the response body) and, when it is an [OpenAI.APIError],
    its [status].  A [MessagelessError] is such an object whose
    [message] is no string: [null], or [undefined]. *)
Inductive error : Type :=
| ValidationError (message : string) (field : option string)
| DatabaseError (message : string) (originalError : option error)
| LLMError (message : string) (originalError : option error)
| OCRError (message : string) (originalError : option error)
| TypeError (message : string)
| SyntaxError (message : string)
| ServiceError (code : string) (message : string)
    (response : option (Z * option string))
    (apiStatus : option (option Z))
| MessagelessError (code : string) (isNull : bool)
    (response : option (Z * option string))
    (apiStatus : option (option Z)).

(** The text of [error.message] in a template. *)
Definition error_message (e : error) : string :=
  match e with
  | ValidationError m _ | DatabaseError m _ | LLMError m _ | OCRError m _
  | TypeError m | SyntaxError m | ServiceError _ m _ _ => m
  | MessagelessError _ isNull _ _ => if isNull then "null" else "undefined"
  end.

(** Whether [error.message] is a string. *)
Definition has_message (e : error) : bool :=
  match e with
  | MessagelessError _ _ _ _ => false
  | _ => true
  end.

Definition error_code (e : error) : string :=
  match e with
  | ServiceError c _ _ _ | MessagelessError c _ _ _ => c
  | _ => EmptyString
  end.

(** [error.response], as its status and the message of its body, and
    [error.status] of an [OpenAI.APIError]. *)
Definition error_response (e : error) : option (Z * option string) :=
  match e with
  | ServiceError _ _ r _ | MessagelessError _ _ r _ => r
  | _ => None
  end.

Definition error_apiStatus (e : error) : option (option Z) :=
  match e with
  | ServiceError _ _ _ a | MessagelessError _ _ _ a => a
  | _ => None
  end.

(** The [field] property, present on a [ValidationError] only. *)
Definition error_field (e : error) : option string :=
  match e with
  | ValidationError _ f => f
  | _ => None
  end.

Definition is_ValidationError (e : error) : bool :=
  match e with ValidationError _ _ => true | _ => false end.
Definition is_LLMError (e : error) : bool :=
  match e with LLMError _ _ => true | _ => false end.
Definition is_OCRError (e : error) : bool :=
  match e with OCRError _ _ => true | _ => false end.

Inductive result (A : Type) : Type :=
| Ok (a : A)
| Throw (e : error).
Arguments Ok {A} a.
Arguments Throw {A} e.

(** [error.message.includes(text)]: there is nothing to call on [null]
    and [undefined]. *)
Definition message_includes (e : error) (text : string) : result bool :=
  match e with
  | MessagelessError _ isNull _ _ =>
      Throw (TypeError ("Cannot read properties of "
                        ++ (if isNull then "null" else "undefined")
                        ++ " (reading 'includes')"))
  | _ => Ok (Str.includes (error_message e) text)
  end.

Definition rbind {A B} (r : result A) (k : A -> result B) : result B :=
  match r with
  | Ok a => k a
  | Throw e => Throw e
  end.

Declare Scope result_scope.
Delimit Scope result_scope with result.
Notation "x <- r ;; k" := (rbind r (fun x => k))
  (at level 61, r at next level, right associativity) : result_scope.

(* ------------------------------------------------------------------ *)
(** ** Time values and the calendar *)

Module Time.

Definition msPerDay : Z := 86400000.

Definition Day (t : Z) : Z := t / msPerDay.
Definition TimeWithinDay (t : Z) : Z := t mod msPerDay.

Definition isLeap (y : Z) : bool :=
  (y mod 4 =? 0) && (negb (y mod 100 =? 0) || (y mod 400 =? 0)).

Definition DaysInYear (y : Z) : Z := if isLeap y then 366 else 365.

Definition DayFromYear (y : Z) : Z :=
  365 * (y - 1970) + (y - 1969) / 4 - (y - 1901) / 100 + (y - 1601) / 400.

(** The year of a day number: the largest [y] with
    [DayFromYear y <= d], found from the mean year length. *)
Definition YearFromDay (d : Z) : Z :=
  let y0 := 1970 + (d * 400) / 146097 in
  if DayFromYear (y0 + 1) <=? d then y0 + 1
  else if DayFromYear y0 <=? d then y0
  else y0 - 1.

Definition YearFromTime (t : Z) : Z := YearFromDay (Day t).
Definition InLeapYear (t : Z) : bool := isLeap (YearFromTime t).
Definition DayWithinYear (t : Z) : Z := Day t - DayFromYear (YearFromTime t).

(** The number of days before month [m] (0 = January) in a year. *)
Definition monthStart (leap : bool) (m : Z) : Z :=
  let l := if leap then 1 else 0 in
  if m <=? 0 then 0
  else if m =? 1 then 31
  else if m =? 2 then 59 + l
  else if m =? 3 then 90 + l
  else if m =? 4 then 120 + l
  else if m =? 5 then 151 + l
  else if m =? 6 then 181 + l
  else if m =? 7 then 212 + l
  else if m =? 8 then 243 + l
  else if m =? 9 then 273 + l
  else if m =? 10 then 304 + l
  else 334 + l.

Definition monthOfDay (leap : bool) (d : Z) : Z :=
  if d <? monthStart leap 1 then 0
  else if d <? monthStart leap 2 then 1
  else if d <? monthStart leap 3 then 2
  else if d <? monthStart leap 4 then 3
  else if d <? monthStart leap 5 then 4
  else if d <? monthStart leap 6 then 5
  else if d <? monthStart leap 7 then 6
  else if d <? monthStart leap 8 then 7
  else if d <? monthStart leap 9 then 8
  else if d <? monthStart leap 10 then 9
  else if d <? monthStart leap 11 then 10
  else 11.

Definition MonthFromTime (t : Z) : Z :=
  monthOfDay (InLeapYear t) (DayWithinYear t).

Definition DateFromTime (t : Z) : Z :=
  DayWithinYear t - monthStart (InLeapYear t) (MonthFromTime t) + 1.

Definition HourFromTime (t : Z) : Z := (t / 3600000) mod 24.
Definition MinFromTime (t : Z) : Z := (t / 60000) mod 60.
Definition SecFromTime (t : Z) : Z := (t / 1000) mod 60.
Definition msFromTime (t : Z) : Z := t mod 1000.

(** [MakeDay year month date]: the month may lie outside 0..11 and the
    date outside the month; both carry over. *)
Definition MakeDay (year month date : Z) : Z :=
  let ym := year + month / 12 in
  let mn := month mod 12 in
  DayFromYear ym + monthStart (isLeap ym) mn + date - 1.

Definition MakeDate (day time : Z) : Z := day * msPerDay + time.

Definition maxTime : Z := 8640000000000000.

(** A time value is [Some t] or [None] for NaN (an invalid date). *)
Definition TimeClip (t : Z) : option Z :=
  if Z.abs t <=? maxTime then Some t else None.

(** Exactly [w] decimal digits of a natural number. *)
Fixpoint pad (w : nat) (n : Z) : string :=
  match w with
  | O => EmptyString
  | S w' => pad w' (n / 10) ++
            String (ascii_of_nat (48 + Z.to_nat (n mod 10))) EmptyString
  end.

Definition isoYear (y : Z) : string :=
  if (0 <=? y) && (y <=? 9999) then pad 4 y
  else if y <? 0 then "-" ++ pad 6 (- y)
  else "+" ++ pad 6 y.

(** [Date.prototype.toISOString] of a valid time value. *)
Definition toISOString (t : Z) : string :=
  isoYear (YearFromTime t) ++ "-" ++ pad 2 (MonthFromTime t + 1) ++ "-" ++
  pad 2 (DateFromTime t) ++ "T" ++ pad 2 (HourFromTime t) ++ ":" ++
  pad 2 (MinFromTime t) ++ ":" ++ pad 2 (SecFromTime t) ++ "." ++
  pad 3 (msFromTime t) ++ "Z".

(** [d.toISOString().split('T')[0]] *)
Definition isoDate (t : Z) : string :=
  hd EmptyString (Str.split "T"%char (toISOString t)).

End Time.

(** The digits of [Number.prototype.toFixed] for a finite number below
    [10^21]: the integer [n] nearest to [x * 10^f], the larger one of
    two, written with [f] digits after the point. *)
Module Fixed.

Fixpoint dec_aux (fuel : nat) (n : Z) : string :=
  match fuel with
  | O => EmptyString
  | S k =>
      let d := String (ascii_of_nat (48 + Z.to_nat (n mod 10))) EmptyString in
      if n <? 10 then d else dec_aux k (n / 10) ++ d
  end.

Definition dec (n : Z) : string := dec_aux (S (Z.to_nat (Z.log2 n))) n.

Definition digits (f : nat) (x : Num.number) : option string :=
  match x with
  | S754_zero sg =>
      Some ((if sg then "-" else EmptyString) ++
            match f with
            | O => "0"
            | _ => "0." ++ Time.pad f 0
            end)
  | S754_finite sg m e =>
      let num := if 0 <=? e then Zpos m * 2 ^ e else Zpos m in
      let den := if 0 <=? e then 1 else 2 ^ (- e) in
      if 10 ^ 21 * den <=? num then None
      else
        let n := (2 * num * 10 ^ Z.of_nat f + den) / (2 * den) in
        let whole := n / 10 ^ Z.of_nat f in
        Some ((if sg then "-" else EmptyString) ++ dec whole ++
              match f with
              | O => EmptyString
              | _ => "." ++ Time.pad f (n mod 10 ^ Z.of_nat f)
              end)
  | _ => None
  end.

End Fixed.

(* ------------------------------------------------------------------ *)
(** ** The host: what the engine decides *)

(** The parts of the engine the program relies on and the language
    standard leaves to the implementation or that are not reproduced
    here: the text of a number, the date parser (a time value in
    milliseconds since the epoch, or [None] for an unparseable text),
    the offset of local time from UTC, and the wording of the
    SyntaxError [JSON.parse] raises on a text.  The offset is the one
    the zone has at a time value: [LocalTZA t true] at the instant [t],
    [LocalTZA t false] at the local time [t]; in a zone with
    daylight-saving time the two ends of a year can have different
    offsets. *)
Class Host : Type := {
  Number_toString : Num.number -> string;
  Date_parse : string -> option Z;
  LocalTZA : Z -> bool -> Z;
  SyntaxError_message : string -> string
}.

Section Engine.
Context {H : Host}.

(** ToString; inside an array [null] and [undefined] print as nothing.
    An object is a plain one whose [toString] and [valueOf] are the
    inherited ones, so it prints as [[object Object]]. *)
Fixpoint ToString (v : value) : string :=
  match v with
  | VUndefined => "undefined"
  | VNull => "null"
  | VBool b => if b then "true" else "false"
  | VNum n => Number_toString n
  | VStr s => s
  | VArr l =>
      (fix elements (l : list value) : string :=
         match l with
         | [] => EmptyString
         | x :: r =>
             let e := if is_nullish x then EmptyString else ToString x in
             match r with
             | [] => e
             | _ => e ++ "," ++ elements r
             end
         end) l
  | VObj _ => "[object Object]"
  end.

(** [x.toFixed(f)]; a number that is not finite or is [10^21] or more
    prints as [ToString] prints it. *)
Definition toFixed (f : nat) (x : Num.number) : string :=
  match Fixed.digits f x with
  | Some t => t
  | None => Number_toString x
  end.

Definition LocalTime (t : Z) : Z := t + LocalTZA t true.
Definition UTC (t : Z) : Z := t - LocalTZA t false.

Definition Date_of_string (s : string) : option Z :=
  match Date_parse s with
  | Some t => Time.TimeClip t
  | None => None
  end.

(** [new Date(v)]: a string (or the text of an object) is parsed, any
    other value is a number of milliseconds. *)
Definition Date_new (v : value) : option Z :=
  match v with
  | VStr s => Date_of_string s
  | VArr _ | VObj _ => Date_of_string (ToString v)
  | _ => match num_trunc (ToNumber v) with
         | Some t => Time.TimeClip t
         | None => None
         end
  end.

Definition getFullYear (t : Z) : Z := Time.YearFromTime (LocalTime t).

(** [d.setFullYear(year)] on a valid date: same local month, day of the
    month and time of day in the given year, read back with the offset
    the zone has at that local time. *)
Definition setFullYear (t : Z) (year : Z) : option Z :=
  let l := LocalTime t in
  Time.TimeClip
    (UTC (Time.MakeDate
            (Time.MakeDay year (Time.MonthFromTime l) (Time.DateFromTime l))
            (Time.TimeWithinDay l))).

(** [a > b] on two dates, [a] valid. *)
Definition date_gt (a : Z) (b : option Z) : bool :=
  match b with
  | Some u => u <? a
  | None => false
  end.

(* ------------------------------------------------------------------ *)
(** ** src/utils/validation.js *)

Definition invalid {A} (message field : string) : result A :=
  Throw (ValidationError message (Some field)).

Definition validateAmount (amount : value) : result value :=
  if is_nullish amount then invalid "Amount is required" "amount"
  else
    let numAmount :=
      match amount with
      | VStr s => VNum (Num.parseFloat s)
      | _ => amount
      end in
    if isNaN numAmount then
      invalid "Amount must be a valid number" "amount"
    else if Num.leb (ToNumber numAmount) Num.zero then
      invalid "Amount must be greater than 0" "amount"
    else if Num.ltb Num.billion (ToNumber numAmount) then
      invalid "Amount is too large (max: 1,000,000,000)" "amount"
    else Ok numAmount.

Definition oneYearFromNow (now : Z) : option Z :=
  setFullYear now (getFullYear now + 1).

(** [now] is the instant the two [new Date()] read. *)
Definition validateDate (now : Z) (dateString : value) : result string :=
  if negb (truthy dateString) then invalid "Date is required" "date"
  else
    match Date_new dateString with
    | None =>
        invalid "Invalid date format. Use ISO 8601 format (YYYY-MM-DD)" "date"
    | Some date =>
        if date_gt date (oneYearFromNow now) then
          invalid "Date cannot be more than 1 year in the future" "date"
        else Ok (Time.isoDate date)
    end.

Definition validTypes : list string := ["income"; "expense"].

Definition str_in (s : string) (l : list string) : bool :=
  existsb (String.eqb s) l.

Definition validateTransactionType (type : value) : result string :=
  if negb (truthy type) then invalid "Transaction type is required" "type"
  else
    match type with
    | VStr s =>
        let lowerType := Str.toLowerCase s in
        if negb (str_in lowerType validTypes) then
          invalid ("Transaction type must be either 'income' or 'expense'. Received: "
                   ++ ToString type) "type"
        else Ok lowerType
    | _ => Throw (TypeError "type.toLowerCase is not a function")
    end.

Definition validateMerchant (merchant : value) : result string :=
  match merchant with
  | VStr s =>
      if negb (truthy merchant) then
        invalid "Merchant name is required and must be a string" "merchant"
      else
        let trimmed := Str.trim s in
        if Str.len trimmed =? 0 then
          invalid "Merchant name cannot be empty" "merchant"
        else if 200 <? Str.len trimmed then
          invalid "Merchant name is too long (max 200 characters)" "merchant"
        else Ok trimmed
  | _ => invalid "Merchant name is required and must be a string" "merchant"
  end.

Definition validateCategory (category : value) : result string :=
  match category with
  | VStr s =>
      if negb (truthy category) then
        invalid "Category is required and must be a string" "category"
      else
        let trimmed := Str.trim s in
        if Str.len trimmed =? 0 then
          invalid "Category cannot be empty" "category"
        else if 100 <? Str.len trimmed then
          invalid "Category is too long (max 100 characters)" "category"
        else Ok trimmed
  | _ => invalid "Category is required and must be a string" "category"
  end.

(** [/^[A-Z]{3}$/] *)
Definition three_capitals (s : string) : bool :=
  (String.length s =? 3)%nat && Str.forallb Str.is_upper s.

Definition validateCurrency (currency : value) : result string :=
  match currency with
  | VStr s =>
      if negb (truthy currency) then Ok "USD"
      else
        let upperCurrency := Str.trim (Str.toUpperCase s) in
        if negb (Str.len upperCurrency =? 3) then
          invalid "Currency must be a 3-letter code (e.g., USD, EUR)" "currency"
        else if negb (three_capitals upperCurrency) then
          invalid "Currency code must contain only letters" "currency"
        else Ok upperCurrency
  | _ => Ok "USD"
  end.

Definition validateUserId (userId : value) : result string :=
  match userId with
  | VStr s =>
      if negb (truthy userId) then
        invalid "User ID is required and must be a string" "userId"
      else
        let trimmed := Str.trim s in
        if Str.len trimmed =? 0 then
          invalid "User ID cannot be empty" "userId"
        else if 100 <? Str.len trimmed then
          invalid "User ID is too long (max 100 characters)" "userId"
        else Ok trimmed
  | _ => invalid "User ID is required and must be a string" "userId"
  end.

End Engine.

(** The object [validateTransaction] returns. *)
Module Validated.
Record t : Type := {
  amount : value;
  date : string;
  type : string;
  merchant : string;
  category : string;
  currency : string;
  description : string;
  source : value;
  rawText : value
}.
End Validated.

Section Validation.
Context {H : Host}.
Local Open Scope result_scope.

(** Reading a property of a candidate.  Reading from [undefined] or
    [null] throws; a primitive or an array has none of the properties
    read here. *)
Definition getprop (o : value) (k : string) : result value :=
  match o with
  | VUndefined =>
      Throw (TypeError ("Cannot read properties of undefined (reading '"
                        ++ k ++ "')"))
  | VNull =>
      Throw (TypeError ("Cannot read properties of null (reading '"
                        ++ k ++ "')"))
  | VObj props => Ok (lookup props k)
  | _ => Ok VUndefined
  end.

(** The body of the [try] block of [validateTransaction]. *)
Definition validateTransaction_body (now : Z) (transaction : value)
  : result Validated.t :=
  a <- getprop transaction "amount" ;;
  amount <- validateAmount a ;;
  d <- getprop transaction "date" ;;
  date <- validateDate now d ;;
  t <- getprop transaction "type" ;;
  type <- validateTransactionType t ;;
  m <- getprop transaction "merchant" ;;
  merchant <- validateMerchant m ;;
  c <- getprop transaction "category" ;;
  category <- validateCategory c ;;
  cur <- getprop transaction "currency" ;;
  currency <- validateCurrency (or_else cur (VStr "USD")) ;;
  desc <- getprop transaction "description" ;;
  let description :=
    if truthy desc then Str.trim (ToString desc) else EmptyString in
  src <- getprop transaction "source" ;;
  raw <- getprop transaction "rawText" ;;
  let validated :=
    {| Validated.amount := amount;
       Validated.date := date;
       Validated.type := type;
       Validated.merchant := merchant;
       Validated.category := category;
       Validated.currency := currency;
       Validated.description := description;
       Validated.source := or_else src (VStr "manual");
       Validated.rawText := or_else raw (VStr EmptyString) |} in
  if 500 <? Str.len (Validated.description validated) then
    invalid "Description is too long (max 500 characters)" "description"
  else Ok validated.

(** A [ValidationError] passes through; anything else is wrapped. *)
Definition validateTransaction (now : Z) (transaction : value)
  : result Validated.t :=
  match validateTransaction_body now transaction with
  | Ok v => Ok v
  | Throw e =>
      if is_ValidationError e then Throw e
      else Throw (ValidationError ("Validation failed: " ++ error_message e)
                                  None)
  end.

End Validation.

(* ------------------------------------------------------------------ *)
(** ** JSON *)

Module Json.

Definition is_ws (c : ascii) : bool :=
  let n := Str.code c in
  ((n =? 32) || (n =? 9) || (n =? 10) || (n =? 13))%nat.

Fixpoint skip_ws (s : string) : string :=
  match s with
  | String c r => if is_ws c then skip_ws r else s
  | EmptyString => s
  end.

Definition hex (c : ascii) : option N := Num.radix_digit 16 c.

(** The UTF-8 bytes of a code unit. *)
Definition utf8 (u : N) : string :=
  let ch (n : N) := String (ascii_of_N n) EmptyString in
  if (u <? 128)%N then ch u
  else if (u <? 2048)%N then ch (192 + u / 64)%N ++ ch (128 + u mod 64)%N
  else ch (224 + u / 4096)%N ++ ch (128 + (u / 64) mod 64)%N
       ++ ch (128 + u mod 64)%N.

Definition cons_to (c : string) (r : option (string * string))
  : option (string * string) :=
  match r with
  | Some (body, rest) => Some (c ++ body, rest)
  | None => None
  end.

Definition one (n : nat) : string := String (ascii_of_nat n) EmptyString.

(** The characters of a string literal after its opening quote, up to
    the closing quote. *)
Fixpoint string_body (s : string) : option (string * string) :=
  match s with
  | EmptyString => None
  | String c r =>
      if Ascii.eqb c Str.quote then Some (EmptyString, r)
      else if Ascii.eqb c "\"%char then
        match r with
        | String e r' =>
            if Ascii.eqb e Str.quote then cons_to (one 34) (string_body r')
            else if Ascii.eqb e "\"%char then cons_to (one 92) (string_body r')
            else if Ascii.eqb e "/"%char then cons_to (one 47) (string_body r')
            else if Ascii.eqb e "b"%char then cons_to (one 8) (string_body r')
            else if Ascii.eqb e "f"%char then cons_to (one 12) (string_body r')
            else if Ascii.eqb e "n"%char then cons_to (one 10) (string_body r')
            else if Ascii.eqb e "r"%char then cons_to (one 13) (string_body r')
            else if Ascii.eqb e "t"%char then cons_to (one 9) (string_body r')
            else if Ascii.eqb e "u"%char then
              match r' with
              | String h1 (String h2 (String h3 (String h4 r''))) =>
                  match hex h1, hex h2, hex h3, hex h4 with
                  | Some a, Some b, Some c', Some d =>
                      cons_to (utf8 (((a * 16 + b) * 16 + c') * 16 + d)%N)
                              (string_body r'')
                  | _, _, _, _ => None
                  end
              | _ => None
              end
            else None
        | EmptyString => None
        end
      else if (Str.code c <? 32)%nat then None
      else cons_to (String c EmptyString) (string_body r)
  end.

(** A number literal: [-? int frac? exp?]. *)
Definition number_literal (s : string) : option (Num.number * string) :=
  let '(neg, s1) :=
    match s with
    | String "-"%char r => (true, r)
    | _ => (false, s)
    end in
  let int :=
    match s1 with
    | String "0"%char r => Some (0%N, r)
    | String c _ =>
        if Str.is_digit c then
          let '(m, _, r) := Num.digits 0 0 s1 in Some (m, r)
        else None
    | EmptyString => None
    end in
  match int with
  | None => None
  | Some (m1, r1) =>
      let frac :=
        match r1 with
        | String "."%char r =>
            let '(m, c, r') := Num.digits m1 0 r in
            if 0 <? c then Some (m, c, r') else None
        | _ => Some (m1, 0, r1)
        end in
      match frac with
      | None => None
      | Some (m2, c2, r2) =>
          match r2 with
          | String c r =>
              if Num.is_e c then
                let '(eneg, r3) :=
                  match r with
                  | String "-"%char r' => (true, r')
                  | String "+"%char r' => (false, r')
                  | _ => (false, r)
                  end in
                let '(v, n, r4) := Num.digits 0 0 r3 in
                if 0 <? n then
                  Some (Num.of_decimal neg m2
                          ((if eneg then - Z.of_N v else Z.of_N v) - c2), r4)
                else None
              else Some (Num.of_decimal neg m2 (- c2), r2)
          | EmptyString => Some (Num.of_decimal neg m2 (- c2), r2)
          end
      end
  end.

(** One value, and the members of an object and the elements of an
    array after the first; the fuel bounds the nesting and the number of
    members, and the length of the text is enough. *)
Fixpoint parse_value (fuel : nat) (s : string) : option (value * string) :=
  match fuel with
  | O => None
  | S f =>
      match skip_ws s with
      | String c r =>
          if Ascii.eqb c "{"%char then
            match skip_ws r with
            | String "}"%char r' => Some (VObj [], r')
            | r1 => parse_members f r1 []
            end
          else if Ascii.eqb c "["%char then
            match skip_ws r with
            | String "]"%char r' => Some (VArr [], r')
            | r1 => parse_elements f r1 []
            end
          else if Ascii.eqb c Str.quote then
            match string_body r with
            | Some (str, r') => Some (VStr str, r')
            | None => None
            end
          else if Str.startsWith "true" (String c r) then
            Some (VBool true, Str.drop 4 (String c r))
          else if Str.startsWith "false" (String c r) then
            Some (VBool false, Str.drop 5 (String c r))
          else if Str.startsWith "null" (String c r) then
            Some (VNull, Str.drop 4 (String c r))
          else
            match number_literal (String c r) with
            | Some (n, r') => Some (VNum n, r')
            | None => None
            end
      | EmptyString => None
      end
  end
with parse_members (fuel : nat) (s : string) (acc : list (string * value))
  : option (value * string) :=
  match fuel with
  | O => None
  | S f =>
      match skip_ws s with
      | String c r =>
          if Ascii.eqb c Str.quote then
            match string_body r with
            | Some (k, r1) =>
                match skip_ws r1 with
                | String ":"%char r2 =>
                    match parse_value f r2 with
                    | Some (v, r3) =>
                        match skip_ws r3 with
                        | String ","%char r4 =>
                            parse_members f r4 (assign acc k v)
                        | String "}"%char r4 =>
                            Some (VObj (assign acc k v), r4)
                        | _ => None
                        end
                    | None => None
                    end
                | _ => None
                end
            | None => None
            end
          else None
      | EmptyString => None
      end
  end
with parse_elements (fuel : nat) (s : string) (acc : list value)
  : option (value * string) :=
  match fuel with
  | O => None
  | S f =>
      match parse_value f s with
      | Some (v, r) =>
          match skip_ws r with
          | String ","%char r' => parse_elements f r' (acc ++ [v])
          | String "]"%char r' => Some (VArr (acc ++ [v]), r')
          | _ => None
          end
      | None => None
      end
  end.

(** The whole text has to be one value between white space. *)
Definition parse_text (s : string) : option value :=
  match parse_value (S (S (String.length s))) s with
  | Some (v, r) =>
      match skip_ws r with
      | EmptyString => Some v
      | _ => None
      end
  | None => None
  end.

Definition hex_digit (n : N) : string :=
  one (N.to_nat (if (n <? 10)%N then 48 + n else 87 + n)%N).

(** QuoteJSONString. *)
Fixpoint escape (s : string) : string :=
  match s with
  | EmptyString => EmptyString
  | String c r =>
      let n := Str.code c in
      (if (n =? 34)%nat then "\" ++ one 34
       else if (n =? 92)%nat then "\\"
       else if (n =? 8)%nat then "\b"
       else if (n =? 9)%nat then "\t"
       else if (n =? 10)%nat then "\n"
       else if (n =? 12)%nat then "\f"
       else if (n =? 13)%nat then "\r"
       else if (n <? 32)%nat then
         "\u00" ++ hex_digit (N.of_nat n / 16) ++ hex_digit (N.of_nat n mod 16)
       else String c EmptyString) ++ escape r
  end.

Definition quoted (s : string) : string := one 34 ++ escape s ++ one 34.

End Json.

(** An array index as a property key: [0], or digits that do not start
    with [0], below [2^32 - 1]. *)
Definition array_index (k : string) : option N :=
  match k with
  | EmptyString => None
  | String "0"%char EmptyString => Some 0%N
  | String "0"%char _ => None
  | _ =>
      match Num.radix_digits 10 0 k with
      | Some n => if (n <? 4294967295)%N then Some n else None
      | None => None
      end
  end.

Fixpoint insert_index (x : N * string) (l : list (N * string))
  : list (N * string) :=
  match l with
  | [] => [x]
  | y :: r => if (fst x <=? fst y)%N then x :: l else y :: insert_index x r
  end.

(** The members of an object in the order of its own property keys:
    the array indices by value, then the other keys as they were
    added. *)
Fixpoint insert_member {A : Type} (x : N * A) (l : list (N * A))
  : list (N * A) :=
  match l with
  | [] => [x]
  | y :: r => if (fst x <=? fst y)%N then x :: l else y :: insert_member x r
  end.

Definition in_key_order {A : Type} (l : list (string * A))
  : list (string * A) :=
  (map snd
     (fold_right insert_member []
        (flat_map (fun p => match array_index (fst p) with
                            | Some n => [(n, p)]
                            | None => []
                            end) l))
   ++ filter (fun p => match array_index (fst p) with
                       | Some _ => false
                       | None => true
                       end) l)%list.

Section JsonHost.
Context {H : Host}.

(** [JSON.parse] *)
Definition JSON_parse (s : string) : result value :=
  match Json.parse_text s with
  | Some v => Ok v
  | None => Throw (SyntaxError (SyntaxError_message s))
  end.

(** [JSON.stringify] without indentation; [None] is the [undefined] it
    returns for [undefined].  A number that is not finite prints as
    [null]; a property whose value is [undefined] is left out and an
    [undefined] element prints as [null].  The members of an object
    come in the order of its own property keys. *)
Fixpoint JSON_stringify (v : value) : option string :=
  match v with
  | VUndefined => None
  | VNull => Some "null"
  | VBool b => Some (if b then "true" else "false")
  | VNum n =>
      Some (match n with
            | S754_nan | S754_infinity _ => "null"
            | _ => Number_toString n
            end)
  | VStr s => Some (Json.quoted s)
  | VArr l =>
      Some ("[" ++
            Str.join ","
              ((fix elements (l : list value) : list string :=
                  match l with
                  | [] => []
                  | x :: r =>
                      match JSON_stringify x with
                      | Some t => t
                      | None => "null"
                      end :: elements r
                  end) l) ++ "]")
  | VObj props =>
      Some ("{" ++
            Str.join ","
              (map snd
                 (in_key_order
                    ((fix members (l : list (string * value))
                        : list (string * string) :=
                        match l with
                        | [] => []
                        | (k, x) :: r =>
                            match JSON_stringify x with
                            | Some t =>
                                (k, Json.quoted k ++ ":" ++ t) :: members r
                            | None => members r
                            end
                        end) props))) ++ "}")
  end.

End JsonHost.

(* ------------------------------------------------------------------ *)
(** ** The world of a request *)

(** A stored transaction, the item [createTransaction] builds. *)
Module Item.
Record t : Type := {
  userId : string;
  transactionId : string;
  timestamp : Z;
  amount : value;
  currency : string;
  date : string;
  merchant : string;
  category : string;
  type : string;
  description : string;
  source : value;
  rawText : value;
  status : string;
  createdAt : string;
  updatedAt : string
}.
End Item.

(** The bytes of a file: how many, and which. *)
Record buffer : Type := {
  length : Z;
  byteAt : Z -> N
}.

(** A block of a recognizer response; [Text] can be absent. *)
Record block : Type := {
  BlockType : string;
  Text : option string
}.

Inductive db_op : Type :=
| OpPut
| OpQuery (IndexName : option string)
| OpScan.

(** What a run does to its collaborators, and the calls of the two
    functions the properties speak about. *)
Inductive event : Type :=
| Ext_completion (content : string)
| Ext_detectDocumentText (bytes : Z)
| Ext_readFile (path : string)
| Ext_unlink (path : string)
| Ext_put (item : Item.t)
| Ext_query (IndexName : option string)
| Ext_scan
| Call_createTransaction (userId : string) (data : Validated.t)
| Call_cleanupImageFile (filePath : value).

(** The collaborators, as the answers they give: the completion service
    (the content of the first choice, when there is one), the recognizer
    (the blocks of the response, when it has any), the faults of the
    file system and of the table store, the identifier generator, and
    the environment variable of the API key.  Of the table store also:
    how many of the items an operation reads, in the order it reads
    them, make up the one page of at most 1 MB that a call returns, and
    the place of an item among the items of the same keys in the index
    [merchant-date-index]. *)
Record env : Type := {
  OPENAI_API_KEY : option string;
  completion : string -> result (option string);
  detectDocumentText : buffer -> result (option (list block));
  readFile_fault : string -> option error;
  unlink_fault : string -> option error;
  db_fault : db_op -> option error;
  uuidv4 : nat -> string;
  page_items : db_op -> list Item.t -> nat;
  index_rank : Item.t -> N
}.

(** What a request finds and leaves: the items of the table, in the
    order in which a scan reads them, the files, the clock, the count of
    identifiers issued and the calls made to the collaborators. *)
Record world : Type := {
  table : list Item.t;
  files : list (string * buffer);
  clock : Z;
  issued : nat;
  trace : list event
}.

(** Computations that read and change the world and can throw; what was
    done before a throw stays done. *)
Definition M (A : Type) : Type := world -> result A * world.

Definition ret {A} (a : A) : M A := fun w => (Ok a, w).
Definition throw {A} (e : error) : M A := fun w => (Throw e, w).

Definition bind {A B} (m : M A) (k : A -> M B) : M B :=
  fun w =>
    match m w with
    | (Ok a, w') => k a w'
    | (Throw e, w') => (Throw e, w')
    end.

(** [try { m } catch (error) { handler error }] *)
Definition try_catch {A} (m : M A) (handler : error -> M A) : M A :=
  fun w =>
    match m w with
    | (Ok a, w') => (Ok a, w')
    | (Throw e, w') => handler e w'
    end.

Definition lift {A} (r : result A) : M A := fun w => (r, w).

Definition emit (e : event) : M unit :=
  fun w =>
    (Ok tt, {| table := table w; files := files w; clock := clock w;
               issued := issued w; trace := trace w ++ [e] |}).

Definition now : M Z := fun w => (Ok (clock w), w).

Declare Scope M_scope.
Delimit Scope M_scope with M.
Notation "x <- m ;; k" := (bind m (fun x => k))
  (at level 61, m at next level, right associativity) : M_scope.
Notation "m ;; k" := (bind m (fun _ => k))
  (at level 61, right associativity) : M_scope.

(* ------------------------------------------------------------------ *)
(** ** src/services/llmService.js *)

Module Fence.

Definition fence : string :=
  String Str.backtick (String Str.backtick (String Str.backtick EmptyString)).

(** [s.replace(/\n?/g, '')]: the pattern matches a line feed where there
    is one and the empty text elsewhere, so the line feeds go. *)
Fixpoint strip_newlines (s : string) : string :=
  match s with
  | EmptyString => EmptyString
  | String c r =>
      if Ascii.eqb c Str.LF then strip_newlines r
      else String c (strip_newlines r)
  end.

(** [s.replace(/```\n?/g, '')]: each run of three backticks goes, with
    the line feed after it when there is one. *)
Fixpoint strip_fences (s : string) : string :=
  match s with
  | EmptyString => EmptyString
  | String a r =>
      match r with
      | String b (String c r') =>
          if Ascii.eqb a Str.backtick && Ascii.eqb b Str.backtick
             && Ascii.eqb c Str.backtick
          then match r' with
               | String d r'' =>
                   if Ascii.eqb d Str.LF then strip_fences r''
                   else strip_fences r'
               | EmptyString => EmptyString
               end
          else String a (strip_fences r)
      | _ => String a (strip_fences r)
      end
  end.

Definition cleanJson (responseContent : string) : string :=
  Str.trim (strip_fences (strip_newlines responseContent)).

(** [/^\d{4}-\d{2}-\d{2}$/] *)
Definition is_date_text (s : string) : bool :=
  match s with
  | String y1 (String y2 (String y3 (String y4 (String h1
      (String m1 (String m2 (String h2 (String d1 (String d2
         EmptyString))))))))) =>
      Str.is_digit y1 && Str.is_digit y2 && Str.is_digit y3 &&
      Str.is_digit y4 && Ascii.eqb h1 "-"%char &&
      Str.is_digit m1 && Str.is_digit m2 && Ascii.eqb h2 "-"%char &&
      Str.is_digit d1 && Str.is_digit d2
  | _ => false
  end.

End Fence.

Definition requiredFields : list string :=
  ["amount"; "date"; "merchant"; "category"; "type"].

Section Services.
Context {H : Host} (E : env).
Local Open Scope M_scope.

(** The required fields that are [undefined] or [null] in the parsed
    response; reading a field of [null] throws. *)
Fixpoint missingFields (transactionData : value) (fields : list string)
  : result (list string) :=
  match fields with
  | [] => Ok []
  | field :: rest =>
      rbind (getprop transactionData field) (fun v =>
      rbind (missingFields transactionData rest) (fun r =>
      Ok (if is_nullish v then field :: r else r)))
  end.

Definition getTodayDate : M string :=
  today <- now ;; ret (Time.isoDate today).

(** The text [JSON.stringify] gives inside a template. *)
Definition stringified (v : value) : string :=
  match JSON_stringify v with
  | Some t => t
  | None => "undefined"
  end.

(** The completion request; the user message carries the text. *)
Definition create_completion (text : string) : M (option string) :=
  emit (Ext_completion
          ("Extract transaction information from this text: " ++ text)) ;;
  lift (completion E
          ("Extract transaction information from this text: " ++ text)).

(** The post-processing of a response that has every required field. *)
Definition normalize (props : list (string * value))
  : M (list (string * value)) :=
  let props1 :=
    match lookup props "amount" with
    | VStr a => assign props "amount" (VNum (Num.parseFloat a))
    | _ => props
    end in
  props2 <-
    (let d := lookup props1 "date" in
     if truthy d && negb (Fence.is_date_text (ToString d)) then
       match Date_new d with
       | Some parsedDate =>
           ret (assign props1 "date" (VStr (Time.isoDate parsedDate)))
       | None =>
           today <- getTodayDate ;;
           ret (assign props1 "date" (VStr today))
       end
     else ret props1) ;;
  let props3 :=
    assign props2 "currency" (or_else (lookup props2 "currency") (VStr "USD")) in
  ret (assign props3 "description"
         (or_else (lookup props3 "description") (VStr EmptyString))).

(** The [try] block of [extractTransactionFromText]. *)
Definition extract_body (text : value) : M value :=
  match text with
  | VStr t =>
      if negb (truthy text) || (Str.len (Str.trim t) =? 0) then
        throw (LLMError "Text input is required and cannot be empty" None)
      else if negb (truthy (match OPENAI_API_KEY E with
                            | Some k => VStr k
                            | None => VUndefined
                            end)) then
        throw (LLMError "OpenAI API key is not configured. Please set OPENAI_API_KEY in your .env file." None)
      else
        content <- create_completion t ;;
        match content with
        | None => throw (LLMError "Empty response from OpenAI" None)
        | Some EmptyString => throw (LLMError "Empty response from OpenAI" None)
        | Some responseContent =>
            transactionData <-
              match JSON_parse (Fence.cleanJson responseContent) with
              | Ok v => ret v
              | Throw parseError =>
                  throw (LLMError
                           ("Failed to parse JSON response from OpenAI: "
                            ++ error_message parseError) (Some parseError))
              end ;;
            missing <- lift (missingFields transactionData requiredFields) ;;
            if (0 <? List.length missing)%nat then
              throw (LLMError
                       ("Missing required fields in LLM response: "
                        ++ Str.join ", " missing ++ ". Response: "
                        ++ stringified transactionData) None)
            else
              match transactionData with
              | VObj props =>
                  props' <- normalize props ;; ret (VObj props')
              | _ => ret transactionData
              end
        end
  | _ => throw (LLMError "Text input is required and cannot be empty" None)
  end.

(** The [catch] block: an [LLMError] passes, an error of the service is
    reported by its status. *)
Definition extract_handler (error : error) : M value :=
  if is_LLMError error then throw error
  else
    match error_response error with
    | Some (statusCode, dataMessage) =>
        let errorMessage :=
          match dataMessage with
          | Some m =>
              if String.eqb m EmptyString then error_message error else m
          | None => error_message error
          end in
        if statusCode =? 401 then
          throw (LLMError "OpenAI API key is invalid. Please check your OPENAI_API_KEY in .env file." (Some error))
        else if statusCode =? 429 then
          throw (LLMError "OpenAI API rate limit exceeded. Please try again later." (Some error))
        else if statusCode =? 500 then
          throw (LLMError "OpenAI API server error. Please try again later." (Some error))
        else if statusCode =? 503 then
          throw (LLMError "OpenAI API service is temporarily unavailable. Please try again later." (Some error))
        else throw (LLMError ("OpenAI API error: " ++ errorMessage) (Some error))
    | None =>
        match error_apiStatus error with
        | Some status =>
            match status with
            | Some 401 =>
                throw (LLMError "OpenAI API key is invalid" (Some error))
            | Some 429 =>
                throw (LLMError "OpenAI API rate limit exceeded" (Some error))
            | _ =>
                throw (LLMError ("OpenAI API error: " ++ error_message error)
                                (Some error))
            end
        | None =>
            throw (LLMError ("Failed to extract transaction data: "
                             ++ error_message error) (Some error))
        end
    end.

Definition extractTransactionFromText (text : value) : M value :=
  try_catch (extract_body text) extract_handler.

(* ------------------------------------------------------------------ *)
(** ** The table store, as the document client shows it *)

Definition tick (w : world) : world :=
  {| table := table w; files := files w; clock := clock w;
     issued := S (issued w); trace := trace w |}.

(** [uuidv4()] *)
Definition fresh_uuid : M string :=
  fun w => (Ok (uuidv4 E (issued w)), tick w).

Definition fault (op : db_op) : M unit :=
  match db_fault E op with
  | Some e => throw e
  | None => ret tt
  end.

Definition same_key (a b : Item.t) : bool :=
  String.eqb (Item.userId a) (Item.userId b) &&
  String.eqb (Item.transactionId a) (Item.transactionId b).

(** [put] replaces the item of the same primary key, or adds one. *)
Definition put_item (item : Item.t) (tbl : list Item.t) : list Item.t :=
  if existsb (same_key item) tbl
  then map (fun it => if same_key item it then item else it) tbl
  else tbl ++ [item].

Definition set_table (tbl : list Item.t) : M unit :=
  fun w =>
    (Ok tt, {| table := tbl; files := files w; clock := clock w;
               issued := issued w; trace := trace w |}).

Definition get_table : M (list Item.t) := fun w => (Ok (table w), w).

Definition dynamoDB_put (item : Item.t) : M unit :=
  emit (Ext_put item) ;;
  fault OpPut ;;
  tbl <- get_table ;;
  set_table (put_item item tbl).

(** Insertion into a list sorted by descending sort key. *)
Fixpoint insert_desc (x : Item.t) (l : list Item.t) : list Item.t :=
  match l with
  | [] => [x]
  | y :: r =>
      if String.leb (Item.transactionId y) (Item.transactionId x)
      then x :: l
      else y :: insert_desc x r
  end.

Definition sort_desc (l : list Item.t) : list Item.t :=
  fold_right insert_desc [] l.

(** The one page of a call: the store reads the items in their order
    and stops at 1 MB of data.  The code reads [Items] of the first
    response and never asks for the page after [LastEvaluatedKey], so
    what lies beyond the page is not seen. *)
Definition page (op : db_op) (l : list Item.t) : list Item.t :=
  firstn (page_items E op l) l.

(** The decimal text of an integer. *)
Definition integer_text (n : Z) : string :=
  if n <? 0 then "-" ++ Fixed.dec (- n) else Fixed.dec n.

(** A query of the table by partition key, backward ([ScanIndexForward]
    false): the items of the partition by descending sort key
    [transactionId], as many as the page holds and at most [Limit] of
    them.  The store rejects a limit below one. *)
Definition dynamoDB_query_user (userId : string) (Limit : Z)
  : M (list Item.t) :=
  emit (Ext_query None) ;;
  fault (OpQuery None) ;;
  if Limit <? 1 then
    throw (ServiceError "ValidationException"
             ("1 validation error detected: Value '" ++ integer_text Limit
              ++ "' at 'limit' failed to satisfy constraint: Member must have value greater than or equal to 1")
             None None)
  else
    tbl <- get_table ;;
    ret (firstn (Z.to_nat Limit)
           (page (OpQuery None)
              (sort_desc
                 (filter (fun it => String.eqb (Item.userId it) userId)
                         tbl)))).

(** Insertion into a list sorted by the place in the index. *)
Fixpoint insert_rank (x : Item.t) (l : list Item.t) : list Item.t :=
  match l with
  | [] => [x]
  | y :: r =>
      if (index_rank E x <=? index_rank E y)%N
      then x :: l
      else y :: insert_rank x r
  end.

(** The order in which the index holds items of the same keys; it is
    the index's own and need not be the order of a scan. *)
Definition index_order (l : list Item.t) : list Item.t :=
  fold_right insert_rank [] l.

(** A query of the index [merchant-date-index] by both of its keys: the
    items of the table that have them, all their attributes projected,
    in the order of the index, as many as the page holds. *)
Definition dynamoDB_query_index (merchant date : string) : M (list Item.t) :=
  emit (Ext_query (Some "merchant-date-index")) ;;
  fault (OpQuery (Some "merchant-date-index")) ;;
  tbl <- get_table ;;
  ret (page (OpQuery (Some "merchant-date-index"))
         (index_order
            (filter (fun it => String.eqb (Item.merchant it) merchant &&
                               String.eqb (Item.date it) date) tbl))).

(** A scan with a filter expression and a limit: the limit and the page
    bound the items the scan evaluates, and the filter applies to
    those. *)
Definition dynamoDB_scan (Limit : nat) (FilterExpression : Item.t -> bool)
  : M (list Item.t) :=
  emit Ext_scan ;;
  fault OpScan ;;
  tbl <- get_table ;;
  ret (filter FilterExpression (firstn Limit (page OpScan tbl))).

(* ------------------------------------------------------------------ *)
(** ** src/services/dynamodbService.js *)

Definition createTransaction (userId : string) (transactionData : Validated.t)
  : M Item.t :=
  emit (Call_createTransaction userId transactionData) ;;
  try_catch
    (uuid <- fresh_uuid ;;
     let transactionId := "tx-" ++ uuid in
     timestamp <- now ;;
     instant <- now ;;
     let item :=
       {| Item.userId := userId;
          Item.transactionId := transactionId;
          Item.timestamp := timestamp;
          Item.amount := Validated.amount transactionData;
          Item.currency :=
            if String.eqb (Validated.currency transactionData) EmptyString
            then "USD" else Validated.currency transactionData;
          Item.date := Validated.date transactionData;
          Item.merchant := Validated.merchant transactionData;
          Item.category := Validated.category transactionData;
          Item.type := Validated.type transactionData;
          Item.description := Validated.description transactionData;
          Item.source :=
            or_else (Validated.source transactionData) (VStr "manual");
          Item.rawText :=
            or_else (Validated.rawText transactionData) (VStr EmptyString);
          Item.status := "confirmed";
          Item.createdAt := Time.toISOString instant;
          Item.updatedAt := Time.toISOString instant |} in
     dynamoDB_put item ;;
     ret item)
    (fun error =>
       throw (DatabaseError ("Failed to create transaction: "
                             ++ error_message error) (Some error))).

(** [limit] is [None] when the argument is left out. *)
Definition getUserTransactions (userId : string) (limit : option Z)
  : M (list Item.t) :=
  let limit := match limit with Some l => l | None => 100 end in
  try_catch
    (dynamoDB_query_user userId limit)
    (fun error =>
       throw (DatabaseError ("Failed to get user transactions: "
                             ++ error_message error) (Some error))).

(** [Math.abs(item.amount - amount) / amount <= tolerance] *)
Definition within_tolerance (itemAmount amount : value) : bool :=
  let amountDifference :=
    Num.abs (Num.sub (ToNumber itemAmount) (ToNumber amount)) in
  let percentDifference := Num.div amountDifference (ToNumber amount) in
  Num.leb percentDifference Num.tolerance.

Definition checkForDuplicatesFallback (userId : string)
  (transactionData : Validated.t) : M (list Item.t) :=
  try_catch
    (let merchant := Validated.merchant transactionData in
     let date := Validated.date transactionData in
     let amount := Validated.amount transactionData in
     Items <- dynamoDB_scan 100
                (fun it => String.eqb (Item.userId it) userId &&
                           String.eqb (Item.merchant it) merchant &&
                           String.eqb (Item.date it) date) ;;
     ret (filter (fun item => within_tolerance (Item.amount item) amount)
                 Items))
    (fun error =>
       throw (DatabaseError ("Failed to check for duplicates (fallback): "
                             ++ error_message error) (Some error))).

Definition checkForDuplicates (userId : string)
  (transactionData : Validated.t) : M (list Item.t) :=
  try_catch
    (let merchant := Validated.merchant transactionData in
     let date := Validated.date transactionData in
     let amount := Validated.amount transactionData in
     Items <- dynamoDB_query_index merchant date ;;
     ret (filter
            (fun item =>
               if negb (String.eqb (Item.userId item) userId) then false
               else within_tolerance (Item.amount item) amount)
            Items))
    (fun error =>
       if String.eqb (error_code error) "ResourceNotFoundException"
       then checkForDuplicatesFallback userId transactionData
       else
         match message_includes error "index" with
         | Throw raised => throw raised
         | Ok true => checkForDuplicatesFallback userId transactionData
         | Ok false =>
             throw (DatabaseError ("Failed to check for duplicates: "
                                   ++ error_message error) (Some error))
         end).

(* ------------------------------------------------------------------ *)
(** ** src/services/ocrService.js *)

Fixpoint find_file (path : string) (fs : list (string * buffer))
  : option buffer :=
  match fs with
  | [] => None
  | (p, b) :: r => if String.eqb p path then Some b else find_file path r
  end.

(** [fs.existsSync]; only a string names a file. *)
Definition existsSync (path : value) : M bool :=
  fun w =>
    (Ok match path with
        | VStr p => match find_file p (files w) with
                    | Some _ => true
                    | None => false
                    end
        | _ => false
        end, w).

Definition readFile (path : string) : M buffer :=
  emit (Ext_readFile path) ;;
  match readFile_fault E path with
  | Some e => throw e
  | None =>
      fun w =>
        match find_file path (files w) with
        | Some b => (Ok b, w)
        | None =>
            (Throw (ServiceError "ENOENT"
                      ("ENOENT: no such file or directory, open '"
                       ++ path ++ "'") None None), w)
        end
  end.

Definition unlink (path : string) : M unit :=
  emit (Ext_unlink path) ;;
  match unlink_fault E path with
  | Some e => throw e
  | None =>
      fun w =>
        match find_file path (files w) with
        | Some _ =>
            (Ok tt,
             {| table := table w;
                files := filter (fun f => negb (String.eqb (fst f) path))
                                (files w);
                clock := clock w; issued := issued w; trace := trace w |})
        | None =>
            (Throw (ServiceError "ENOENT"
                      ("ENOENT: no such file or directory, unlink '"
                       ++ path ++ "'") None None), w)
        end
  end.

Definition maxSize : Z := 10 * 1024 * 1024.

(** The text of the LINE blocks, one per line. *)
Definition lines_of (Blocks : list block) : string :=
  let textBlocks :=
    filter (fun text => truthy (VStr text) &&
                        (0 <? Str.len (Str.trim text)))
      (flat_map (fun b => match Text b with
                          | Some text => [text]
                          | None => []
                          end)
         (filter (fun b => String.eqb (BlockType b) "LINE") Blocks)) in
  Str.join (String Str.LF EmptyString) textBlocks.

Definition megabytes (n : Z) : string :=
  toFixed 2 (Num.div (Num.div (Num.of_Z n) (Num.of_Z 1024)) (Num.of_Z 1024)).

Definition call_textract (imageBytes : buffer) : M (option (list block)) :=
  emit (Ext_detectDocumentText (length imageBytes)) ;;
  lift (detectDocumentText E imageBytes).

Definition extractTextFromImage (imagePath : value) : M string :=
  try_catch
    (match imagePath with
     | VStr path =>
         if negb (truthy imagePath) then
           throw (OCRError "Image path is required and must be a string" None)
         else
           present <- existsSync imagePath ;;
           if negb present then
             throw (OCRError ("Image file not found: " ++ path) None)
           else
             imageBytes <- readFile path ;;
             if maxSize <? length imageBytes then
               throw (OCRError
                        ("Image file is too large. Maximum size is 10 MB. Current size: "
                         ++ megabytes (length imageBytes) ++ " MB") None)
             else
               response <- call_textract imageBytes ;;
               let extractedText :=
                 match response with
                 | Some Blocks => lines_of Blocks
                 | None => EmptyString
                 end in
               if negb (truthy (VStr extractedText))
                  || (Str.len (Str.trim extractedText) =? 0) then
                 throw (OCRError "No text could be extracted from the image. Please ensure the image contains readable text." None)
               else ret (Str.trim extractedText)
     | _ => throw (OCRError "Image path is required and must be a string" None)
     end)
    (fun error =>
       if is_OCRError error then throw error
       else if String.eqb (error_code error) "InvalidParameterException" then
         throw (OCRError "Invalid image format. Supported formats: PNG, JPEG, PDF. Please ensure the file is a valid image." (Some error))
       else if String.eqb (error_code error) "AccessDeniedException" then
         throw (OCRError "AWS Textract access denied. Check your AWS credentials and IAM permissions for Textract." (Some error))
       else if String.eqb (error_code error) "InvalidS3ObjectException" then
         throw (OCRError "Invalid S3 object (if using S3). Check the file path and permissions." (Some error))
       else if String.eqb (error_code error)
                 "ProvisionedThroughputExceededException" then
         throw (OCRError "AWS Textract throughput limit exceeded. Please try again in a few moments." (Some error))
       else if String.eqb (error_code error) "ThrottlingException" then
         throw (OCRError "AWS Textract request was throttled. Please try again later." (Some error))
       else throw (OCRError ("OCR extraction failed: " ++ error_message error)
                            (Some error))).

Definition extractTextFromBuffer (imageBuffer : option buffer) : M string :=
  try_catch
    (match imageBuffer with
     | None =>
         throw (OCRError "Image buffer is required and must be a Buffer" None)
     | Some imageBuffer =>
         if maxSize <? length imageBuffer then
           throw (OCRError
                    ("Image buffer is too large. Maximum size is 10 MB. Current size: "
                     ++ megabytes (length imageBuffer) ++ " MB") None)
         else
           response <- call_textract imageBuffer ;;
           let extractedText :=
             match response with
             | Some Blocks => lines_of Blocks
             | None => EmptyString
             end in
           if negb (truthy (VStr extractedText))
              || (Str.len (Str.trim extractedText) =? 0) then
             throw (OCRError "No text could be extracted from the image buffer" None)
           else ret (Str.trim extractedText)
     end)
    (fun error =>
       if is_OCRError error then throw error
       else if String.eqb (error_code error) "InvalidParameterException" then
         throw (OCRError "Invalid image format. Supported formats: PNG, JPEG, PDF." (Some error))
       else if String.eqb (error_code error) "AccessDeniedException" then
         throw (OCRError "AWS Textract access denied. Check your AWS credentials and IAM permissions." (Some error))
       else throw (OCRError ("OCR extraction from buffer failed: "
                             ++ error_message error) (Some error))).

(** The cleanup never throws: what fails inside is logged and dropped. *)
Definition cleanupImageFile (filePath : value) : M unit :=
  emit (Call_cleanupImageFile filePath) ;;
  try_catch
    (if negb (truthy filePath) then ret tt
     else
       present <- existsSync filePath ;;
       if present then
         match filePath with
         | VStr path => unlink path
         | _ => ret tt
         end
       else ret tt)
    (fun _ => ret tt).

(* ------------------------------------------------------------------ *)
(** ** src/services/transactionService.js *)

(** Assignment to a property of the extracted data.  The data is an
    object; on [undefined] or [null] the assignment throws, and so it
    does, in a module, on a primitive. *)
Definition setprop (o : value) (k : string) (v : value) : result value :=
  match o with
  | VObj props => Ok (VObj (assign props k v))
  | VUndefined =>
      Throw (TypeError ("Cannot set properties of undefined (setting '"
                        ++ k ++ "')"))
  | VNull =>
      Throw (TypeError ("Cannot set properties of null (setting '"
                        ++ k ++ "')"))
  | VArr _ => Ok o
  | _ => Throw (TypeError ("Cannot create property '" ++ k ++ "' on "
                           ++ ToString o))
  end.

Definition generateConfirmationMessage (transaction : Item.t)
  (fromReceipt : bool) : result string :=
  let sourceText := if fromReceipt then "from receipt" else EmptyString in
  let typeText :=
    if String.eqb (Item.type transaction) "income" then "income"
    else "expense" in
  match Item.amount transaction with
  | VNum amount =>
      Ok ("‚úÖ Transaction recorded " ++ sourceText ++ ": $"
          ++ toFixed 2 amount ++ " " ++ typeText ++ " at "
          ++ Item.merchant transaction ++ " ("
          ++ Item.category transaction ++ "). Transaction ID: "
          ++ Item.transactionId transaction)
  | VUndefined =>
      Throw (TypeError "Cannot read properties of undefined (reading 'toFixed')")
  | VNull =>
      Throw (TypeError "Cannot read properties of null (reading 'toFixed')")
  | _ => Throw (TypeError "transaction.amount.toFixed is not a function")
  end.

(** What a pipeline returns; [None] is [null] for [transaction] and an
    absent property for [duplicateTransaction]. *)
Record outcome : Type := {
  transaction : option Item.t;
  message : string;
  isDuplicate : bool;
  duplicateTransaction : option Item.t
}.

Definition similar (first : Item.t) : string :=
  "$" ++ ToString (Item.amount first) ++ " at " ++ Item.merchant first
  ++ " on " ++ Item.date first ++ ". Transaction ID: "
  ++ Item.transactionId first.

Definition processTransactionFromText (userId text : value) : M outcome :=
  try_catch
    (validUserId <- lift (validateUserId userId) ;;
     transactionData <- extractTransactionFromText text ;;
     transactionData <- lift (setprop transactionData "source" (VStr "manual")) ;;
     transactionData <- lift (setprop transactionData "rawText" text) ;;
     today <- now ;;
     validatedData <- lift (validateTransaction today transactionData) ;;
     duplicates <- checkForDuplicates validUserId validatedData ;;
     match duplicates with
     | first :: _ =>
         ret {| transaction := None;
                message := "‚ö†Ô∏è Potential duplicate transaction detected. Similar transaction found: "
                           ++ similar first;
                isDuplicate := true;
                duplicateTransaction := Some first |}
     | [] =>
         createdTransaction <- createTransaction validUserId validatedData ;;
         confirmationMessage <-
           lift (generateConfirmationMessage createdTransaction false) ;;
         ret {| transaction := Some createdTransaction;
                message := confirmationMessage;
                isDuplicate := false;
                duplicateTransaction := None |}
     end)
    (fun error => throw error).

(** The image pipeline has a local flag, [cleanedUp]; [L] is [M] with
    that variable, which a [catch] can read after a throw. *)
Definition L (A : Type) : Type := bool -> world -> result A * bool * world.

Definition retL {A} (a : A) : L A := fun c w => (Ok a, c, w).

Definition bindL {A B} (m : L A) (k : A -> L B) : L B :=
  fun c w =>
    match m c w with
    | (Ok a, c', w') => k a c' w'
    | (Throw e, c', w') => (Throw e, c', w')
    end.

Definition liftL {A} (m : M A) : L A :=
  fun c w => let '(r, w') := m w in (r, c, w').

Definition set_cleanedUp (b : bool) : L unit := fun _ w => (Ok tt, b, w).

Definition get_cleanedUp : L bool := fun c w => (Ok c, c, w).

Definition try_catchL {A} (m : L A) (handler : error -> L A) : L A :=
  fun c w =>
    match m c w with
    | (Ok a, c', w') => (Ok a, c', w')
    | (Throw e, c', w') => handler e c' w'
    end.

(** [let cleanedUp = init; body] *)
Definition with_cleanedUp {A} (init : bool) (body : L A) : M A :=
  fun w => let '(r, _, w') := body init w in (r, w').

Declare Scope L_scope.
Delimit Scope L_scope with L.
Notation "x <- m ;; k" := (bindL m (fun x => k))
  (at level 61, m at next level, right associativity) : L_scope.
Notation "m ;; k" := (bindL m (fun _ => k))
  (at level 61, right associativity) : L_scope.

Definition processTransactionFromImage (userId imagePath : value)
  : M outcome :=
  with_cleanedUp false
    (try_catchL
       (validUserId <- liftL (lift (validateUserId userId)) ;;
        extractedText <- liftL (extractTextFromImage imagePath) ;;
        transactionData <-
          liftL (extractTransactionFromText (VStr extractedText)) ;;
        transactionData <-
          liftL (lift (setprop transactionData "source" (VStr "ocr"))) ;;
        transactionData <-
          liftL (lift (setprop transactionData "rawText"
                         (VStr extractedText))) ;;
        today <- liftL now ;;
        validatedData <-
          liftL (lift (validateTransaction today transactionData)) ;;
        duplicates <- liftL (checkForDuplicates validUserId validatedData) ;;
        match duplicates with
        | first :: _ =>
            liftL (cleanupImageFile imagePath) ;;
            set_cleanedUp true ;;
            retL {| transaction := None;
                    message := "‚ö†Ô∏è Potential duplicate transaction detected from receipt. Similar transaction found: "
                               ++ similar first;
                    isDuplicate := true;
                    duplicateTransaction := Some first |}
        | [] =>
            createdTransaction <-
              liftL (createTransaction validUserId validatedData) ;;
            liftL (cleanupImageFile imagePath) ;;
            set_cleanedUp true ;;
            confirmationMessage <-
              liftL (lift (generateConfirmationMessage
                             createdTransaction true)) ;;
            retL {| transaction := Some createdTransaction;
                    message := confirmationMessage;
                    isDuplicate := false;
                    duplicateTransaction := None |}
        end)%L
       (fun error =>
          (cleanedUp <- get_cleanedUp ;;
           (if negb cleanedUp
            then liftL (cleanupImageFile imagePath)
            else retL tt) ;;
           liftL (throw error))%L)).

Definition processTransactionFromBuffer (userId : value)
  (imageBuffer : option buffer) : M outcome :=
  try_catch
    (validUserId <- lift (validateUserId userId) ;;
     extractedText <- extractTextFromBuffer imageBuffer ;;
     transactionData <- extractTransactionFromText (VStr extractedText) ;;
     transactionData <- lift (setprop transactionData "source" (VStr "ocr")) ;;
     transactionData <-
       lift (setprop transactionData "rawText" (VStr extractedText)) ;;
     today <- now ;;
     validatedData <- lift (validateTransaction today transactionData) ;;
     duplicates <- checkForDuplicates validUserId validatedData ;;
     match duplicates with
     | first :: _ =>
         ret {| transaction := None;
                message := "‚ö†Ô∏è Potential duplicate transaction detected from receipt. Similar transaction found: "
                           ++ similar first;
                isDuplicate := true;
                duplicateTransaction := Some first |}
     | [] =>
         createdTransaction <- createTransaction validUserId validatedData ;;
         confirmationMessage <-
           lift (generateConfirmationMessage createdTransaction true) ;;
         ret {| transaction := Some createdTransaction;
                message := confirmationMessage;
                isDuplicate := false;
                duplicateTransaction := None |}
     end)
    (fun error => throw error).

Definition getUserTransactionHistory (userId : value) (limit : option Z)
  : M (list Item.t) :=
  try_catch
    (validUserId <- lift (validateUserId userId) ;;
     getUserTransactions validUserId limit)
    (fun error => throw error).

(* ------------------------------------------------------------------ *)
(** ** The stages of a pipeline *)

(** The three entry points, as one. *)
Inductive request : Type :=
| FromText (userId text : value)
| FromImage (userId imagePath : value)
| FromBuffer (userId : value) (imageBuffer : option buffer).

Definition process (r : request) : M outcome :=
  match r with
  | FromText userId text => processTransactionFromText userId text
  | FromImage userId imagePath => processTransactionFromImage userId imagePath
  | FromBuffer userId imageBuffer =>
      processTransactionFromBuffer userId imageBuffer
  end.

(** The text a request is about: the message, or what the recognizer
    reads. *)
Definition text_of (r : request) : M value :=
  match r with
  | FromText _ text => ret text
  | FromImage _ imagePath =>
      t <- extractTextFromImage imagePath ;; ret (VStr t)
  | FromBuffer _ imageBuffer =>
      t <- extractTextFromBuffer imageBuffer ;; ret (VStr t)
  end.

Definition userId_of (r : request) : value :=
  match r with
  | FromText u _ | FromImage u _ | FromBuffer u _ => u
  end.

Definition source_of (r : request) : string :=
  match r with
  | FromText _ _ => "manual"
  | _ => "ocr"
  end.

(** The stages before the duplicate check: the user, the candidate the
    extractor gives, tagged, and its validation. *)
Definition candidate (r : request) : M (string * value) :=
  validUserId <- lift (validateUserId (userId_of r)) ;;
  text <- text_of r ;;
  transactionData <- extractTransactionFromText text ;;
  transactionData <-
    lift (setprop transactionData "source" (VStr (source_of r))) ;;
  transactionData <- lift (setprop transactionData "rawText" text) ;;
  ret (validUserId, transactionData).

Definition validated (r : request) : M (string * Validated.t) :=
  c <- candidate r ;;
  today <- now ;;
  validatedData <- lift (validateTransaction today (snd c)) ;;
  ret (fst c, validatedData).

(** The cleanup a request owes: the image path has its file removed. *)
Definition cleanup (r : request) : M unit :=
  match r with
  | FromImage _ imagePath => cleanupImageFile imagePath
  | _ => ret tt
  end.

Definition duplicate_outcome (r : request) (first : Item.t) : outcome :=
  {| transaction := None;
     message :=
       match r with
       | FromText _ _ =>
           "‚ö†Ô∏è Potential duplicate transaction detected. Similar transaction found: "
       | _ =>
           "‚ö†Ô∏è Potential duplicate transaction detected from receipt. Similar transaction found: "
       end ++ similar first;
     isDuplicate := true;
     duplicateTransaction := Some first |}.

Definition created_outcome (r : request) (created : Item.t) : result outcome :=
  rbind (generateConfirmationMessage created
           match r with FromText _ _ => false | _ => true end)
        (fun confirmationMessage =>
           Ok {| transaction := Some created;
                 message := confirmationMessage;
                 isDuplicate := false;
                 duplicateTransaction := None |}).

(** The part of a pipeline that can fail before the cleanup: validate,
    look for duplicates and, when there is none, create.  It gives the
    duplicate found or the item created. *)
Definition attempt (r : request) : M (Item.t + Item.t) :=
  v <- validated r ;;
  duplicates <- checkForDuplicates (fst v) (snd v) ;;
  match duplicates with
  | first :: _ => ret (inl first)
  | [] =>
      created <- createTransaction (fst v) (snd v) ;;
      ret (inr created)
  end.

(** A pipeline in stages: the attempt; then the cleanup, whether the
    attempt failed or not; then the answer. *)
Definition staged (r : request) : M outcome :=
  found <- try_catch (attempt r) (fun error => cleanup r ;; throw error) ;;
  cleanup r ;;
  match found with
  | inl first => ret (duplicate_outcome r first)
  | inr created => lift (created_outcome r created)
  end.

End Services.

(* ------------------------------------------------------------------ *)
(** ** A reference host *)

(** The text of a number, as Number::toString prescribes it: the fewest
    significant digits that read back as the same number, the closest
    such digits, positional for exponents from -6 to 21 and scientific
    beyond. *)
Module NumberText.

Fixpoint zeros (n : nat) : string :=
  match n with
  | O => EmptyString
  | S k => String "0"%char (zeros k)
  end.

Fixpoint take (n : nat) (s : string) : string :=
  match n, s with
  | S k, String c r => String c (take k r)
  | _, _ => EmptyString
  end.

(** [x < 10^n] for the positive rational [num/den]. *)
Definition below_pow10 (num den n : Z) : bool :=
  if 0 <=? n then num <? den * 10 ^ n else num * 10 ^ (- n) <? den.

(** The [n] with [10^(n-1) <= num/den < 10^n]. *)
Definition magnitude (num den : Z) : Z :=
  let est := (Z.log2 num - Z.log2 den) * 30103 / 100000 in
  if below_pow10 num den est then est
  else if below_pow10 num den (est + 1) then est + 1
  else est + 2.

(** The digits [s] (with [k] of them) and exponent [n] for [x], trying
    [k] and then more digits. *)
Fixpoint shortest (fuel : nat) (k : Z) (x : Num.number) (num den n : Z)
  : Z * Z * Z :=
  let p := k - n in
  let a := if 0 <=? p then num * 10 ^ p else num in
  let b := if 0 <=? p then den else den * 10 ^ (- p) in
  let lo := a / b in
  let r := a mod b in
  let hi := lo + 1 in
  let ok_lo := SFeqb (Num.of_decimal false (Z.to_N lo) (n - k)) x in
  let ok_hi := SFeqb (Num.of_decimal false (Z.to_N hi) (n - k)) x in
  let up := if hi =? 10 ^ k then (10 ^ (k - 1), k, n + 1) else (hi, k, n) in
  let down := (lo, k, n) in
  match fuel with
  | O => down
  | S f =>
      if ok_lo && ok_hi then
        if 2 * r <? b then down
        else if b <? 2 * r then up
        else if Z.even lo then down else up
      else if ok_lo then down
      else if ok_hi then up
      else shortest f (k + 1) x num den n
  end.

Definition layout (s k n : Z) : string :=
  let ds := Time.pad (Z.to_nat k) s in
  if (k <=? n) && (n <=? 21) then ds ++ zeros (Z.to_nat (n - k))
  else if (0 <? n) && (n <=? 21) then
    take (Z.to_nat n) ds ++ "." ++ Str.drop (Z.to_nat n) ds
  else if (-6 <? n) && (n <=? 0) then "0." ++ zeros (Z.to_nat (- n)) ++ ds
  else
    let e := n - 1 in
    let es := (if e <? 0 then "-" else "+") ++ Fixed.dec (Z.abs e) in
    if k =? 1 then ds ++ "e" ++ es
    else take 1 ds ++ "." ++ Str.drop 1 ds ++ "e" ++ es.

Definition toString (x : Num.number) : string :=
  match x with
  | S754_nan => "NaN"
  | S754_zero _ => "0"
  | S754_infinity s => if s then "-Infinity" else "Infinity"
  | S754_finite sg m e =>
      let num := if 0 <=? e then Zpos m * 2 ^ e else Zpos m in
      let den := if 0 <=? e then 1 else 2 ^ (- e) in
      let n := magnitude num den in
      let '(s, k, n') := shortest 17 1 (S754_finite false m e) num den n in
      (if sg then "-" else EmptyString) ++ layout s k n'
  end.

End NumberText.

(** Dates in the ISO form [YYYY-MM-DD], read as UTC midnight. *)
Module IsoDate.

Fixpoint read_digits (n : nat) (acc : Z) (s : string) : option (Z * string) :=
  match n with
  | O => Some (acc, s)
  | S k =>
      match s with
      | String c r =>
          if Str.is_digit c
          then read_digits k (acc * 10 + Z.of_nat (Str.code c - 48)) r
          else None
      | EmptyString => None
      end
  end.

Definition DaysInMonth (y m : Z) : Z :=
  if m =? 11 then 31
  else Time.monthStart (Time.isLeap y) (m + 1) -
       Time.monthStart (Time.isLeap y) m.

Definition parse (s : string) : option Z :=
  match read_digits 4 0 s with
  | Some (y, String "-"%char r1) =>
      match read_digits 2 0 r1 with
      | Some (m, String "-"%char r2) =>
          match read_digits 2 0 r2 with
          | Some (d, EmptyString) =>
              if (1 <=? m) && (m <=? 12) && (1 <=? d)
                 && (d <=? DaysInMonth y (m - 1))
              then Some (Time.MakeDate (Time.MakeDay y (m - 1) d) 0)
              else None
          | _ => None
          end
      | _ => None
      end
  | _ => None
  end.

End IsoDate.

(** A host in the UTC zone whose date parser reads ISO dates only. *)
Definition isoHost : Host :=
  {| Number_toString := NumberText.toString;
     Date_parse := IsoDate.parse;
     LocalTZA := fun _ _ => 0;
     SyntaxError_message := fun _ => "Unexpected token in JSON" |}.

(** The same host in a zone five hours behind UTC that puts its clocks
    an hour forward on 12 March 2023 at two in the morning, local time
    (seven, UTC), as New York does. *)
Definition dstHost : Host :=
  {| Number_toString := NumberText.toString;
     Date_parse := IsoDate.parse;
     LocalTZA :=
       fun t isUTC =>
         if (if isUTC then 1678604400000 else 1678586400000) <=? t
         then -4 * 3600000 else -5 * 3600000;
     SyntaxError_message := fun _ => "Unexpected token in JSON" |}.

(* ------------------------------------------------------------------ *)
(** ** Vocabulary of the statements *)

(** The environment with another answer of the file system to a
    deletion. *)
Definition with_unlink_fault (E : env) (f : string -> option error) : env :=
  {| OPENAI_API_KEY := OPENAI_API_KEY E;
     completion := completion E;
     detectDocumentText := detectDocumentText E;
     readFile_fault := readFile_fault E;
     unlink_fault := f;
     db_fault := db_fault E;
     uuidv4 := uuidv4 E;
     page_items := page_items E;
     index_rank := index_rank E |}.

(** Kinds of events. *)
Definition is_create (e : event) : bool :=
  match e with Call_createTransaction _ _ => true | _ => false end.
Definition is_put (e : event) : bool :=
  match e with Ext_put _ => true | _ => false end.
Definition is_write (e : event) : bool := is_create e || is_put e.
Definition is_cleanup (e : event) : bool :=
  match e with Call_cleanupImageFile _ => true | _ => false end.
Definition is_recognition (e : event) : bool :=
  match e with Ext_detectDocumentText _ => true | _ => false end.

Definition is_completion (e : event) : bool :=
  match e with Ext_completion _ => true | _ => false end.

Definition count (p : event -> bool) (evs : list event) : nat :=
  List.length (filter p evs).

(** [m] adds events to the trace, none of the kind [p]. *)
Definition silent (p : event -> bool) {A} (m : M A) : Prop :=
  forall w, exists evs,
    trace (snd (m w)) = (trace w ++ evs)%list /\
    forallb (fun e => negb (p e)) evs = true.

(** [m] leaves the table and the clock as they are. *)
Definition keeps_table {A} (m : M A) : Prop :=
  forall w, table (snd (m w)) = table w /\ clock (snd (m w)) = clock w.

(** The item [createTransaction] builds from the user and the validated
    data, whatever identifier and instant it gets. *)
Definition created_from (item : Item.t) (u : string) (d : Validated.t)
  : Prop :=
  Item.userId item = u /\
  Item.amount item = Validated.amount d /\
  Item.currency item =
    (if String.eqb (Validated.currency d) EmptyString then "USD"
     else Validated.currency d) /\
  Item.date item = Validated.date d /\
  Item.merchant item = Validated.merchant d /\
  Item.category item = Validated.category d /\
  Item.type item = Validated.type d /\
  Item.description item = Validated.description d /\
  Item.source item = or_else (Validated.source d) (VStr "manual") /\
  Item.rawText item = or_else (Validated.rawText d) (VStr EmptyString) /\
  Item.status item = "confirmed".

(** The item holds the validated fields, as they are. *)
Definition persists (item : Item.t) (u : string) (d : Validated.t) : Prop :=
  Item.userId item = u /\
  Item.amount item = Validated.amount d /\
  Item.currency item = Validated.currency d /\
  Item.date item = Validated.date d /\
  Item.merchant item = Validated.merchant d /\
  Item.category item = Validated.category d /\
  Item.type item = Validated.type d /\
  Item.description item = Validated.description d /\
  Item.source item = Validated.source d /\
  Item.rawText item = Validated.rawText d.

(** The validated data [d] is what the field checks make of the
    candidate [c]: the amount the amount check returns, the ISO date of
    the parsed date, the lower-case type, the trimmed merchant and
    category, the upper-case currency code or the default, a description
    within bounds, the source and the raw text or their defaults. *)
Definition checked {H : Host} (today : Z) (c : value) (d : Validated.t)
  : Prop :=
  exists props,
    c = VObj props /\
    validateAmount (lookup props "amount") = Ok (Validated.amount d) /\
    (exists t, Date_new (lookup props "date") = Some t /\
               date_gt t (oneYearFromNow today) = false /\
               Validated.date d = Time.isoDate t) /\
    (exists s, lookup props "type" = VStr s /\
               Validated.type d = Str.toLowerCase s /\
               str_in (Validated.type d) validTypes = true) /\
    (exists s, lookup props "merchant" = VStr s /\
               Validated.merchant d = Str.trim s /\
               0 < Str.len (Validated.merchant d) <= 200) /\
    (exists s, lookup props "category" = VStr s /\
               Validated.category d = Str.trim s /\
               0 < Str.len (Validated.category d) <= 100) /\
    (Validated.currency d = "USD" \/
     exists s, lookup props "currency" = VStr s /\
               Validated.currency d = Str.trim (Str.toUpperCase s)) /\
    three_capitals (Validated.currency d) = true /\
    Str.len (Validated.description d) <= 500 /\
    Validated.source d = or_else (lookup props "source") (VStr "manual") /\
    Validated.rawText d
    = or_else (lookup props "rawText") (VStr EmptyString).

(** The value of a key in a parsed response: a response that is not an
    object has none of the keys. *)
Definition field (data : value) (k : string) : value :=
  match data with
  | VObj props => lookup props k
  | _ => VUndefined
  end.

(** The required keys a parsed response lacks, in their order. *)
Definition missing_of (data : value) : list string :=
  filter (fun k => is_nullish (field data k)) requiredFields.

(** The records the duplicate resolver is after: of the user, with the
    merchant and the date of the data, and an amount within the
    tolerance. *)
Definition is_duplicate_of (u : string) (d : Validated.t) (it : Item.t)
  : bool :=
  String.eqb (Item.userId it) u &&
  String.eqb (Item.merchant it) (Validated.merchant d) &&
  String.eqb (Item.date it) (Validated.date d) &&
  within_tolerance (Item.amount it) (Validated.amount d).

(** The error of the store sends the resolver to its fallback. *)
Definition index_missing (e : error) : bool :=
  String.eqb (error_code e) "ResourceNotFoundException"
  || match message_includes e "index" with
     | Ok found => found
     | Throw _ => false
     end.

(** The [message] of the error of the store is [null] or [undefined]
    and its [code] is not that of the missing resource: the resolver's
    handler fails on it. *)
Definition unreadable (e : error) : bool :=
  negb (String.eqb (error_code e) "ResourceNotFoundException")
  && negb (has_message e).

(** The items an operation reads are all on its one page. *)
Definition one_page (E : env) (op : db_op) (l : list Item.t) : Prop :=
  (List.length l <= page_items E op l)%nat.

(** The items of the table under the keys of the index. *)
Definition index_matches (merchant date : string) (tbl : list Item.t)
  : list Item.t :=
  filter (fun it => String.eqb (Item.merchant it) merchant &&
                    String.eqb (Item.date it) date) tbl.

(** Sample texts are written with [']  where the text has a double
    quote. *)
Definition dq (s : string) : string :=
  Str.map (fun c => if Ascii.eqb c "'"%char then Str.quote else c) s.

(** The number an amount is read as: [parseFloat] of a string, the
    number itself otherwise. *)
Definition coerced (a : value) : Num.number :=
  match a with
  | VStr s => Num.parseFloat s
  | _ => ToNumber a
  end.

Definition amount_input (a : value) : Prop :=
  (exists n, a = VNum n) \/ (exists s, a = VStr s).

(** The values whose conversion to a string or to a number goes through
    the inherited methods: no object in them has an own property
    [toString].  (Such a property of a parsed object is not a function,
    and the conversion of the object fails on it.) *)
Fixpoint convertible (v : value) : bool :=
  match v with
  | VArr l =>
      (fix elements (l : list value) : bool :=
         match l with
         | [] => true
         | x :: r => convertible x && elements r
         end) l
  | VObj props =>
      negb (existsb (fun p => String.eqb (fst p) "toString") props)
  | _ => true
  end.

(** The amount of the data and the amounts of the items convert. *)
Definition amounts_convert (d : Validated.t) (tbl : list Item.t) : Prop :=
  convertible (Validated.amount d) = true /\
  forall it, In it tbl -> convertible (Item.amount it) = true.


(* ------------------------------------------------------------------ *)
(** ** A sample world *)

Module Sample.

(** What the completion service answers in the samples. *)
Definition answer : string :=
  dq "{'amount': 12.5, 'date': '2024-01-15', 'merchant': 'Starbucks', 'category': 'Food', 'type': 'expense', 'currency': 'USD', 'description': 'Coffee'}".

Definition receipt : buffer := {| length := 2048; byteAt := fun _ => 0%N |}.

Definition large : buffer :=
  {| length := 10 * 1024 * 1024 + 1; byteAt := fun _ => 0%N |}.

(** Collaborators that answer; every item an operation reads is on its
    one page, and the index keeps the order of the table. *)
Definition E : env :=
  {| OPENAI_API_KEY := Some "sk-test";
     completion := fun _ => Ok (Some answer);
     detectDocumentText :=
       fun _ => Ok (Some [{| BlockType := "LINE";
                             Text := Some "Starbucks 12.50" |}]);
     readFile_fault := fun _ => None;
     unlink_fault := fun _ => None;
     db_fault := fun _ => None;
     uuidv4 := fun n => "00000000-0000-4000-8000-00000000000"
                        ++ Fixed.dec (Z.of_nat n);
     page_items := fun _ l => List.length l;
     index_rank := fun _ => 0%N |}.

(** The same with another answer of the completion service. *)
Definition answering (content : string) : env :=
  {| OPENAI_API_KEY := OPENAI_API_KEY E;
     completion := fun _ => Ok (Some content);
     detectDocumentText := detectDocumentText E;
     readFile_fault := readFile_fault E;
     unlink_fault := unlink_fault E;
     db_fault := db_fault E;
     uuidv4 := uuidv4 E;
     page_items := page_items E;
     index_rank := index_rank E |}.

(** An answer without merchant and type. *)
Definition incomplete : string :=
  dq "{'amount': 5, 'date': '2024-01-15', 'category': 'Food'}".

(** The answer in a fence with a language tag, and in a bare fence. *)
Definition fenced_json : string :=
  Fence.fence ++ "json" ++ String Str.LF answer
  ++ String Str.LF Fence.fence.

Definition fenced_bare : string :=
  Fence.fence ++ String Str.LF answer ++ String Str.LF Fence.fence.

(** The same with a file system that refuses to delete. *)
Definition E_unlink_fails : env :=
  {| OPENAI_API_KEY := OPENAI_API_KEY E;
     completion := completion E;
     detectDocumentText := detectDocumentText E;
     readFile_fault := readFile_fault E;
     unlink_fault :=
       fun _ => Some (ServiceError "EPERM" "EPERM: operation not permitted"
                                   None None);
     db_fault := db_fault E;
     uuidv4 := uuidv4 E;
     page_items := page_items E;
     index_rank := index_rank E |}.

(** The same with a table that has no index. *)
Definition E_no_index : env :=
  {| OPENAI_API_KEY := OPENAI_API_KEY E;
     completion := completion E;
     detectDocumentText := detectDocumentText E;
     readFile_fault := readFile_fault E;
     unlink_fault := unlink_fault E;
     db_fault :=
       fun op =>
         match op with
         | OpQuery (Some _) =>
             Some (ServiceError "ValidationException"
                     "The table does not have the specified index: merchant-date-index"
                     None None)
         | _ => None
         end;
     uuidv4 := uuidv4 E;
     page_items := page_items E;
     index_rank := index_rank E |}.

Definition item (user id : string) (ts : Z) (amount : string) : Item.t :=
  {| Item.userId := user;
     Item.transactionId := id;
     Item.timestamp := ts;
     Item.amount := VNum (Num.parseFloat amount);
     Item.currency := "USD";
     Item.date := "2024-01-15";
     Item.merchant := "Starbucks";
     Item.category := "Food";
     Item.type := "expense";
     Item.description := "Coffee";
     Item.source := VStr "manual";
     Item.rawText := VStr "coffee";
     Item.status := "confirmed";
     Item.createdAt := Time.toISOString ts;
     Item.updatedAt := Time.toISOString ts |}.

(** 15 January 2024, ten in the morning (UTC). *)
Definition morning : Z := 1705312800000.

Definition world_with (tbl : list Item.t) : world :=
  {| table := tbl;
     files := [("uploads/receipt.png", receipt); ("uploads/large.png", large)];
     clock := morning;
     issued := 0;
     trace := [] |}.

Definition empty : world := world_with [].

(** One earlier purchase of the same user. *)
Definition seen : world :=
  world_with [item "alice" "tx-1" (morning - 1000) "12.40"].

(** The purchase of the samples, validated. *)
Definition purchase : Validated.t :=
  {| Validated.amount := VNum (Num.parseFloat "12.5");
     Validated.date := "2024-01-15";
     Validated.type := "expense";
     Validated.merchant := "Starbucks";
     Validated.category := "Food";
     Validated.currency := "USD";
     Validated.description := "Coffee";
     Validated.source := VStr "manual";
     Validated.rawText := VStr "Spent $12.50 at Starbucks" |}.

(** A table of a hundred purchases of another user, and after them an
    earlier purchase of this one. *)
Definition crowded : world :=
  world_with (repeat (item "bob" "tx-0" (morning - 5000) "80") 100
              ++ [item "alice" "tx-1" (morning - 1000) "12.40"]).

(** Two purchases of one user; the one made later has the smaller
    identifier. *)
Definition two : world :=
  world_with [item "alice" "tx-0a1b" (morning - 1000) "7";
              item "alice" "tx-ff00" (morning - 9000) "9"].

(** Two earlier purchases of the user that are both close to the
    purchase of the samples; the second was made first. *)
Definition twice : world :=
  world_with [item "alice" "tx-a" (morning - 1000) "12.40";
              item "alice" "tx-b" (morning - 9000) "12.60"].

(** The same with an index that holds the items of the same keys by
    their time of creation. *)
Definition E_index_by_time : env :=
  {| OPENAI_API_KEY := OPENAI_API_KEY E;
     completion := completion E;
     detectDocumentText := detectDocumentText E;
     readFile_fault := readFile_fault E;
     unlink_fault := unlink_fault E;
     db_fault := db_fault E;
     uuidv4 := uuidv4 E;
     page_items := page_items E;
     index_rank := fun it => Z.to_N (Item.timestamp it) |}.

(** The same with pages of [n] items. *)
Definition E_paged (n : nat) : env :=
  {| OPENAI_API_KEY := OPENAI_API_KEY E;
     completion := completion E;
     detectDocumentText := detectDocumentText E;
     readFile_fault := readFile_fault E;
     unlink_fault := unlink_fault E;
     db_fault := db_fault E;
     uuidv4 := uuidv4 E;
     page_items := fun _ _ => n;
     index_rank := index_rank E |}.

(** The same with a query of the index that fails with an error object
    whose message is [null]. *)
Definition E_index_unreadable : env :=
  {| OPENAI_API_KEY := OPENAI_API_KEY E;
     completion := completion E;
     detectDocumentText := detectDocumentText E;
     readFile_fault := readFile_fault E;
     unlink_fault := unlink_fault E;
     db_fault :=
       fun op =>
         match op with
         | OpQuery (Some _) =>
             Some (MessagelessError "InternalServerError" true None None)
         | _ => None
         end;
     uuidv4 := uuidv4 E;
     page_items := page_items E;
     index_rank := index_rank E |}.

Definition text : request :=
  FromText (VStr "alice") (VStr "Spent $12.50 at Starbucks").

Definition image : request :=
  FromImage (VStr "alice") (VStr "uploads/receipt.png").

Definition too_large : request :=
  FromImage (VStr "alice") (VStr "uploads/large.png").

End Sample.

(* ------------------------------------------------------------------ *)
(** ** src/services/dynamodbService.js: a record by its key *)

(** The keys are strings, as in the schema of the table.  [get_fault]
    and [delete_fault] are the faults of the [get] and [delete] calls of
    the document client. *)
Section Records.
Context (get_fault delete_fault : string -> string -> option error).
Local Open Scope M_scope.

Definition has_key (userId transactionId : string) (it : Item.t) : bool :=
  String.eqb (Item.userId it) userId &&
  String.eqb (Item.transactionId it) transactionId.

(** [get]: the item of the key, when the table has one. *)
Definition dynamoDB_get (userId transactionId : string)
  : M (option Item.t) :=
  match get_fault userId transactionId with
  | Some e => throw e
  | None =>
      tbl <- get_table ;;
      ret (find (has_key userId transactionId) tbl)
  end.

(** [delete]: the item of the key goes; there is no condition, so a key
    the table does not have is no error. *)
Definition dynamoDB_delete (userId transactionId : string) : M unit :=
  match delete_fault userId transactionId with
  | Some e => throw e
  | None =>
      tbl <- get_table ;;
      set_table (filter (fun it => negb (has_key userId transactionId it))
                        tbl)
  end.

(** [result.Item || null]; [None] is [null]. *)
Definition getTransaction (userId transactionId : string)
  : M (option Item.t) :=
  try_catch
    (dynamoDB_get userId transactionId)
    (fun error =>
       throw (DatabaseError ("Failed to get transaction: "
                             ++ error_message error) (Some error))).

Definition deleteTransaction (userId transactionId : string) : M unit :=
  try_catch
    (dynamoDB_delete userId transactionId)
    (fun error =>
       throw (DatabaseError ("Failed to delete transaction: "
                             ++ error_message error) (Some error))).

End Records.

(** A listing by descending sort key. *)
Fixpoint descending (l : list Item.t) : bool :=
  match l with
  | a :: r =>
      match r with
      | b :: _ =>
          String.leb (Item.transactionId b) (Item.transactionId a)
      | [] => true
      end && descending r
  | [] => true
  end.

(** The items of a user in a table. *)
Definition of_user (u : string) (tbl : list Item.t) : list Item.t :=
  filter (fun it => String.eqb (Item.userId it) u) tbl.

(* ------------------------------------------------------------------ *)
(** ** src/services/ocrService.js: the extension of a file name *)

(** [s.endsWith(suffix)] *)
Definition endsWith (s suffix : string) : bool :=
  (String.length suffix <=? String.length s)%nat &&
  String.eqb (Str.drop (String.length s - String.length suffix) s) suffix.

Definition supportedFormats : list string :=
  [".jpg"; ".jpeg"; ".png"; ".pdf"].

Definition isValidImageFormat (filename : value) : bool :=
  match filename with
  | VStr name =>
      if negb (truthy filename) then false
      else
        let lowerFilename := Str.toLowerCase name in
        existsb (fun format => endsWith lowerFilename format)
                supportedFormats
  | _ => false
  end.

(** The world with more events in its trace, and nothing else changed. *)
Definition add_events (w : world) (evs : list event) : world :=
  {| table := table w; files := files w; clock := clock w;
     issued := issued w; trace := (trace w ++ evs)%list |}.

(** The four error classes of src/utils/errors.js. *)
Definition is_DatabaseError (e : error) : bool :=
  match e with DatabaseError _ _ => true | _ => false end.

Definition is_declared_error (e : error) : bool :=
  is_ValidationError e || is_DatabaseError e || is_LLMError e
  || is_OCRError e.

Definition is_number (v : value) : bool :=
  match v with VNum _ => true | _ => false end.

(** A completion service whose answer has a boolean as amount. *)
Definition E_amount_true : env :=
  Sample.answering
    (dq "{'amount': true, 'date': '2024-01-15', 'merchant': 'Kiosk', 'category': 'Food', 'type': 'expense'}").

(* ------------------------------------------------------------------ *)
(** ** src/routes/chat.js: POST /chat, and the error handler of
       src/utils/errors.js *)

(** [s.replace(/\s+/g, ' ')]: each run of white space becomes one
    space. *)
Fixpoint collapse (s : string) : string :=
  match s with
  | EmptyString => EmptyString
  | String c r =>
      if Str.is_ws c then
        match r with
        | String d _ =>
            if Str.is_ws d then collapse r else String " " (collapse r)
        | EmptyString => String " " EmptyString
        end
      else String c (collapse r)
  end.

(** [normalizedMessage], from a message that is a string. *)
Definition normalizedMessage (message : string) : string :=
  Str.trim (collapse (Str.trim message)).

(** Only white space. *)
Definition blank (s : string) : bool := Str.forallb Str.is_ws s.

(** The white space of a text is single spaces between other
    characters: none at the start, none at the end, no two in a row. *)
Fixpoint spaced_from (inside : bool) (s : string) : bool :=
  match s with
  | EmptyString => true
  | String c r =>
      if Str.is_ws c then
        inside && Ascii.eqb c " " &&
        match r with
        | String d _ => negb (Str.is_ws d)
        | EmptyString => false
        end && spaced_from true r
      else spaced_from true r
  end.

Definition single_spaced (s : string) : bool := spaced_from false s.

(** What a handler sends: [res.json] of a result, with status 200, or
    the body of the error handler with its status.  [details] is there
    in development mode: the [field] and the message of the
    [originalError], [None] for one that is [null] or not there (the
    stack trace, a text of the runtime, is left out). *)
Inductive response : Type :=
| Sent (transaction : option Item.t) (message : string) (isDuplicate : bool)
| Failed (status : Z) (message type : string)
    (details : option (option string * option string)).

Definition status_of (r : response) : Z :=
  match r with
  | Sent _ _ _ => 200
  | Failed status _ _ _ => status
  end.

Section Routes.
Context {H : Host} (E : env).
(** The [statusCode] and the [name] of an error object of a client
    library, and whether [NODE_ENV] is [development]. *)
Context (service_statusCode : error -> option Z).
Context (service_name : error -> string).
Context (development : bool).
Local Open Scope M_scope.

(** [err.statusCode] *)
Definition error_statusCode (err : error) : option Z :=
  match err with
  | ValidationError _ _ => Some 400
  | DatabaseError _ _ | LLMError _ _ | OCRError _ _ => Some 500
  | TypeError _ | SyntaxError _ => None
  | ServiceError _ _ _ _ | MessagelessError _ _ _ _ => service_statusCode err
  end.

(** [err.name] *)
Definition error_name (err : error) : string :=
  match err with
  | ValidationError _ _ => "ValidationError"
  | DatabaseError _ _ => "DatabaseError"
  | LLMError _ _ => "LLMError"
  | OCRError _ _ => "OCRError"
  | TypeError _ => "TypeError"
  | SyntaxError _ => "SyntaxError"
  | ServiceError _ _ _ _ | MessagelessError _ _ _ _ => service_name err
  end.

(** [err.originalError?.message] *)
Definition originalError_message (err : error) : option string :=
  match err with
  | DatabaseError _ (Some o) | LLMError _ (Some o) | OCRError _ (Some o) =>
      if has_message o then Some (error_message o) else None
  | _ => None
  end.

Definition errorHandler (err : error) : response :=
  let statusCode :=
    match error_statusCode err with
    | Some c => if c =? 0 then 500 else c
    | None => 500
    end in
  let message :=
    if negb (has_message err) || String.eqb (error_message err) EmptyString
    then "Internal server error" else error_message err in
  Failed statusCode message
    (if String.eqb (error_name err) EmptyString then "Error"
     else error_name err)
    (if development
     then Some (error_field err, originalError_message err)
     else None).

(** [const { userId, message } = req.body] reads the two properties;
    there is nothing to read off [undefined] and [null]. *)
Definition destructure (body : value) (k : string) : result value :=
  match body with
  | VObj props => Ok (lookup props k)
  | VUndefined =>
      Throw (TypeError ("Cannot destructure property '" ++ k
                        ++ "' of 'req.body' as it is undefined."))
  | VNull =>
      Throw (TypeError ("Cannot destructure property '" ++ k
                        ++ "' of 'req.body' as it is null."))
  | _ => Ok VUndefined
  end.

(** The handler of POST /chat, up to its answer. *)
Definition chat (body : value) : M outcome :=
  userId <- lift (destructure body "userId") ;;
  message <- lift (destructure body "message") ;;
  match userId with
  | VStr u =>
      if negb (truthy userId) || (Str.len (Str.trim u) =? 0) then
        throw (ValidationError "User ID is required and cannot be empty"
                 (Some "userId"))
      else
        match message with
        | VStr m =>
            if negb (truthy message) then
              throw (ValidationError
                       "Message is required and must be a string"
                       (Some "message"))
            else if Str.len (Str.trim m) =? 0 then
              throw (ValidationError
                       "Message cannot be empty after trimming whitespace"
                       (Some "message"))
            else
              processTransactionFromText E userId
                (VStr (normalizedMessage m))
        | _ =>
            throw (ValidationError
                     "Message is required and must be a string"
                     (Some "message"))
        end
  | _ =>
      throw (ValidationError "User ID is required and cannot be empty"
               (Some "userId"))
  end.

(** The route: [asyncHandler] hands what the handler throws to the
    error handler. *)
Definition post_chat (body : value) : world -> response * world :=
  fun w =>
    match chat body w with
    | (Ok result, w') =>
        (Sent (transaction result) (message result) (isDuplicate result), w')
    | (Throw err, w') => (errorHandler err, w')
    end.

End Routes.

(** The characters of a text that are not white space, in their order. *)
Fixpoint without_ws (s : string) : string :=
  match s with
  | EmptyString => EmptyString
  | String c r => if Str.is_ws c then without_ws r else String c (without_ws r)
  end.

(** No character of the text is [c]. *)
Definition lacks (c : ascii) (s : string) : bool :=
  Str.forallb (fun x => negb (Ascii.eqb x c)) s.

(* ------------------------------------------------------------------ *)
(** ** src/services/dynamodbService.js: the request of an update *)

(** The own keys of an object in the order of [Object.keys]: the array
    indices by value, then the other keys as they were added. *)
Definition ordered_keys (keys : list string) : list string :=
  map snd
    (fold_right insert_index []
       (flat_map (fun k => match array_index k with
                           | Some n => [(n, k)]
                           | None => []
                           end) keys))
  ++ filter (fun k => match array_index k with
                      | Some _ => false
                      | None => true
                      end) keys.

(** [Object.keys(updates)] *)
Definition Object_keys (updates : value) : result (list string) :=
  match updates with
  | VUndefined | VNull =>
      Throw (TypeError "Cannot convert undefined or null to object")
  | VBool _ | VNum _ => Ok []
  | VStr s =>
      Ok (map (fun i => Fixed.dec (Z.of_nat i)) (seq 0 (String.length s)))
  | VArr l =>
      Ok (map (fun i => Fixed.dec (Z.of_nat i)) (seq 0 (List.length l)))
  | VObj props => Ok (ordered_keys (map fst props))
  end.

Definition allowedFields : list string :=
  ["amount"; "date"; "merchant"; "category"; "type"; "description"; "status"].

(** The request [updateTransaction] sends to the store. *)
Record update_params : Type := {
  Key : string * string;
  UpdateExpression : string;
  ExpressionAttributeNames : list (string * value);
  ExpressionAttributeValues : list (string * value);
  ReturnValues : string
}.

(** The three collections the loop fills. *)
Record update_parts : Type := {
  updateExpressions : list string;
  expressionAttributeNames : list (string * value);
  expressionAttributeValues : list (string * value)
}.

(** The body of the [forEach], for the key at [index]. *)
Definition update_step (updates : value) (key : string) (index : nat)
  (parts : update_parts) : update_parts :=
  if str_in key allowedFields then
    {| updateExpressions :=
         updateExpressions parts
         ++ ["#" ++ key ++ " = :val" ++ Fixed.dec (Z.of_nat index)];
       expressionAttributeNames :=
         assign (expressionAttributeNames parts) ("#" ++ key) (VStr key);
       expressionAttributeValues :=
         assign (expressionAttributeValues parts)
           (":val" ++ Fixed.dec (Z.of_nat index)) (field updates key) |}
  else parts.

Fixpoint update_loop (updates : value) (keys : list string) (index : nat)
  (parts : update_parts) : update_parts :=
  match keys with
  | [] => parts
  | key :: r =>
      update_loop updates r (S index) (update_step updates key index parts)
  end.

(** The request of [updateTransaction] at the instant [instant], or what
    the function throws before it sends one. *)
Definition updateTransaction_params (userId transactionId : string)
  (updates : value) (instant : Z) : result update_params :=
  match
    rbind (Object_keys updates) (fun keys =>
      let parts :=
        update_loop updates keys 0
          {| updateExpressions := [];
             expressionAttributeNames := [];
             expressionAttributeValues := [] |} in
      if (List.length (updateExpressions parts) =? 0)%nat then
        Throw (DatabaseError "No valid fields to update" None)
      else
        Ok {| Key := (userId, transactionId);
              UpdateExpression :=
                "SET " ++ Str.join ", "
                            (updateExpressions parts
                             ++ ["#updatedAt = :updatedAt"]);
              ExpressionAttributeNames :=
                assign (expressionAttributeNames parts) "#updatedAt"
                  (VStr "updatedAt");
              ExpressionAttributeValues :=
                assign (expressionAttributeValues parts) ":updatedAt"
                  (VStr (Time.toISOString instant));
              ReturnValues := "ALL_NEW" |})
  with
  | Ok params => Ok params
  | Throw error =>
      Throw (DatabaseError ("Failed to update transaction: "
                            ++ error_message error) (Some error))
  end.

(** A key is named in the parts of a request: its placeholder stands
    for it. *)
Definition named (k : string) (parts : update_parts) : Prop :=
  lookup (expressionAttributeNames parts) ("#" ++ k) = VStr k.

(** The names and the values of the parts come from allowed keys among
    [keys]. *)
Definition sound (updates : value) (keys : list string)
  (parts : update_parts) : Prop :=
  (forall n a, In (n, a) (expressionAttributeNames parts) ->
     exists k, In k keys /\ str_in k allowedFields = true /\
               n = "#" ++ k /\ a = VStr k) /\
  (forall ph v, In (ph, v) (expressionAttributeValues parts) ->
     exists k i, In k keys /\ str_in k allowedFields = true /\
                 ph = ":val" ++ Fixed.dec (Z.of_nat i) /\
                 v = field updates k).

(** [m] leaves the files as they are. *)
Definition keeps_files {A} (m : M A) : Prop :=
  forall w, files (snd (m w)) = files w.

(* ------------------------------------------------------------------ *)
(** ** src/routes/chat.js: POST /chat/upload *)

Section UploadRoute.
Context {H : Host} (E : env).
Context (service_statusCode : error -> option Z).
Context (service_name : error -> string).
Context (development : bool).
Local Open Scope M_scope.

(** The handler, after the upload middleware: [file] is the path of
    [req.file], when the request had a file that was stored. *)
Definition upload (body : value) (file : option string) : M outcome :=
  userId <- lift (destructure body "userId") ;;
  if negb (truthy userId) then
    throw (ValidationError "User ID is required" (Some "userId"))
  else
    match file with
    | None => throw (ValidationError "Image file is required" (Some "file"))
    | Some path => processTransactionFromImage E userId (VStr path)
    end.

Definition post_chat_upload (body : value) (file : option string)
  : world -> response * world :=
  fun w =>
    match upload body file w with
    | (Ok result, w') =>
        (Sent (transaction result) (message result) (isDuplicate result), w')
    | (Throw err, w') =>
        (errorHandler service_statusCode service_name development err, w')
    end.

End UploadRoute.

(* ================================================================== *)
(** * Properties *)

(* ------------------------------------------------------------------ *)
(** ** Numbers *)

Example parseFloat_12_50 :
  Num.parseFloat "12.50" = S754_finite false 7036874417766400 (-49).
Proof. vm_compute. reflexivity. Qed.

Example tolerance_bits :
  Num.tolerance = S754_finite false 7205759403792794 (-57).
Proof. reflexivity. Qed.

Lemma SFcompare_antisym (x y : spec_float) :
  SFcompare y x = option_map CompOpp (SFcompare x y).
Proof.
  destruct x as [sx|sx| |sx mx ex], y as [sy|sy| |sy my ey]; simpl;
    try reflexivity;
    try (destruct sx; reflexivity);
    try (destruct sy; reflexivity);
    try (destruct sx, sy; reflexivity).
  destruct sx, sy; simpl; try reflexivity;
    rewrite (Z.compare_antisym ex ey);
    destruct (ex ?= ey) eqn:E; simpl; try reflexivity;
    pose proof (Pos.compare_cont_antisym mx my Eq) as A; simpl in A;
    change (CompOpp (PosDef.Pos.compare_cont Eq mx my) =
            PosDef.Pos.compare_cont Eq my mx) in A;
    rewrite A; reflexivity.
Qed.

Lemma ltb_antisym_leb (x b : Num.number) :
  Num.is_nan x = false -> Num.is_nan b = false ->
  Num.ltb b x = negb (Num.leb x b).
Proof.
  intros Hx Hb. unfold Num.ltb, Num.leb, SFltb, SFleb.
  rewrite (SFcompare_antisym x b).
  destruct (SFcompare x b) as [[| |]|] eqn:E; simpl; try reflexivity.
  destruct x, b; simpl in *; try discriminate;
    repeat match goal with s : bool |- _ => destruct s end; discriminate.
Qed.

Lemma leb_zero_ltb (x : Num.number) :
  Num.is_nan x = false ->
  Num.ltb Num.zero x = negb (Num.leb x Num.zero).
Proof. intros Hx. apply ltb_antisym_leb; [exact Hx | reflexivity]. Qed.

Lemma leb_not_nan (x b : Num.number) :
  Num.leb x b = true -> Num.is_nan x = false.
Proof. destruct x; simpl; auto. Qed.

Lemma ltb_not_nan_r (b x : Num.number) :
  Num.ltb b x = true -> Num.is_nan x = false.
Proof. destruct x; simpl; auto. destruct b; discriminate. Qed.

(* ------------------------------------------------------------------ *)
(** ** The field validator: amount *)

Lemma validateAmount_cases (a : value) :
  amount_input a ->
  validateAmount a =
    if Num.is_nan (coerced a) then
      invalid "Amount must be a valid number" "amount"
    else if Num.leb (coerced a) Num.zero then
      invalid "Amount must be greater than 0" "amount"
    else if Num.ltb Num.billion (coerced a) then
      invalid "Amount is too large (max: 1,000,000,000)" "amount"
    else Ok (VNum (coerced a)).
Proof.
  intros [[n ->]|[s ->]]; reflexivity.
Qed.

(** C6.  For an amount given as a number or as a string, read as the
    number [x] ([parseFloat] of the string): when [0 < x <= 1e9] the
    amount check returns [x]; it fails exactly when [x] is not a number,
    [x <= 0] or [x > 1e9]; one of the two always happens, and every
    failure is a ValidationError whose field is [amount]. *)
Theorem validateAmount_spec (a : value) (Hin : amount_input a) :
  let x := coerced a in
  (Num.ltb Num.zero x = true /\ Num.leb x Num.billion = true ->
   validateAmount a = Ok (VNum x)) /\
  ((exists e, validateAmount a = Throw e) <->
   (Num.is_nan x = true \/ Num.leb x Num.zero = true \/
    Num.ltb Num.billion x = true)) /\
  (forall e, validateAmount a = Throw e ->
     is_ValidationError e = true /\ error_field e = Some "amount") /\
  ((Num.ltb Num.zero x = true /\ Num.leb x Num.billion = true) \/
   (Num.is_nan x = true \/ Num.leb x Num.zero = true \/
    Num.ltb Num.billion x = true)).
Proof.
  intro x. rewrite (validateAmount_cases Hin). fold x.
  destruct (Num.is_nan x) eqn:Hn.
  { split; [|split; [|split]].
    - intros [Hp _]. apply ltb_not_nan_r in Hp. congruence.
    - split; [auto | intros _; eexists; reflexivity].
    - intros e He. inversion He. split; reflexivity.
    - right; auto. }
  pose proof (leb_zero_ltb x Hn) as Hz.
  pose proof (@ltb_antisym_leb x Num.billion Hn eq_refl) as Hb.
  destruct (Num.leb x Num.zero) eqn:Hle; simpl in Hz.
  { split; [|split; [|split]].
    - intros [Hp _]. congruence.
    - split; [auto | intros _; eexists; reflexivity].
    - intros e He. inversion He. split; reflexivity.
    - right; auto. }
  destruct (Num.ltb Num.billion x) eqn:Hgt; simpl in Hb.
  { split; [|split; [|split]].
    - intros [_ Hp]. rewrite Hp in Hb. discriminate.
    - split; [auto | intros _; eexists; reflexivity].
    - intros e He. inversion He. split; reflexivity.
    - right; auto. }
  split; [|split; [|split]].
  - reflexivity.
  - split; [intros [e He]; discriminate | intros [F|[F|F]]; discriminate].
  - intros e He. discriminate.
  - left. split; [exact Hz|].
    destruct (Num.leb x Num.billion); [reflexivity | discriminate].
Qed.

Lemma validateAmount_spec_witness :
  amount_input (VStr "12.50") /\
  validateAmount (VStr "12.50") = Ok (VNum (coerced (VStr "12.50"))).
Proof.
  assert (Hin : amount_input (VStr "12.50"))
    by (right; exists "12.50"; reflexivity).
  split; [exact Hin|].
  apply (proj1 (validateAmount_spec Hin)).
  split; vm_compute; reflexivity.
Defined.

Example toString_samples :
  map NumberText.toString
      [Num.parseFloat "12.50"; Num.tolerance; Num.billion;
       Num.parseFloat "1e21"; Num.parseFloat "1.5e-7";
       Num.parseFloat "104.99"; Num.parseFloat "0.1";
       Num.parseFloat "123456789012345680000";
       Num.parseFloat "5e-324"; Num.parseFloat "1.7976931348623157e308";
       Num.parseFloat "-0.000001"; Num.parseFloat "9007199254740993"]
  = ["12.5"; "0.05"; "1000000000"; "1e+21"; "1.5e-7"; "104.99"; "0.1";
     "123456789012345680000"; "5e-324"; "1.7976931348623157e+308";
     "-0.000001"; "9007199254740992"].
Proof. vm_compute. reflexivity. Qed.

Example toFixed_samples :
  map (@toFixed isoHost 2)
      [Num.parseFloat "12.5"; Num.parseFloat "0.005"; Num.parseFloat "1.005";
       Num.parseFloat "-0.001"; Num.parseFloat "10.235"; Num.zero;
       Num.div (Num.of_Z 11534336) (Num.of_Z 1048576); Num.parseFloat "1e21"]
  = ["12.50"; "0.01"; "1.00"; "-0.00"; "10.23"; "0.00"; "11.00"; "1e+21"].
Proof. vm_compute. reflexivity. Qed.

(** The members of an object print in the order of its keys, the array
    indices first. *)
Example stringify_key_order :
  @JSON_stringify isoHost
    (VObj [("b", VNum Num.one); ("10", VNull); ("1", VBool true);
           ("a", VUndefined); ("01", VStr "x")])
  = Some (dq "{'1':true,'10':null,'b':1,'01':'x'}").
Proof. vm_compute. reflexivity. Qed.

Example iso_parse_samples :
  map IsoDate.parse ["1970-01-01"; "2024-02-29"; "2023-02-29"; "2024-1-1"]
  = [Some 0; Some 1709164800000; None; None].
Proof. vm_compute. reflexivity. Qed.

Example toISOString_samples :
  map Time.toISOString [0; 1709164800000 + 3723004; -1; -62198755200000]
  = ["1970-01-01T00:00:00.000Z"; "2024-02-29T01:02:03.004Z";
     "1969-12-31T23:59:59.999Z"; "-000001-01-01T00:00:00.000Z"].
Proof. vm_compute. reflexivity. Qed.

(* ------------------------------------------------------------------ *)
(** ** The calendar *)

Lemma isLeap_spec (y : Z) :
  Time.isLeap y = true <->
  y mod 4 = 0 /\ (y mod 100 <> 0 \/ y mod 400 = 0).
Proof.
  unfold Time.isLeap.
  rewrite andb_true_iff, orb_true_iff, negb_true_iff, !Z.eqb_eq, Z.eqb_neq.
  tauto.
Qed.

Lemma DayFromYear_succ (y : Z) :
  Time.DayFromYear (y + 1) = Time.DayFromYear y + Time.DaysInYear y.
Proof.
  unfold Time.DaysInYear. destruct (Time.isLeap y) eqn:E.
  - apply isLeap_spec in E. unfold Time.DayFromYear.
    Z.div_mod_to_equations; lia.
  - assert (~ (y mod 4 = 0 /\ (y mod 100 <> 0 \/ y mod 400 = 0)))
      by (rewrite <- isLeap_spec; congruence).
    unfold Time.DayFromYear. Z.div_mod_to_equations; lia.
Qed.

(** [YearFromDay] is the year the standard defines: the largest one
    that starts on or before the day. *)
Lemma YearFromDay_spec (d : Z) :
  Time.DayFromYear (Time.YearFromDay d) <= d
  < Time.DayFromYear (Time.YearFromDay d + 1).
Proof.
  unfold Time.YearFromDay.
  set (y0 := 1970 + d * 400 / 146097).
  destruct (Time.DayFromYear (y0 + 1) <=? d) eqn:E1;
    [apply Z.leb_le in E1 | apply Z.leb_gt in E1].
  - split; auto. unfold Time.DayFromYear in *. subst y0.
    Z.div_mod_to_equations; lia.
  - destruct (Time.DayFromYear y0 <=? d) eqn:E2;
      [apply Z.leb_le in E2 | apply Z.leb_gt in E2].
    + split; auto.
    + replace (y0 - 1 + 1) with y0 by lia. split; [|lia].
      unfold Time.DayFromYear in *. subst y0.
      Z.div_mod_to_equations; lia.
Qed.

Lemma monthOfDay_range (leap : bool) (d : Z) :
  0 <= Time.monthOfDay leap d <= 11.
Proof.
  unfold Time.monthOfDay.
  repeat match goal with
         | |- context [if ?c then _ else _] => destruct c
         end; lia.
Qed.

Lemma leap_not_twice (y : Z) :
  Time.isLeap y = true -> Time.isLeap (y + 1) = false.
Proof.
  intros E. destruct (Time.isLeap (y + 1)) eqn:E'; [|reflexivity].
  apply isLeap_spec in E. apply isLeap_spec in E'.
  exfalso. Z.div_mod_to_equations; lia.
Qed.

(** Moving a day of the year to the same month and day of the following
    year moves it by 365 or 366 days. *)
Lemma next_year_days (y m : Z) :
  0 <= m <= 11 ->
  let days := Time.DaysInYear y + Time.monthStart (Time.isLeap (y + 1)) m
              - Time.monthStart (Time.isLeap y) m in
  days = 365 \/ days = 366.
Proof.
  intros Hm. unfold Time.DaysInYear.
  pose proof (leap_not_twice y) as L.
  destruct (Time.isLeap y) eqn:E.
  - rewrite (L eq_refl). unfold Time.monthStart.
    repeat match goal with
           | |- context [if ?c then _ else _] => destruct c
           end; cbv zeta; lia.
  - unfold Time.monthStart.
    destruct (Time.isLeap (y + 1));
    repeat match goal with
           | |- context [if ?c then _ else _] => destruct c
           end; cbv zeta; lia.
Qed.

Section DateProperties.
Context {H : Host}.

(** One year from now, as [setFullYear] computes it: the local time
    365 or 366 days after the local time of now, read back as an instant
    with the offset the zone has at that local time. *)
Lemma oneYearFromNow_days (now : Z) :
  exists days, (days = 365 \/ days = 366) /\
    oneYearFromNow now
    = Time.TimeClip (UTC (LocalTime now + days * Time.msPerDay)).
Proof.
  unfold oneYearFromNow, setFullYear, getFullYear.
  set (l := LocalTime now).
  set (y := Time.YearFromTime l).
  set (m := Time.MonthFromTime l).
  assert (Hm : 0 <= m <= 11) by apply monthOfDay_range.
  exists (Time.DaysInYear y + Time.monthStart (Time.isLeap (y + 1)) m
          - Time.monthStart (Time.isLeap y) m).
  split; [apply next_year_days; exact Hm|].
  f_equal. f_equal.
  unfold Time.MakeDate, Time.MakeDay.
  replace (m / 12) with 0 by (symmetry; apply Z.div_small; lia).
  replace (m mod 12) with m by (symmetry; apply Z.mod_small; lia).
  rewrite Z.add_0_r, DayFromYear_succ.
  unfold Time.DateFromTime, Time.DayWithinYear, Time.InLeapYear.
  fold y. fold m. unfold Time.Day, Time.TimeWithinDay.
  pose proof (Z.div_mod l Time.msPerDay) as D.
  unfold Time.msPerDay in *. lia.
Qed.

End DateProperties.

(** Nothing [pad] writes is the letter T. *)
Lemma pad_no_T (w : nat) (n : Z) :
  Str.forallb (fun c => negb (Ascii.eqb c "T")) (Time.pad w n) = true.
Proof.
  revert n. induction w as [|w IH]; intros n; simpl; [reflexivity|].
  assert (A : forall a b, Str.forallb (fun c => negb (Ascii.eqb c "T")) a = true ->
              Str.forallb (fun c => negb (Ascii.eqb c "T")) b = true ->
              Str.forallb (fun c => negb (Ascii.eqb c "T")) (a ++ b) = true).
  { induction a as [|c a IHa]; simpl; intros b Ha Hb; [exact Hb|].
    apply andb_true_iff in Ha. destruct Ha as [Hc Ha].
    rewrite Hc. simpl. apply IHa; assumption. }
  apply A; [apply IH|].
  assert (R : (Z.to_nat (n mod 10) < 10)%nat).
  { pose proof (Z.mod_pos_bound n 10). lia. }
  destruct (Z.to_nat (n mod 10)) as [|[|[|[|[|[|[|[|[|[|k]]]]]]]]]];
    try reflexivity. lia.
Qed.

Lemma split_aux_first (sep : ascii) (a cur rest : string) :
  Str.forallb (fun c => negb (Ascii.eqb c sep)) a = true ->
  Str.split_aux sep cur (a ++ String sep rest)
  = (cur ++ a) :: Str.split_aux sep EmptyString rest.
Proof.
  revert cur. induction a as [|c a IH]; simpl; intros cur Ha.
  - rewrite Ascii.eqb_refl.
    replace (cur ++ EmptyString) with cur; [reflexivity|].
    induction cur; simpl; congruence.
  - apply andb_true_iff in Ha. destruct Ha as [Hc Ha].
    apply negb_true_iff in Hc. rewrite Hc, IH by exact Ha.
    f_equal. clear. induction cur; simpl; congruence.
Qed.

Lemma str_forallb_app (p : ascii -> bool) (a b : string) :
  Str.forallb p (a ++ b) = Str.forallb p a && Str.forallb p b.
Proof.
  induction a as [|c a IH]; simpl; [reflexivity|].
  rewrite IH. apply andb_assoc.
Qed.

Lemma string_app_assoc (a b c : string) : (a ++ b) ++ c = a ++ (b ++ c).
Proof. induction a; simpl; congruence. Qed.

(** The date part of the ISO text: year, month and day of the month. *)
Lemma isoDate_shape (t : Z) :
  Time.isoDate t =
  Time.isoYear (Time.YearFromTime t) ++ "-" ++
  Time.pad 2 (Time.MonthFromTime t + 1) ++ "-" ++
  Time.pad 2 (Time.DateFromTime t).
Proof.
  unfold Time.isoDate, Time.toISOString, Str.split.
  set (dp := Time.isoYear (Time.YearFromTime t) ++ "-" ++
             Time.pad 2 (Time.MonthFromTime t + 1) ++ "-" ++
             Time.pad 2 (Time.DateFromTime t)).
  assert (E : Time.isoYear (Time.YearFromTime t) ++ "-" ++
               Time.pad 2 (Time.MonthFromTime t + 1) ++ "-" ++
               Time.pad 2 (Time.DateFromTime t) ++ "T" ++
               Time.pad 2 (Time.HourFromTime t) ++ ":" ++
               Time.pad 2 (Time.MinFromTime t) ++ ":" ++
               Time.pad 2 (Time.SecFromTime t) ++ "." ++
               Time.pad 3 (Time.msFromTime t) ++ "Z"
             = dp ++ String "T"%char
                 (Time.pad 2 (Time.HourFromTime t) ++ ":" ++
                  Time.pad 2 (Time.MinFromTime t) ++ ":" ++
                  Time.pad 2 (Time.SecFromTime t) ++ "." ++
                  Time.pad 3 (Time.msFromTime t) ++ "Z")).
  { unfold dp. repeat rewrite string_app_assoc. reflexivity. }
  rewrite E, split_aux_first; [reflexivity|].
  unfold dp, Time.isoYear.
  destruct ((0 <=? Time.YearFromTime t) && (Time.YearFromTime t <=? 9999));
    [|destruct (Time.YearFromTime t <? 0)];
    repeat rewrite str_forallb_app; repeat rewrite pad_no_T; reflexivity.
Qed.

Lemma str_length_app (a b : string) :
  String.length (a ++ b) = (String.length a + String.length b)%nat.
Proof. induction a; simpl; congruence. Qed.

Lemma pad_length (w : nat) (n : Z) : String.length (Time.pad w n) = w.
Proof.
  revert n. induction w as [|w IH]; intros n; simpl; [reflexivity|].
  rewrite str_length_app, IH. simpl. lia.
Qed.

(** For the years 0 to 9999 the date part is the ten characters
    YYYY-MM-DD. *)
Lemma isoDate_length (t : Z) :
  0 <= Time.YearFromTime t <= 9999 ->
  String.length (Time.isoDate t) = 10%nat.
Proof.
  intros Hy. rewrite isoDate_shape. unfold Time.isoYear.
  replace ((0 <=? Time.YearFromTime t) && (Time.YearFromTime t <=? 9999))
    with true by (symmetry; apply andb_true_iff; split; apply Z.leb_le; lia).
  repeat rewrite str_length_app. repeat rewrite pad_length. reflexivity.
Qed.

(* ------------------------------------------------------------------ *)
(** ** The field validator: date *)

Section DateValidator.
Context {H : Host}.

Lemma validateDate_cases (now : Z) (v : value) :
  validateDate now v =
    if negb (truthy v) then invalid "Date is required" "date"
    else match Date_new v with
         | None =>
             invalid "Invalid date format. Use ISO 8601 format (YYYY-MM-DD)"
                     "date"
         | Some t =>
             if date_gt t (oneYearFromNow now)
             then invalid "Date cannot be more than 1 year in the future"
                          "date"
             else Ok (Time.isoDate t)
         end.
Proof. reflexivity. Qed.

Lemma validateDate_field (now : Z) (v : value) (e : error) :
  validateDate now v = Throw e ->
  is_ValidationError e = true /\ error_field e = Some "date".
Proof.
  rewrite validateDate_cases.
  destruct (negb (truthy v)); [intros E; inversion E; split; reflexivity|].
  destruct (Date_new v) as [t|]; [|intros E; inversion E; split; reflexivity].
  destruct (date_gt t (oneYearFromNow now)); intros E; inversion E.
  split; reflexivity.
Qed.


End DateValidator.



(** Where the clocks go forward during the year, the bound is less than
    365 days ahead: validated on 13 March 2022 at 00:30 UTC, half past
    seven in the evening of the 12th in the zone of [dstHost], the bound
    is 12 March 2023 at 23:30 UTC, and the date 13 March 2023, 364 days
    and 23 hours and a half ahead, is refused. *)
Example validateDate_clock_change :
  @oneYearFromNow dstHost 1647131400000 = Some 1678663800000 /\
  @Date_new dstHost (VStr "2023-03-13") = Some 1678665600000 /\
  1678665600000 <= 1647131400000 + 365 * Time.msPerDay /\
  @validateDate dstHost 1647131400000 (VStr "2023-03-13")
  = invalid "Date cannot be more than 1 year in the future" "date".
Proof.
  split; [vm_compute; reflexivity|].
  split; [vm_compute; reflexivity|].
  split; [vm_compute; congruence|].
  vm_compute; reflexivity.
Qed.

(* ------------------------------------------------------------------ *)
(** ** The field validator: currency and the whole record *)

Lemma validateAmount_field (a : value) (e : error) :
  validateAmount a = Throw e ->
  is_ValidationError e = true /\ error_field e = Some "amount".
Proof.
  unfold validateAmount.
  repeat match goal with
         | |- context [if ?c then _ else _] => destruct c
         end; intros E; inversion E; split; reflexivity.
Qed.

Section RecordValidator.
Context {H : Host}.

Lemma validateTransactionType_field (v : value) (e : error) :
  validateTransactionType v = Throw e ->
  error_field e = Some "type" \/ is_ValidationError e = false.
Proof.
  unfold validateTransactionType.
  destruct (negb (truthy v)); [intros E; inversion E; left; reflexivity|].
  destruct v; try (intros E; inversion E; right; reflexivity).
  destruct (negb (str_in (Str.toLowerCase s) validTypes));
    intros E; inversion E; left; reflexivity.
Qed.

Lemma validateMerchant_field (v : value) (e : error) :
  validateMerchant v = Throw e -> error_field e = Some "merchant".
Proof.
  unfold validateMerchant.
  destruct v; try (intros E; inversion E; reflexivity).
  repeat match goal with
         | |- context [if ?c then _ else _] => destruct c
         end; intros E; inversion E; reflexivity.
Qed.

Lemma validateCategory_field (v : value) (e : error) :
  validateCategory v = Throw e -> error_field e = Some "category".
Proof.
  unfold validateCategory.
  destruct v; try (intros E; inversion E; reflexivity).
  repeat match goal with
         | |- context [if ?c then _ else _] => destruct c
         end; intros E; inversion E; reflexivity.
Qed.

Lemma getprop_throws (o : value) (k : string) (e : error) :
  getprop o k = Throw e -> is_ValidationError e = false.
Proof. destruct o; simpl; intros E; inversion E; reflexivity. Qed.

Lemma validateCurrency_cases (v : value) :
  validateCurrency v =
    match v with
    | VStr EmptyString => Ok "USD"
    | VStr s =>
        if three_capitals (Str.trim (Str.toUpperCase s))
        then Ok (Str.trim (Str.toUpperCase s))
        else if negb (Str.len (Str.trim (Str.toUpperCase s)) =? 3)
        then invalid "Currency must be a 3-letter code (e.g., USD, EUR)"
                     "currency"
        else invalid "Currency code must contain only letters" "currency"
    | _ => Ok "USD"
    end.
Proof.
  destruct v as [| | | |s| |]; try reflexivity.
  destruct s as [|c s]; [reflexivity|].
  unfold validateCurrency.
  change (truthy (VStr (String c s))) with true. cbv iota beta. simpl negb at 1.
  cbv iota.
  set (u := Str.trim (Str.toUpperCase (String c s))).
  unfold three_capitals, Str.len.
  destruct (Nat.eqb_spec (String.length u) 3) as [E|E].
  - rewrite E. simpl. destruct (Str.forallb Str.is_upper u); reflexivity.
  - replace (Z.of_nat (String.length u) =? 3) with false
      by (symmetry; apply Z.eqb_neq; lia).
    reflexivity.
Qed.

Lemma validateCurrency_default (cur : value) :
  is_string cur = false ->
  validateCurrency (or_else cur (VStr "USD")) = Ok "USD".
Proof.
  intros Hs. unfold or_else.
  destruct (truthy cur); [|reflexivity].
  destruct cur; try reflexivity. discriminate.
Qed.

(** A failure of the whole-record validation whose field is [currency]
    comes from the currency check. *)
Lemma validateTransaction_currency_failure (now : Z) (tx : value) (e : error) :
  validateTransaction now tx = Throw e ->
  error_field e = Some "currency" ->
  exists cur, getprop tx "currency" = Ok cur /\
              validateCurrency (or_else cur (VStr "USD")) = Throw e.
Proof.
  unfold validateTransaction.
  destruct (validateTransaction_body now tx) as [r|e0] eqn:B; [discriminate|].
  intros E F.
  assert (e0 = e /\ is_ValidationError e0 = true) as [-> _].
  { destruct (is_ValidationError e0) eqn:V; inversion E; subst; auto.
    discriminate. }
  clear E. unfold validateTransaction_body in B.
  repeat match type of B with
         | rbind ?r _ = _ =>
             let E := fresh "E" in
             destruct r as [?|?] eqn:E; simpl in B;
             [| inversion B; subst; clear B ]
         end.
  all: try match goal with
      | E : getprop _ _ = Throw _ |- _ =>
          apply getprop_throws in E; destruct e; discriminate
      | E : validateAmount _ = Throw _ |- _ =>
          apply validateAmount_field in E; destruct E; congruence
      | E : validateDate _ _ = Throw _ |- _ =>
          apply validateDate_field in E; destruct E; congruence
      | E : validateTransactionType _ = Throw _ |- _ =>
          apply validateTransactionType_field in E;
          destruct E; [congruence | destruct e; discriminate]
      | E : validateMerchant _ = Throw _ |- _ =>
          apply validateMerchant_field in E; congruence
      | E : validateCategory _ = Throw _ |- _ =>
          apply validateCategory_field in E; congruence
      end.
  all: try match goal with
      | E : validateCurrency _ = Throw _ |- _ =>
          eexists; split; [reflexivity | assumption]
      | B : (if ?c then _ else _) = Throw _ |- _ =>
          destruct c; inversion B; subst; discriminate
      end.
Qed.
(** C10, as the code has it.  The currency check fails exactly on a
    non-empty string whose trimmed upper-case form is not three capital
    letters, and then with a ValidationError of field [currency]; on a
    non-empty string that is such a code it returns the code; the empty
    string and every value that is not a string give [USD]; and the
    whole-record validation never fails on the currency of a record
    whose currency is not a string. *)
Theorem validateCurrency_spec (v : value) :
  ((exists e, validateCurrency v = Throw e) <->
   (exists s, v = VStr s /\ s <> EmptyString /\
              three_capitals (Str.trim (Str.toUpperCase s)) = false)) /\
  (forall e, validateCurrency v = Throw e ->
     is_ValidationError e = true /\ error_field e = Some "currency") /\
  (forall s, v = VStr s -> s <> EmptyString ->
     three_capitals (Str.trim (Str.toUpperCase s)) = true ->
     validateCurrency v = Ok (Str.trim (Str.toUpperCase s))) /\
  (is_string v = false \/ v = VStr EmptyString ->
   validateCurrency v = Ok "USD") /\
  (forall now tx e,
     getprop tx "currency" = Ok v -> is_string v = false ->
     validateTransaction now tx = Throw e ->
     error_field e <> Some "currency").
Proof.
  rewrite validateCurrency_cases.
  split; [|split; [|split; [|split]]].
  - split.
    + intros [e E]. destruct v as [| | | |s| |]; try discriminate.
      destruct s as [|c s]; [discriminate|].
      exists (String c s). split; [reflexivity|]. split; [discriminate|].
      destruct (three_capitals _); [discriminate | reflexivity].
    + intros [s [-> [Hs Hc]]]. destruct s as [|c s]; [congruence|].
      rewrite Hc. destruct (negb _); eexists; reflexivity.
  - intros e E. destruct v as [| | | |s| |]; try discriminate.
    destruct s as [|c s]; [discriminate|].
    destruct (three_capitals _); [discriminate|].
    destruct (negb _); inversion E; split; reflexivity.
  - intros s -> Hs Hc. destruct s as [|c s]; [congruence|].
    rewrite Hc. reflexivity.
  - intros [Hs| ->]; [|reflexivity].
    destruct v; try reflexivity. discriminate.
  - intros now tx e G Hs E F.
    destruct (validateTransaction_currency_failure _ _ E F) as [cur [G' C]].
    rewrite G in G'. inversion G'; subst cur.
    rewrite (validateCurrency_default _ Hs) in C. discriminate.
Qed.

End RecordValidator.

(** The empty string is a string whose trimmed upper-case form is not
    three letters, and it is not rejected. *)
Lemma validateCurrency_empty_counterexample :
  ~ (forall v : value,
       (exists e, validateCurrency v = Throw e) <->
       (exists s, v = VStr s /\
                  three_capitals (Str.trim (Str.toUpperCase s)) = false)).
Proof.
  intros C. destruct (C (VStr EmptyString)) as [_ B].
  destruct B as [e E]; [exists EmptyString; split; reflexivity|].
  discriminate.
Qed.

Lemma validateCurrency_spec_witness :
  (exists s, VStr "usdollar" = VStr s /\ s <> EmptyString /\
             three_capitals (Str.trim (Str.toUpperCase s)) = false) /\
  (exists e, validateCurrency (VStr "usdollar") = Throw e).
Proof.
  assert (W : exists s, VStr "usdollar" = VStr s /\ s <> EmptyString /\
             three_capitals (Str.trim (Str.toUpperCase s)) = false).
  { exists "usdollar". split; [reflexivity|]. split; [discriminate|].
    reflexivity. }
  split; [exact W|].
  apply (proj2 (proj1 (@validateCurrency_spec isoHost (VStr "usdollar")))).
  exact W.
Defined.

(* ------------------------------------------------------------------ *)
(** ** JSON *)

Example json_parse_sample :
  Json.parse_text
    (dq "{ 'amount': 12.5, 'tags': [true, null, 'a\nb\u0041'], 'amount': -1e2 }")
  = Some (VObj [("amount", VNum (Num.parseFloat "-100"));
                ("tags", VArr [VBool true; VNull;
                               VStr ("a" ++ Json.one 10 ++ "bA")])]).
Proof. vm_compute. reflexivity. Qed.

(* ------------------------------------------------------------------ *)
(** ** What a computation leaves alone *)

Section Frames.
Variable p : event -> bool.

Lemma silent_ret {A} (a : A) : silent p (ret a).
Proof. intros w. exists []. simpl. rewrite app_nil_r. auto. Qed.

Lemma silent_throw {A} (e : error) : silent p (@throw A e).
Proof. intros w. exists []. simpl. rewrite app_nil_r. auto. Qed.

Lemma silent_lift {A} (r : result A) : silent p (lift r).
Proof. intros w. exists []. simpl. rewrite app_nil_r. auto. Qed.

Lemma silent_now : silent p now.
Proof. intros w. exists []. simpl. rewrite app_nil_r. auto. Qed.

Lemma silent_emit (e : event) : p e = false -> silent p (emit e).
Proof. intros He w. exists [e]. simpl. rewrite He. auto. Qed.

Lemma silent_bind {A B} (m : M A) (k : A -> M B) :
  silent p m -> (forall a, silent p (k a)) -> silent p (bind m k).
Proof.
  intros Hm Hk w. unfold bind. destruct (Hm w) as [e1 [T1 F1]].
  destruct (m w) as [[a|e] w1]; simpl in *.
  - destruct (Hk a w1) as [e2 [T2 F2]]. exists (e1 ++ e2)%list.
    rewrite T2, T1, app_assoc, List.forallb_app, F1, F2. auto.
  - exists e1. auto.
Qed.

Lemma silent_try {A} (m : M A) (h : error -> M A) :
  silent p m -> (forall e, silent p (h e)) -> silent p (try_catch m h).
Proof.
  intros Hm Hh w. unfold try_catch. destruct (Hm w) as [e1 [T1 F1]].
  destruct (m w) as [[a|e] w1]; simpl in *.
  - exists e1. auto.
  - destruct (Hh e w1) as [e2 [T2 F2]]. exists (e1 ++ e2)%list.
    rewrite T2, T1, app_assoc, List.forallb_app, F1, F2. auto.
Qed.

(** A computation that does not touch the trace. *)
Lemma silent_same_trace {A} (m : M A) :
  (forall w, trace (snd (m w)) = trace w) -> silent p m.
Proof. intros Hm w. exists []. rewrite Hm, app_nil_r. auto. Qed.

End Frames.

Lemma keeps_ret {A} (a : A) : keeps_table (ret a).
Proof. intros w. auto. Qed.

Lemma keeps_throw {A} (e : error) : keeps_table (@throw A e).
Proof. intros w. auto. Qed.

Lemma keeps_lift {A} (r : result A) : keeps_table (lift r).
Proof. intros w. auto. Qed.

Lemma keeps_now : keeps_table now.
Proof. intros w. auto. Qed.

Lemma keeps_emit (e : event) : keeps_table (emit e).
Proof. intros w. auto. Qed.

Lemma keeps_bind {A B} (m : M A) (k : A -> M B) :
  keeps_table m -> (forall a, keeps_table (k a)) -> keeps_table (bind m k).
Proof.
  intros Hm Hk w. unfold bind. destruct (Hm w) as [T1 C1].
  destruct (m w) as [[a|e] w1]; simpl in *; auto.
  destruct (Hk a w1) as [T2 C2]. split; congruence.
Qed.

Lemma keeps_try {A} (m : M A) (h : error -> M A) :
  keeps_table m -> (forall e, keeps_table (h e)) -> keeps_table (try_catch m h).
Proof.
  intros Hm Hh w. unfold try_catch. destruct (Hm w) as [T1 C1].
  destruct (m w) as [[a|e] w1]; simpl in *; auto.
  destruct (Hh e w1) as [T2 C2]. split; congruence.
Qed.

Create HintDb frames.
#[export] Hint Resolve silent_ret silent_throw silent_lift silent_now
  keeps_ret keeps_throw keeps_lift keeps_now keeps_emit : frames.

(** Goes through a computation built from the combinators. *)
Ltac frame :=
  repeat first
    [ apply silent_bind; [|intros]
    | apply silent_try; [|intros]
    | apply keeps_bind; [|intros]
    | apply keeps_try; [|intros]
    | apply silent_emit; reflexivity
    | solve [auto with frames]
    | match goal with
      | |- silent _ (match ?x with _ => _ end) => destruct x
      | |- keeps_table (match ?x with _ => _ end) => destruct x
      | |- silent _ (let '(_, _) := ?x in _) => destruct x
      | |- keeps_table (let '(_, _) := ?x in _) => destruct x
      end ].

Section ServiceFrames.
Context {H : Host} (E : env).
Variable p : event -> bool.
Hypothesis p_completion : forall c, p (Ext_completion c) = false.
Hypothesis p_recognition : forall n, p (Ext_detectDocumentText n) = false.
Hypothesis p_readFile : forall f, p (Ext_readFile f) = false.
Hypothesis p_unlink : forall f, p (Ext_unlink f) = false.
Hypothesis p_query : forall i, p (Ext_query i) = false.
Hypothesis p_scan : p Ext_scan = false.

Ltac leaf :=
  solve [ apply silent_same_trace; intros w; simpl;
          repeat match goal with
                 | |- context [match ?x with _ => _ end] => destruct x
                 end; reflexivity
        | intros w; simpl;
          repeat match goal with
                 | |- context [match ?x with _ => _ end] => destruct x
                 end; auto ].

Ltac go :=
  repeat first
    [ solve [auto with frames]
    | apply silent_emit; solve [auto]
    | apply silent_bind; [|intros]
    | apply silent_try; [|intros]
    | apply keeps_bind; [|intros]
    | apply keeps_try; [|intros]
    | match goal with
      | |- silent _ (match ?x with _ => _ end) => destruct x
      | |- keeps_table (match ?x with _ => _ end) => destruct x
      end
    | leaf ].

Lemma silent_extract (text : value) :
  silent p (extractTransactionFromText E text).
Proof.
  unfold extractTransactionFromText, extract_body, extract_handler,
    create_completion, normalize, getTodayDate. go.
Qed.

Lemma keeps_extract (text : value) :
  keeps_table (extractTransactionFromText E text).
Proof.
  unfold extractTransactionFromText, extract_body, extract_handler,
    create_completion, normalize, getTodayDate. go.
Qed.

#[local] Hint Resolve silent_extract keeps_extract : frames.

Lemma silent_checkForDuplicates (u : string) (d : Validated.t) :
  silent p (checkForDuplicates E u d).
Proof.
  unfold checkForDuplicates, checkForDuplicatesFallback,
    dynamoDB_query_index, dynamoDB_scan, fault, get_table. go.
Qed.

Lemma keeps_checkForDuplicates (u : string) (d : Validated.t) :
  keeps_table (checkForDuplicates E u d).
Proof.
  unfold checkForDuplicates, checkForDuplicatesFallback,
    dynamoDB_query_index, dynamoDB_scan, fault, get_table. go.
Qed.

Lemma silent_extractTextFromImage (path : value) :
  silent p (extractTextFromImage E path).
Proof.
  unfold extractTextFromImage, call_textract, readFile, existsSync. go.
Qed.

Lemma keeps_extractTextFromImage (path : value) :
  keeps_table (extractTextFromImage E path).
Proof.
  unfold extractTextFromImage, call_textract, readFile, existsSync. go.
Qed.

Lemma silent_extractTextFromBuffer (b : option buffer) :
  silent p (extractTextFromBuffer E b).
Proof. unfold extractTextFromBuffer, call_textract. go. Qed.

Lemma keeps_extractTextFromBuffer (b : option buffer) :
  keeps_table (extractTextFromBuffer E b).
Proof. unfold extractTextFromBuffer, call_textract. go. Qed.

#[local] Hint Resolve silent_checkForDuplicates keeps_checkForDuplicates
  silent_extractTextFromImage keeps_extractTextFromImage
  silent_extractTextFromBuffer keeps_extractTextFromBuffer : frames.

Lemma silent_unlink (path : string) : silent p (unlink E path).
Proof. unfold unlink. go. Qed.

Lemma keeps_unlink (path : string) : keeps_table (unlink E path).
Proof. unfold unlink. go. Qed.

Lemma keeps_cleanupImageFile (path : value) :
  keeps_table (cleanupImageFile E path).
Proof. unfold cleanupImageFile, existsSync, unlink. go. Qed.

Lemma silent_validated (r : request) : silent p (validated E r).
Proof.
  unfold validated, candidate, text_of.
  go.
Qed.

Lemma keeps_validated (r : request) : keeps_table (validated E r).
Proof.
  unfold validated, candidate, text_of.
  go.
Qed.

End ServiceFrames.

(* ------------------------------------------------------------------ *)
(** ** The pipelines, in stages *)

Section Pipelines.
Context {H : Host} (E : env).

(** The cleanup returns normally, whatever happens to the file. *)
Lemma cleanupImageFile_returns (filePath : value) (w : world) :
  exists w', cleanupImageFile E filePath w = (Ok tt, w').
Proof.
  unfold cleanupImageFile, existsSync, unlink.
  unfold try_catch, bind, emit, ret, throw. cbn.
  destruct (negb (truthy filePath)); [eexists; reflexivity|].
  destruct filePath; cbn; try (eexists; reflexivity).
  destruct (find_file s (files w)) eqn:F; cbn; [|eexists; reflexivity].
  destruct (unlink_fault E s); cbn; [eexists; reflexivity|].
  rewrite F. eexists; reflexivity.
Qed.

Ltac split_runs :=
  repeat (cbn beta iota delta [fst snd negb];
          match goal with
          | |- _ = _ => reflexivity
          | Q : cleanupImageFile E ?p ?w = _
            |- context [cleanupImageFile E ?p ?w] => rewrite Q
          | |- context [cleanupImageFile E ?p ?w] =>
              let w' := fresh "w" in
              let Q := fresh "Q" in
              destruct (cleanupImageFile_returns p w) as [w' Q]; rewrite Q
          | |- context [match ?x with _ => _ end] =>
              match x with
              | context [match _ with _ => _ end] => fail 1
              | _ => destruct x
              end
          end).

(** Each entry point is its staged form. *)
Lemma process_staged (r : request) (w : world) :
  process E r w = staged E r w.
Proof.
  destruct r as [u t|u p|u b];
    unfold process, staged, attempt, validated, candidate, text_of, cleanup,
      userId_of, source_of, duplicate_outcome, created_outcome,
      processTransactionFromText, processTransactionFromImage,
      processTransactionFromBuffer, with_cleanedUp, try_catchL, bindL, liftL,
      retL, set_cleanedUp, get_cleanedUp, try_catch, bind, lift, ret, throw,
      now, rbind; split_runs.
Qed.

End Pipelines.

(* ------------------------------------------------------------------ *)
(** ** A duplicate stops the pipeline *)

Section DuplicateFound.
Context {H : Host} (E : env).

Lemma no_write_events :
  (forall c, is_write (Ext_completion c) = false) /\
  (forall n, is_write (Ext_detectDocumentText n) = false) /\
  (forall f, is_write (Ext_readFile f) = false) /\
  (forall f, is_write (Ext_unlink f) = false) /\
  (forall i, is_write (Ext_query i) = false) /\
  is_write Ext_scan = false.
Proof. repeat split. Qed.

Lemma silent_cleanup_writes (r : request) : silent is_write (cleanup E r).
Proof.
  destruct r; simpl; auto with frames.
  unfold cleanupImageFile.
  apply silent_bind; [apply silent_emit; reflexivity|intros _].
  apply silent_try; [|intros; apply silent_ret].
  destruct (negb (truthy imagePath)); [apply silent_ret|].
  apply silent_bind.
  - apply silent_same_trace. intros w. reflexivity.
  - intros present. destruct present; [|apply silent_ret].
    destruct imagePath; try apply silent_ret.
    apply silent_unlink. reflexivity.
Qed.

Lemma keeps_cleanup (r : request) : keeps_table (cleanup E r).
Proof.
  destruct r; simpl; auto with frames. apply keeps_cleanupImageFile.
Qed.

Lemma cleanup_returns (r : request) (w : world) :
  exists w', cleanup E r w = (Ok tt, w').
Proof.
  destruct r; simpl; try (eexists; reflexivity).
  apply cleanupImageFile_returns.
Qed.

(** C2.  In a run of a pipeline (text, image or buffer) whose stages up
    to validation give the user and the validated candidate and whose
    duplicate check returns a list that is not empty, the pipeline
    answers with no transaction, [isDuplicate] set and the first record
    of the list; it leaves the table as it was and neither calls
    [createTransaction] nor puts an item. *)
Theorem duplicate_found_writes_nothing (r : request) (w w1 w2 : world)
  (u : string) (d : Validated.t) (first : Item.t) (others : list Item.t) :
  validated E r w = (Ok (u, d), w1) ->
  checkForDuplicates E u d w1 = (Ok (first :: others), w2) ->
  exists out w' evs,
    process E r w = (Ok out, w') /\
    transaction out = None /\
    isDuplicate out = true /\
    duplicateTransaction out = Some first /\
    table w' = table w /\
    trace w' = (trace w ++ evs)%list /\
    forallb (fun e => negb (is_write e)) evs = true.
Proof.
  intros V D. rewrite process_staged.
  destruct (cleanup_returns r w2) as [w3 C].
  exists (duplicate_outcome r first), w3.
  destruct no_write_events as (P1 & P2 & P3 & P4 & P5 & P6).
  destruct (@silent_validated H E is_write P1 P2 P3 r w) as [e1 [T1 F1]].
  destruct (@silent_checkForDuplicates E is_write P5 P6 u d w1) as [e2 [T2 F2]].
  destruct (silent_cleanup_writes r w2) as [e3 [T3 F3]].
  destruct (keeps_validated E r w) as [K1 _].
  destruct (keeps_checkForDuplicates E u d w1) as [K2 _].
  destruct (keeps_cleanup r w2) as [K3 _].
  rewrite V in T1, K1. rewrite D in T2, K2. rewrite C in T3, K3.
  simpl in T1, T2, T3, K1, K2, K3.
  exists (e1 ++ e2 ++ e3)%list.
  split.
  - unfold staged, attempt, try_catch, bind. rewrite V. cbn [fst snd].
    rewrite D.
    cbn [ret]. rewrite C. reflexivity.
  - repeat split.
    + congruence.
    + rewrite T3, T2, T1. rewrite <- !app_assoc. reflexivity.
    + rewrite !List.forallb_app, F1, F2, F3. reflexivity.
Qed.

End DuplicateFound.

Lemma duplicate_found_writes_nothing_witness :
  exists out w',
    @process isoHost Sample.E Sample.text Sample.seen = (Ok out, w') /\
    transaction out = None /\
    isDuplicate out = true /\
    duplicateTransaction out
      = Some (Sample.item "alice" "tx-1" (Sample.morning - 1000) "12.40") /\
    table w' = table Sample.seen.
Proof.
  edestruct (@duplicate_found_writes_nothing isoHost Sample.E Sample.text
               Sample.seen)
    as (out & w' & evs & P & T & D & F & K & _).
  - vm_compute. reflexivity.
  - vm_compute. reflexivity.
  - exists out, w'. repeat split; assumption.
Defined.

(* ------------------------------------------------------------------ *)
(** ** What a successful validation returns *)

Section ValidatedOutput.
Context {H : Host}.

Lemma validateDate_ok (today : Z) (v : value) (d : string) :
  validateDate today v = Ok d ->
  exists t, Date_new v = Some t /\
            date_gt t (oneYearFromNow today) = false /\ d = Time.isoDate t.
Proof.
  rewrite validateDate_cases.
  destruct (negb (truthy v)); [discriminate|].
  destruct (Date_new v) as [t|]; [|discriminate].
  destruct (date_gt t (oneYearFromNow today)) eqn:G; [discriminate|].
  intros E. inversion E. exists t. auto.
Qed.

Lemma validateTransactionType_ok (v : value) (t : string) :
  validateTransactionType v = Ok t ->
  exists s, v = VStr s /\ t = Str.toLowerCase s /\ str_in t validTypes = true.
Proof.
  unfold validateTransactionType.
  destruct (negb (truthy v)); [discriminate|].
  destruct v; try discriminate.
  destruct (str_in (Str.toLowerCase s) validTypes) eqn:I; simpl;
    [|discriminate].
  intros E. inversion E. exists s. subst. auto.
Qed.

Lemma validateMerchant_ok (v : value) (m : string) :
  validateMerchant v = Ok m ->
  exists s, v = VStr s /\ m = Str.trim s /\ 0 < Str.len m <= 200.
Proof.
  unfold validateMerchant. destruct v; try discriminate.
  destruct (negb (truthy (VStr s))); [discriminate|].
  destruct (Z.eqb_spec (Str.len (Str.trim s)) 0); [discriminate|].
  destruct (Z.ltb_spec 200 (Str.len (Str.trim s))); [discriminate|].
  intros E. inversion E. exists s. subst. unfold Str.len in *.
  repeat split; lia.
Qed.

Lemma validateCategory_ok (v : value) (m : string) :
  validateCategory v = Ok m ->
  exists s, v = VStr s /\ m = Str.trim s /\ 0 < Str.len m <= 100.
Proof.
  unfold validateCategory. destruct v; try discriminate.
  destruct (negb (truthy (VStr s))); [discriminate|].
  destruct (Z.eqb_spec (Str.len (Str.trim s)) 0); [discriminate|].
  destruct (Z.ltb_spec 100 (Str.len (Str.trim s))); [discriminate|].
  intros E. inversion E. exists s. subst. unfold Str.len in *.
  repeat split; lia.
Qed.

Lemma validateCurrency_ok (v : value) (c : string) :
  validateCurrency v = Ok c ->
  (c = "USD" \/ exists s, v = VStr s /\ c = Str.trim (Str.toUpperCase s)) /\
  three_capitals c = true.
Proof.
  rewrite validateCurrency_cases.
  destruct v as [| | | |s| |];
    try (intros E; inversion E; split; [left|]; reflexivity).
  destruct s as [|a s]; [intros E; inversion E; split; [left|]; reflexivity|].
  destruct (three_capitals _) eqn:T.
  - intros E. inversion E. split; [right; eexists; split; reflexivity|].
    exact T.
  - destruct (negb _); discriminate.
Qed.

(** A candidate that validates is an object whose fields passed the
    field checks, and the result is made of what the checks return. *)
Lemma validateTransaction_checked (today : Z) (c : value) (d : Validated.t) :
  validateTransaction today c = Ok d -> checked today c d.
Proof.
  unfold validateTransaction.
  destruct (validateTransaction_body today c) as [r|e0] eqn:B;
    [|destruct (is_ValidationError e0); discriminate].
  intros E. inversion E. subst r. clear E.
  unfold validateTransaction_body in B.
  destruct c as [| | | | | |props];
    try (simpl in B; discriminate).
  simpl getprop in B. unfold rbind at 1 in B.
  repeat match type of B with
         | rbind ?r _ = _ =>
             let E := fresh "E" in
             destruct r as [?|?] eqn:E; simpl in B; [|discriminate]
         end.
  match type of B with
  | (if ?c then _ else _) = _ => destruct c eqn:L; [discriminate|]
  end.
  inversion B. subst d. clear B.
  exists props.
  cbn [Validated.amount Validated.date Validated.type Validated.merchant
       Validated.category Validated.currency Validated.description
       Validated.source Validated.rawText].
  repeat match goal with
         | E : Ok _ = Ok _ |- _ => inversion E; subst; clear E
         end.
  apply Z.ltb_ge in L.
  split; [reflexivity|]. split; [assumption|].
  split; [eapply validateDate_ok; eassumption|].
  split; [eapply validateTransactionType_ok; eassumption|].
  split; [eapply validateMerchant_ok; eassumption|].
  split; [eapply validateCategory_ok; eassumption|].
  match goal with
  | E : validateCurrency _ = Ok _ |- _ =>
      apply validateCurrency_ok in E; destruct E as [[U|[s [S U]]] T]
  end.
  - split; [left; exact U|]. split; [exact T|]. split; [exact L|].
    split; reflexivity.
  - split; [|split; [exact T|split; [exact L|split; reflexivity]]].
    unfold or_else in S.
    destruct (truthy (lookup props "currency")).
    + right. exists s. split; [exact S | exact U].
    + left. inversion S. subst s. rewrite U. reflexivity.
Qed.

End ValidatedOutput.

(* ------------------------------------------------------------------ *)
(** ** Nothing is written that was not validated *)

Section Persisting.
Context {H : Host} (E : env).

(** What a call of [createTransaction] does: it is recorded, one item
    made of the validated data is put, and the table has that item put
    into it unless the store failed. *)
Lemma createTransaction_shape (u : string) (d : Validated.t) (w : world) :
  exists item,
    created_from item u d /\
    trace (snd (createTransaction E u d w))
    = (trace w ++ [Call_createTransaction u d; Ext_put item])%list /\
    clock (snd (createTransaction E u d w)) = clock w /\
    ((exists e, fst (createTransaction E u d w) = Throw e /\
                table (snd (createTransaction E u d w)) = table w) \/
     (fst (createTransaction E u d w) = Ok item /\
      table (snd (createTransaction E u d w)) = put_item item (table w))).
Proof.
  unfold createTransaction, dynamoDB_put, fresh_uuid, fault, get_table,
    set_table, tick.
  unfold try_catch, bind, emit, ret, throw, now. cbn.
  eexists. split; [|split; [|split]].
  2:{ destruct (db_fault E OpPut); cbn; rewrite <- app_assoc; reflexivity. }
  - repeat split.
  - destruct (db_fault E OpPut); reflexivity.
  - destruct (db_fault E OpPut); cbn.
    + left. eexists. split; reflexivity.
    + right. split; reflexivity.
Qed.

Lemma validated_inv (r : request) (w w1 : world) (u : string)
  (d : Validated.t) :
  validated E r w = (Ok (u, d), w1) ->
  exists c, candidate E r w = (Ok (u, c), w1) /\
            validateTransaction (clock w1) c = Ok d.
Proof.
  unfold validated, bind, now, lift, ret.
  destruct (candidate E r w) as [[[u' c]|e] w0]; [|discriminate].
  cbn [fst snd].
  destruct (validateTransaction (clock w0) c) as [d'|e] eqn:V; [|discriminate].
  intros Q. inversion Q. subst. exists c. auto.
Qed.

Lemma no_write_in (evs : list event) (x : event) :
  forallb (fun e => negb (is_write e)) evs = true ->
  In x evs -> is_write x = false.
Proof.
  intros F I. rewrite forallb_forall in F. apply F in I.
  apply negb_true_iff in I. exact I.
Qed.

Lemma created_persists (today : Z) (c : value) (item : Item.t) (u : string)
  (d : Validated.t) :
  checked today c d -> created_from item u d -> persists item u d.
Proof.
  intros (props & _ & _ & _ & _ & _ & _ & _ & T & _ & S & R).
  intros (C1 & C2 & C3 & C4 & C5 & C6 & C7 & C8 & C9 & C10 & _).
  repeat split; try assumption.
  - rewrite C3. destruct (Validated.currency d); [discriminate|reflexivity].
  - rewrite C9, S. unfold or_else.
    destruct (truthy (lookup props "source")) eqn:Q; [rewrite Q|]; reflexivity.
  - rewrite C10, R. unfold or_else.
    destruct (truthy (lookup props "rawText")) eqn:Q; [rewrite Q|]; reflexivity.
Qed.

(** C3.  In every run of a pipeline, each call of [createTransaction]
    is made with the user and the data [validateTransaction] returned
    for the candidate of that run, which passed every field check; each
    item put into the store holds exactly the fields of that data; and
    the table is left as it was or has that one item put into it. *)
Theorem writes_follow_validation (r : request) (w : world) :
  exists evs,
    trace (snd (process E r w)) = (trace w ++ evs)%list /\
    (forall u d, In (Call_createTransaction u d) evs ->
       exists c w0, candidate E r w = (Ok (u, c), w0) /\
                    validateTransaction (clock w0) c = Ok d /\
                    checked (clock w0) c d) /\
    (forall item, In (Ext_put item) evs ->
       exists u d, In (Call_createTransaction u d) evs /\
                   persists item u d) /\
    (table (snd (process E r w)) = table w \/
     exists item, In (Ext_put item) evs /\
                  table (snd (process E r w)) = put_item item (table w)).
Proof.
  rewrite process_staged.
  destruct no_write_events as (P1 & P2 & P3 & P4 & P5 & P6).
  destruct (@silent_validated H E is_write P1 P2 P3 r w) as [e1 [T1 F1]].
  destruct (keeps_validated E r w) as [K1 _].
  assert (quiet : forall evs w',
            trace w' = (trace w ++ evs)%list ->
            forallb (fun e => negb (is_write e)) evs = true ->
            table w' = table w ->
            exists evs0,
              trace w' = (trace w ++ evs0)%list /\
              (forall u d, In (Call_createTransaction u d) evs0 ->
                 exists c w0, candidate E r w = (Ok (u, c), w0) /\
                              validateTransaction (clock w0) c = Ok d /\
                              checked (clock w0) c d) /\
              (forall item, In (Ext_put item) evs0 ->
                 exists u d, In (Call_createTransaction u d) evs0 /\
                             persists item u d) /\
              (table w' = table w \/
               exists item, In (Ext_put item) evs0 /\
                            table w' = put_item item (table w))).
  { intros evs w' T F K. exists evs. split; [exact T|].
    split; [|split; [|left; exact K]].
    - intros u d I. apply (@no_write_in _ _ F) in I. discriminate.
    - intros item I. apply (@no_write_in _ _ F) in I. discriminate. }
  assert (after : forall w2, exists w3 e3,
            cleanup E r w2 = (Ok tt, w3) /\
            trace w3 = (trace w2 ++ e3)%list /\
            forallb (fun e => negb (is_write e)) e3 = true /\
            table w3 = table w2).
  { intros w2. destruct (cleanup_returns E r w2) as [w3 Q].
    destruct (silent_cleanup_writes E r w2) as [e3 [T3 F3]].
    destruct (keeps_cleanup E r w2) as [K3 _].
    rewrite Q in T3, K3. exists w3, e3. auto. }
  unfold staged, attempt, try_catch, bind.
  destruct (validated E r w) as [[[u d]|e] w1] eqn:V; cbn [fst snd] in *.
  2:{ destruct (after w1) as (w3 & e3 & Q & T3 & F3 & K3). rewrite Q.
      cbn [throw snd].
      apply (quiet (e1 ++ e3)%list).
      - rewrite T3, T1, app_assoc. reflexivity.
      - rewrite List.forallb_app, F1, F3. reflexivity.
      - congruence. }
  destruct (@silent_checkForDuplicates E is_write P5 P6 u d w1)
    as [e2 [T2 F2]].
  destruct (keeps_checkForDuplicates E u d w1) as [K2 _].
  destruct (checkForDuplicates E u d w1) as [[dups|e] w2] eqn:D;
    cbn [fst snd] in *.
  2:{ destruct (after w2) as (w3 & e3 & Q & T3 & F3 & K3). rewrite Q.
      cbn [throw snd].
      apply (quiet (e1 ++ e2 ++ e3)%list).
      - rewrite T3, T2, T1, !app_assoc. reflexivity.
      - rewrite !List.forallb_app, F1, F2, F3. reflexivity.
      - congruence. }
  destruct dups as [|first others].
  2:{ cbn [ret]. destruct (after w2) as (w3 & e3 & Q & T3 & F3 & K3).
      rewrite Q. cbn [ret snd].
      apply (quiet (e1 ++ e2 ++ e3)%list).
      - rewrite T3, T2, T1, !app_assoc. reflexivity.
      - rewrite !List.forallb_app, F1, F2, F3. reflexivity.
      - congruence. }
  destruct (createTransaction_shape u d w2) as (item & CF & T3 & _ & K3).
  destruct (@validated_inv _ _ _ _ _ V) as [c [Cd Vd]].
  pose proof (@validateTransaction_checked _ _ _ _ Vd) as Ch.
  pose proof (@created_persists _ _ _ _ _ Ch CF) as Pe.
  assert (shape : forall w4 e4,
            trace w4 = (trace (snd (createTransaction E u d w2)) ++ e4)%list ->
            forallb (fun e => negb (is_write e)) e4 = true ->
            table w4 = table (snd (createTransaction E u d w2)) ->
            exists evs0,
              trace w4 = (trace w ++ evs0)%list /\
              (forall u d, In (Call_createTransaction u d) evs0 ->
                 exists c w0, candidate E r w = (Ok (u, c), w0) /\
                              validateTransaction (clock w0) c = Ok d /\
                              checked (clock w0) c d) /\
              (forall item, In (Ext_put item) evs0 ->
                 exists u d, In (Call_createTransaction u d) evs0 /\
                             persists item u d) /\
              (table w4 = table w \/
               exists item, In (Ext_put item) evs0 /\
                            table w4 = put_item item (table w))).
  { intros w4 e4 T4 F4 K4.
    exists (e1 ++ e2 ++ [Call_createTransaction u d; Ext_put item] ++ e4)%list.
    split; [rewrite T4, T3, T2, T1, <- !app_assoc; reflexivity|].
    split; [|split].
    - intros u' d' I.
      repeat (apply in_app_or in I; destruct I as [I|I]);
        try (apply (@no_write_in _ _ F1) in I; discriminate);
        try (apply (@no_write_in _ _ F2) in I; discriminate);
        try (apply (@no_write_in _ _ F4) in I; discriminate).
      destruct I as [I|[I|[]]]; [|discriminate].
      inversion I. subst u' d'. exists c, w1. auto.
    - intros item' I.
      repeat (apply in_app_or in I; destruct I as [I|I]);
        try (apply (@no_write_in _ _ F1) in I; discriminate);
        try (apply (@no_write_in _ _ F2) in I; discriminate);
        try (apply (@no_write_in _ _ F4) in I; discriminate).
      destruct I as [I|[I|[]]]; [discriminate|].
      inversion I. subst item'. exists u, d. split; [|exact Pe].
      apply in_or_app. right. apply in_or_app. right. left. reflexivity.
    - destruct K3 as [[e [_ K3]]|[_ K3]].
      + left. congruence.
      + right. exists item. split; [|congruence].
        apply in_or_app. right. apply in_or_app. right.
        right. left. reflexivity. }
  destruct (createTransaction E u d w2) as [[created|e] w3];
    cbn [fst snd] in *.
  - unfold ret. cbn beta iota.
    destruct (after w3) as (w4 & e4 & Q & T4 & F4 & K4). rewrite Q.
    unfold lift. cbn [snd]. apply (shape w4 e4); assumption.
  - unfold throw. cbn beta iota.
    destruct (after w3) as (w4 & e4 & Q & T4 & F4 & K4). rewrite Q.
    cbn [snd]. apply (shape w4 e4); assumption.
Qed.

End Persisting.

(* ------------------------------------------------------------------ *)
(** ** The image is cleaned up once *)

Section Cleanup.
Context {H : Host} (E : env).

Lemma no_cleanup_events :
  (forall c, is_cleanup (Ext_completion c) = false) /\
  (forall n, is_cleanup (Ext_detectDocumentText n) = false) /\
  (forall f, is_cleanup (Ext_readFile f) = false) /\
  (forall f, is_cleanup (Ext_unlink f) = false) /\
  (forall i, is_cleanup (Ext_query i) = false) /\
  is_cleanup Ext_scan = false.
Proof. repeat split. Qed.

Lemma silent_createTransaction (p : event -> bool) (u : string)
  (d : Validated.t) :
  (forall u d, p (Call_createTransaction u d) = false) ->
  (forall i, p (Ext_put i) = false) ->
  silent p (createTransaction E u d).
Proof.
  intros Pc Pp w.
  destruct (createTransaction_shape E u d w) as (item & _ & T & _).
  exists [Call_createTransaction u d; Ext_put item].
  split; [exact T|]. simpl. rewrite Pc, Pp. reflexivity.
Qed.

Lemma silent_attempt (r : request) : silent is_cleanup (attempt E r).
Proof.
  destruct no_cleanup_events as (P1 & P2 & P3 & P4 & P5 & P6).
  unfold attempt.
  apply silent_bind; [apply silent_validated; assumption|intros v].
  apply silent_bind; [apply silent_checkForDuplicates; assumption|intros l].
  destruct l; [|apply silent_ret].
  apply silent_bind; [|intros; apply silent_ret].
  apply silent_createTransaction; reflexivity.
Qed.

(** A call of the cleanup is recorded once, and what follows it in the
    trace is the deletion at most. *)
Lemma cleanupImageFile_trace (filePath : value) (w : world) :
  exists rest,
    trace (snd (cleanupImageFile E filePath w))
    = (trace w ++ Call_cleanupImageFile filePath :: rest)%list /\
    forallb (fun e => negb (is_cleanup e)) rest = true /\
    forallb (fun e => negb (is_recognition e)) rest = true.
Proof.
  unfold cleanupImageFile, existsSync, unlink.
  unfold try_catch, bind, emit, ret, throw. cbn.
  destruct (negb (truthy filePath));
    [solve [exists nil; cbn; auto]|].
  destruct filePath; cbn; try (solve [exists nil; cbn; auto]).
  destruct (find_file s (files w)) eqn:F; cbn; [|solve [exists nil; cbn; auto]].
  destruct (unlink_fault E s); cbn.
  - exists [Ext_unlink s]. rewrite <- app_assoc. cbn. auto.
  - rewrite F. cbn. exists [Ext_unlink s]. rewrite <- app_assoc. cbn. auto.
Qed.

(** The trace of a run from an image: what the attempt adds, which has
    no cleanup, then the one cleanup. *)
Lemma image_run_trace (u p : value) (w : world) :
  exists w1 rest,
    snd (attempt E (FromImage u p) w) = w1 /\
    trace (snd (processTransactionFromImage E u p w))
    = (trace w1 ++ Call_cleanupImageFile p :: rest)%list /\
    forallb (fun e => negb (is_cleanup e)) rest = true /\
    forallb (fun e => negb (is_recognition e)) rest = true.
Proof.
  change (processTransactionFromImage E u p w)
    with (process E (FromImage u p) w).
  rewrite process_staged. unfold staged, try_catch, bind.
  destruct (attempt E (FromImage u p) w) as [[found|e] w1]; cbn [fst snd].
  - exists w1.
    destruct (cleanupImageFile_trace p w1) as (rest & T & F).
    destruct (cleanupImageFile_returns E p w1) as [w2 Q].
    cbn [cleanup]. rewrite Q in *. cbn [snd] in T.
    exists rest. split; [reflexivity|]. split; [|exact F].
    destruct found; exact T.
  - exists w1.
    destruct (cleanupImageFile_trace p w1) as (rest & T & F).
    destruct (cleanupImageFile_returns E p w1) as [w2 Q].
    cbn [cleanup]. rewrite Q in *. cbn [snd throw] in *.
    exists rest. split; [reflexivity|]. split; [exact T | exact F].
Qed.

Lemma count_app (q : event -> bool) (a b : list event) :
  count q (a ++ b) = (count q a + count q b)%nat.
Proof. unfold count. rewrite filter_app, List.length_app. reflexivity. Qed.

Lemma count_none (q : event -> bool) (a : list event) :
  forallb (fun e => negb (q e)) a = true -> count q a = 0%nat.
Proof.
  unfold count. induction a as [|x a IH]; simpl; [reflexivity|].
  intros F. apply andb_true_iff in F. destruct F as [Fx Fa].
  apply negb_true_iff in Fx. rewrite Fx. apply IH. exact Fa.
Qed.

(** An image above the limit is refused when it has been read, before
    the recognizer is called. *)
Lemma too_large_refused (path : string) (b : buffer) (w : world) :
  path <> EmptyString ->
  find_file path (files w) = Some b ->
  readFile_fault E path = None ->
  maxSize < length b ->
  extractTextFromImage E (VStr path) w
  = (Throw (OCRError
              ("Image file is too large. Maximum size is 10 MB. Current size: "
               ++ megabytes (length b) ++ " MB") None),
     {| table := table w; files := files w; clock := clock w;
        issued := issued w;
        trace := (trace w ++ [Ext_readFile path])%list |}).
Proof.
  intros Hp Hf Hr Hl.
  unfold extractTextFromImage, existsSync, readFile, call_textract.
  unfold try_catch, bind, emit, ret, throw.
  destruct path as [|c path]; [congruence|]. cbn.
  rewrite Hf. cbn. rewrite Hr. cbn. rewrite Hf.
  apply Z.ltb_lt in Hl. unfold maxSize in Hl. cbn in Hl. rewrite Hl.
  reflexivity.
Qed.

End Cleanup.

Section CleanupOnce.
Context {H : Host} (E : env).

Lemma attempt_too_large (u : value) (uid path : string) (b : buffer)
  (w : world) :
  validateUserId u = Ok uid ->
  path <> EmptyString ->
  find_file path (files w) = Some b ->
  readFile_fault E path = None ->
  maxSize < length b ->
  attempt E (FromImage u (VStr path)) w
  = (Throw (OCRError
              ("Image file is too large. Maximum size is 10 MB. Current size: "
               ++ megabytes (length b) ++ " MB") None),
     {| table := table w; files := files w; clock := clock w;
        issued := issued w;
        trace := (trace w ++ [Ext_readFile path])%list |}).
Proof.
  intros Hu Hp Hf Hr Hl.
  unfold attempt, validated, candidate, text_of, userId_of.
  unfold bind at 1. unfold bind at 1. unfold bind at 1. unfold lift at 1.
  rewrite Hu. unfold bind at 1. unfold bind at 1.
  rewrite (too_large_refused E w Hp Hf Hr Hl). reflexivity.
Qed.

Lemma attempt_without_unlink (f : string -> option error) (r : request)
  (w : world) :
  attempt (with_unlink_fault E f) r w = attempt E r w.
Proof. destruct r; reflexivity. Qed.

(** C9.  A run of the image pipeline calls the cleanup of the image
    exactly once, whatever way it ends.  The cleanup returns normally
    whatever happens to the file, and the answer of the run is the same
    whether the deletion fails or not.  When the image is above 10 MB the
    run fails with the error of the size check, without a call of the
    recognizer, and the cleanup is still called. *)
Theorem image_cleanup_once (u p : value) (w : world) :
  exists evs,
    trace (snd (processTransactionFromImage E u p w))
    = (trace w ++ evs)%list /\
    count is_cleanup evs = 1%nat /\
    In (Call_cleanupImageFile p) evs /\
    (forall w0, exists w', cleanupImageFile E p w0 = (Ok tt, w')) /\
    (forall f,
       fst (processTransactionFromImage (with_unlink_fault E f) u p w)
       = fst (processTransactionFromImage E u p w)) /\
    (forall uid path b,
       validateUserId u = Ok uid ->
       p = VStr path -> path <> EmptyString ->
       find_file path (files w) = Some b ->
       readFile_fault E path = None ->
       maxSize < length b ->
       fst (processTransactionFromImage E u p w)
       = Throw (OCRError
                  ("Image file is too large. Maximum size is 10 MB. Current size: "
                   ++ megabytes (length b) ++ " MB") None) /\
       forallb (fun e => negb (is_recognition e)) evs = true).
Proof.
  destruct (image_run_trace E u p w) as (w1 & rest & A & T & Fc & Fr).
  destruct (silent_attempt E (FromImage u p) w) as [e1 [T1 F1]].
  rewrite A in T1.
  exists (e1 ++ Call_cleanupImageFile p :: rest)%list.
  split; [rewrite T, T1, <- app_assoc; reflexivity|].
  split.
  { rewrite count_app, (count_none _ _ F1).
    change (Call_cleanupImageFile p :: rest)
      with ([Call_cleanupImageFile p] ++ rest)%list.
    rewrite count_app, (count_none _ _ Fc). reflexivity. }
  split; [apply in_or_app; right; left; reflexivity|].
  split; [intros w0; apply cleanupImageFile_returns|].
  split.
  { intros f.
    change (processTransactionFromImage (with_unlink_fault E f) u p w)
      with (process (with_unlink_fault E f) (FromImage u p) w).
    change (processTransactionFromImage E u p w)
      with (process E (FromImage u p) w).
    rewrite !process_staged. unfold staged, try_catch, bind.
    rewrite attempt_without_unlink.
    destruct (attempt E (FromImage u p) w) as [[found|e] w2]; cbn [cleanup].
    - destruct (cleanupImageFile_returns (with_unlink_fault E f) p w2)
        as [wa Qa].
      destruct (cleanupImageFile_returns E p w2) as [wb Qb].
      rewrite Qa, Qb. destruct found; reflexivity.
    - destruct (cleanupImageFile_returns (with_unlink_fault E f) p w2)
        as [wa Qa].
      destruct (cleanupImageFile_returns E p w2) as [wb Qb].
      rewrite Qa, Qb. reflexivity. }
  intros uid path b Hu -> Hp Hf Hr Hl.
  pose proof (@attempt_too_large u uid path b w Hu Hp Hf Hr Hl) as AT.
  split.
  - change (processTransactionFromImage E u (VStr path) w)
      with (process E (FromImage u (VStr path)) w).
    rewrite process_staged. unfold staged, try_catch, bind. rewrite AT.
    cbn [cleanup].
    match goal with
    | |- context [cleanupImageFile E ?q ?x] =>
        destruct (cleanupImageFile_returns E q x) as [wb Qb]; rewrite Qb
    end.
    reflexivity.
  - rewrite AT in A. cbn [snd] in A. subst w1. cbn [trace] in T1.
    apply app_inv_head in T1. subst e1.
    rewrite List.forallb_app. cbn. exact Fr.
Qed.

End CleanupOnce.

Lemma image_cleanup_once_witness :
  validateUserId (VStr "alice") = Ok "alice" /\
  find_file "uploads/large.png" (files Sample.seen) = Some Sample.large /\
  maxSize < length Sample.large /\
  fst (@processTransactionFromImage isoHost Sample.E (VStr "alice")
         (VStr "uploads/large.png") Sample.seen)
  = Throw (OCRError
             "Image file is too large. Maximum size is 10 MB. Current size: 10.00 MB"
             None).
Proof.
  split; [reflexivity|]. split; [reflexivity|]. split; [reflexivity|].
  destruct (@image_cleanup_once isoHost Sample.E (VStr "alice")
              (VStr "uploads/large.png") Sample.seen)
    as (evs & _ & _ & _ & _ & _ & L).
  assert (N : "uploads/large.png" <> EmptyString) by discriminate.
  destruct (L "alice" "uploads/large.png" Sample.large
              eq_refl eq_refl N eq_refl eq_refl eq_refl) as [R _].
  exact R.
Defined.

(* ------------------------------------------------------------------ *)
(** ** The structured extractor: missing keys *)

Lemma startsWith_app (p s : string) : Str.startsWith p (p ++ s) = true.
Proof.
  induction p as [|c p IH]; simpl; [reflexivity|].
  rewrite Ascii.eqb_refl. exact IH.
Qed.

Lemma includes_here (p s : string) : Str.includes (p ++ s) p = true.
Proof.
  destruct (p ++ s) eqn:Q; simpl; rewrite <- Q, startsWith_app; reflexivity.
Qed.

Lemma includes_app_r (a b p : string) :
  Str.includes b p = true -> Str.includes (a ++ b) p = true.
Proof.
  intros Hb. induction a as [|c a IH]; simpl; [exact Hb|].
  rewrite IH. apply orb_true_r.
Qed.

Lemma startsWith_app_l (p a b : string) :
  Str.startsWith p a = true -> Str.startsWith p (a ++ b) = true.
Proof.
  revert a. induction p as [|c p IH]; intros a; [reflexivity|].
  destruct a as [|d a]; simpl; [discriminate|].
  intros Q. apply andb_true_iff in Q. destruct Q as [Q1 Q2].
  rewrite Q1. simpl. apply IH. exact Q2.
Qed.

Lemma includes_app_l (a b p : string) :
  Str.includes a p = true -> Str.includes (a ++ b) p = true.
Proof.
  induction a as [|c a IH]; simpl.
  - rewrite orb_false_r. intros Q. destruct p; [|discriminate].
    destruct b; reflexivity.
  - intros Q. apply orb_true_iff in Q. destruct Q as [Q|Q].
    + change (String c (a ++ b)) with (String c a ++ b).
      rewrite (@startsWith_app_l p (String c a) b Q). reflexivity.
    + rewrite (IH Q). apply orb_true_r.
Qed.

Lemma app_empty_r (s : string) : s ++ EmptyString = s.
Proof. induction s; simpl; congruence. Qed.

Lemma includes_join (sep k : string) (l : list string) :
  In k l -> Str.includes (Str.join sep l) k = true.
Proof.
  induction l as [|x l IH]; [intros []|].
  intros [->|I].
  - destruct l; simpl.
    + rewrite <- (app_empty_r k) at 1. apply includes_here.
    + apply includes_here.
  - destruct l as [|y l]; [destruct I|].
    change (Str.join sep (x :: y :: l))
      with (x ++ sep ++ Str.join sep (y :: l)).
    apply includes_app_r, includes_app_r, IH, I.
Qed.

Section MissingKeys.
Context {H : Host} (E : env).

Lemma missingFields_ok (data : value) (fields : list string) :
  is_nullish data = false ->
  missingFields data fields
  = Ok (filter (fun k => is_nullish (field data k)) fields).
Proof.
  intros N. induction fields as [|k fields IH]; [reflexivity|].
  simpl. rewrite IH.
  assert (G : getprop data k = Ok (field data k))
    by (destruct data; try reflexivity; discriminate).
  rewrite G. simpl. destruct (is_nullish (field data k)); reflexivity.
Qed.

Lemma len_trim_nonzero (s : string) :
  Str.trim s <> EmptyString -> (Str.len (Str.trim s) =? 0) = false.
Proof.
  intros N. apply Z.eqb_neq. unfold Str.len.
  destruct (Str.trim s); [congruence|]. simpl. lia.
Qed.

(** C4.  When the text of the response, once cleaned, parses to a value
    (not [null]) in which some of the required keys [amount], [date],
    [merchant], [category], [type] are absent or [null], the extractor
    fails with an LLMError whose message lists every such key, all of
    them, in that order, before the text of the response. *)
Theorem missing_fields_reported (text content : string) (data : value)
  (w : world) :
  Str.trim text <> EmptyString ->
  (exists k, OPENAI_API_KEY E = Some k /\ k <> EmptyString) ->
  completion E ("Extract transaction information from this text: " ++ text)
  = Ok (Some content) ->
  content <> EmptyString ->
  JSON_parse (Fence.cleanJson content) = Ok data ->
  is_nullish data = false ->
  missing_of data <> [] ->
  let message :=
    "Missing required fields in LLM response: "
    ++ Str.join ", " (missing_of data) ++ ". Response: " ++ stringified data in
  fst (extractTransactionFromText E (VStr text) w)
  = Throw (LLMError message None) /\
  (forall k, In k requiredFields -> is_nullish (field data k) = true ->
     In k (missing_of data) /\ Str.includes message k = true).
Proof.
  intros Ht [key [Hk Hk']] Hc Hc' Hp Hn Hm message.
  split.
  - unfold extractTransactionFromText, try_catch, extract_body.
    assert (T : truthy (VStr text) = true).
    { destruct text; [exfalso; apply Ht; reflexivity | reflexivity]. }
    rewrite T, (@len_trim_nonzero text Ht), Hk.
    assert (K : truthy (VStr key) = true)
      by (destruct key; [congruence | reflexivity]).
    rewrite K. cbn [negb orb].
    unfold create_completion, bind, emit, lift. rewrite Hc.
    destruct content as [|c content]; [congruence|].
    rewrite Hp. cbn [ret]. rewrite (@missingFields_ok data requiredFields Hn).
    fold (missing_of data).
    destruct (missing_of data) as [|m ms] eqn:M; [congruence|].
    reflexivity.
  - intros k Ik Nk.
    assert (I : In k (missing_of data))
      by (apply filter_In; split; assumption).
    split; [exact I|].
    unfold message. apply includes_app_r, includes_app_l, includes_join, I.
Qed.

End MissingKeys.

Lemma missing_fields_reported_witness :
  fst (@extractTransactionFromText isoHost (Sample.answering Sample.incomplete)
         (VStr "lunch") Sample.empty)
  = Throw (LLMError
             ("Missing required fields in LLM response: merchant, type. Response: "
              ++ dq "{'amount':5,'date':'2024-01-15','category':'Food'}")
             None).
Proof.
  assert (T : Str.trim "lunch" <> EmptyString) by discriminate.
  assert (K : exists k, OPENAI_API_KEY (Sample.answering Sample.incomplete)
                        = Some k /\ k <> EmptyString)
    by (exists "sk-test"; split; [reflexivity | discriminate]).
  assert (C : Sample.incomplete <> EmptyString) by discriminate.
  assert (M : missing_of
                (VObj [("amount", VNum (Num.parseFloat "5"));
                       ("date", VStr "2024-01-15");
                       ("category", VStr "Food")]) <> [])
    by discriminate.
  exact (proj1 (@missing_fields_reported isoHost
                  (Sample.answering Sample.incomplete) "lunch"
                  Sample.incomplete _ Sample.empty T K eq_refl C eq_refl
                  eq_refl M)).
Defined.

(* ------------------------------------------------------------------ *)
(** ** The structured extractor: fenced responses *)

(** Whatever follows a fence with the tag [json], the cleaned text
    starts with the tag. *)
Lemma cleanJson_keeps_tag (rest : string) :
  exists t, Fence.cleanJson (Fence.fence ++ "json" ++ rest) = String "j" t.
Proof.
  unfold Fence.cleanJson, Str.trim.
  change (Fence.strip_newlines (Fence.fence ++ "json" ++ rest))
    with (Fence.fence ++ "json" ++ Fence.strip_newlines rest).
  change (Fence.strip_fences (Fence.fence ++ "json" ++ Fence.strip_newlines rest))
    with (String "j" (Fence.strip_fences ("son" ++ Fence.strip_newlines rest))).
  cbn [Str.trimStart]. change (Str.is_ws "j") with false. cbn iota.
  cbn [Str.trimEnd].
  destruct (Str.trimEnd (Fence.strip_fences ("son" ++ Fence.strip_newlines rest)));
    eexists; reflexivity.
Qed.

(** No JSON text starts with the letter j. *)
Lemma parse_text_j (t : string) : Json.parse_text (String "j" t) = None.
Proof. reflexivity. Qed.

(** C5, at a response in a fence tagged [json]: the cleaning takes the
    backticks and the line feeds away and leaves the tag, the text does
    not parse and the extractor fails; in a fence without a tag the same
    answer parses. *)
Lemma fenced_json_not_parsed :
  Fence.cleanJson Sample.fenced_json = "json" ++ Sample.answer /\
  Json.parse_text (Fence.cleanJson Sample.fenced_json) = None /\
  fst (@extractTransactionFromText isoHost
         (Sample.answering Sample.fenced_json) (VStr "lunch") Sample.empty)
  = Throw (LLMError
             "Failed to parse JSON response from OpenAI: Unexpected token in JSON"
             (Some (SyntaxError "Unexpected token in JSON"))) /\
  Fence.cleanJson Sample.fenced_bare = Sample.answer /\
  Json.parse_text (Fence.cleanJson Sample.fenced_bare)
  = Json.parse_text Sample.answer /\
  Json.parse_text Sample.answer <> None.
Proof.
  repeat split; try (vm_compute; reflexivity).
  vm_compute. discriminate.
Qed.

(* ------------------------------------------------------------------ *)
(** ** The duplicate resolver *)

(** The records the resolver is after: same user, merchant and date,
    amount within the tolerance. *)
Example tolerance_samples :
  map (fun a => within_tolerance (VNum (Num.parseFloat a))
                                 (VNum (Num.parseFloat "100")))
      ["104.99"; "105"; "105.01"; "95"; "94.99"; "100"]
  = [true; true; false; true; false; true].
Proof. vm_compute. reflexivity. Qed.

(** C1, at a table of more than a hundred items with no index: with the
    index the earlier purchase of the user is found; without it the scan
    evaluates the first hundred items only, and the purchase, the
    hundred-and-first, is missed. *)
Lemma fallback_misses_duplicate :
  fst (@checkForDuplicates Sample.E "alice" Sample.purchase Sample.crowded)
  = Ok [Sample.item "alice" "tx-1" (Sample.morning - 1000) "12.40"] /\
  fst (@checkForDuplicates Sample.E_no_index "alice" Sample.purchase
         Sample.crowded)
  = Ok [] /\
  In (Sample.item "alice" "tx-1" (Sample.morning - 1000) "12.40")
     (table Sample.crowded).
Proof.
  split; [vm_compute; reflexivity|].
  split; [vm_compute; reflexivity|].
  unfold Sample.crowded, Sample.world_with. cbn [table].
  apply in_or_app. right. left. reflexivity.
Qed.

(* ------------------------------------------------------------------ *)
(** ** Listing by user *)

(** C8, at two purchases of one user: the list comes by descending
    identifier, and the purchase made earlier comes first. *)
Lemma listing_not_newest_first :
  exists older newer w,
    @getUserTransactions Sample.E "alice" None Sample.two
    = (Ok [older; newer], w) /\
    Item.timestamp older < Item.timestamp newer /\
    String.ltb (Item.transactionId newer) (Item.transactionId older) = true.
Proof.
  do 3 eexists. split; [vm_compute; reflexivity|].
  split; vm_compute; reflexivity.
Qed.

(* ================================================================== *)
(** * Further properties of the code *)

(* ------------------------------------------------------------------ *)
(** ** Trimming *)

Lemma trimEnd_idempotent (s : string) :
  Str.trimEnd (Str.trimEnd s) = Str.trimEnd s.
Proof.
  induction s as [|c r IH]; [reflexivity|].
  cbn [Str.trimEnd].
  destruct (Str.trimEnd r) as [|d r'] eqn:Q.
  - destruct (Str.is_ws c) eqn:W; [reflexivity|].
    cbn [Str.trimEnd]. rewrite W. reflexivity.
  - cbn [Str.trimEnd]. cbn [Str.trimEnd] in IH.
    destruct (Str.trimEnd r') as [|d' r''] eqn:Q'.
    + destruct (Str.is_ws d); [discriminate|]. rewrite IH. reflexivity.
    + rewrite IH. reflexivity.
Qed.

Lemma trimStart_head (s : string) :
  match Str.trimStart s with
  | EmptyString => True
  | String c _ => Str.is_ws c = false
  end.
Proof.
  induction s as [|c r IH]; simpl; [exact I|].
  destruct (Str.is_ws c) eqn:W; [exact IH | exact W].
Qed.

Lemma trimEnd_head (c : ascii) (r : string) :
  Str.is_ws c = false ->
  exists r', Str.trimEnd (String c r) = String c r'.
Proof.
  intros W. cbn [Str.trimEnd].
  destruct (Str.trimEnd r); [rewrite W|]; eexists; reflexivity.
Qed.

(** Trimming what is trimmed changes nothing. *)
Lemma trim_idempotent (s : string) : Str.trim (Str.trim s) = Str.trim s.
Proof.
  unfold Str.trim.
  pose proof (trimStart_head s) as Hd.
  destruct (Str.trimStart s) as [|c r]; [reflexivity|].
  destruct (@trimEnd_head c r Hd) as [r' Q].
  rewrite Q. cbn [Str.trimStart]. rewrite Hd. rewrite <- Q.
  apply trimEnd_idempotent.
Qed.

Lemma trim_nonempty_truthy (s : string) :
  0 < Str.len (Str.trim s) -> truthy (VStr (Str.trim s)) = true.
Proof.
  destruct (Str.trim s); simpl; [unfold Str.len; simpl; lia | reflexivity].
Qed.

(* ------------------------------------------------------------------ *)
(** ** The field validator: names *)

Lemma trim_nonempty_source (s : string) :
  0 < Str.len (Str.trim s) -> truthy (VStr s) = true.
Proof.
  destruct s; [unfold Str.len; cbn; lia | reflexivity].
Qed.

Lemma validateUserId_ok (v : value) (u : string) :
  validateUserId v = Ok u ->
  exists s, v = VStr s /\ u = Str.trim s /\ 0 < Str.len u <= 100.
Proof.
  unfold validateUserId. destruct v; try discriminate.
  destruct (negb (truthy (VStr s))); [discriminate|].
  destruct (Z.eqb_spec (Str.len (Str.trim s)) 0); [discriminate|].
  destruct (Z.ltb_spec 100 (Str.len (Str.trim s))); [discriminate|].
  intros E. inversion E. exists s. subst. unfold Str.len in *.
  repeat split; lia.
Qed.

Lemma validateUserId_field (v : value) (e : error) :
  validateUserId v = Throw e ->
  is_ValidationError e = true /\ error_field e = Some "userId".
Proof.
  unfold validateUserId, invalid.
  destruct v; try (intros E; inversion E; split; reflexivity).
  repeat match goal with
         | |- context [if ?c then _ else _] => destruct c
         end; intros E; inversion E; split; reflexivity.
Qed.

(** Runs a name check on a string whose trimmed form is within the
    bound. *)
Ltac within_bound B :=
  rewrite (@trim_nonempty_source _ (proj1 B)); cbn [negb];
  match goal with
  | |- context [Str.len ?t =? 0] =>
      replace (Str.len t =? 0) with false
        by (symmetry; apply Z.eqb_neq; lia)
  end;
  match goal with
  | |- context [?n <? Str.len ?t] =>
      replace (n <? Str.len t) with false
        by (symmetry; apply Z.ltb_ge; lia)
  end;
  reflexivity.

(** X1.  The merchant check, the category check and the user check accept
    exactly the strings whose trimmed form is not empty and within the
    bound (200, 100 and 100 characters), and return that trimmed form;
    they accept what they return, unchanged; and what they refuse is
    refused with a ValidationError that names the field. *)
Theorem name_checks_trim_and_bound (v : value) :
  (forall m, validateMerchant v = Ok m <->
     exists s, v = VStr s /\ m = Str.trim s /\ 0 < Str.len m <= 200) /\
  (forall c, validateCategory v = Ok c <->
     exists s, v = VStr s /\ c = Str.trim s /\ 0 < Str.len c <= 100) /\
  (forall u, validateUserId v = Ok u <->
     exists s, v = VStr s /\ u = Str.trim s /\ 0 < Str.len u <= 100) /\
  (forall m, validateMerchant v = Ok m -> validateMerchant (VStr m) = Ok m) /\
  (forall c, validateCategory v = Ok c -> validateCategory (VStr c) = Ok c) /\
  (forall u, validateUserId v = Ok u -> validateUserId (VStr u) = Ok u) /\
  (forall e, validateMerchant v = Throw e ->
     is_ValidationError e = true /\ error_field e = Some "merchant") /\
  (forall e, validateCategory v = Throw e ->
     is_ValidationError e = true /\ error_field e = Some "category") /\
  (forall e, validateUserId v = Throw e ->
     is_ValidationError e = true /\ error_field e = Some "userId").
Proof.
  assert (again : forall s, Str.trim (Str.trim s) = Str.trim s)
    by apply trim_idempotent.
  repeat split.
  - apply validateMerchant_ok.
  - intros (s & -> & -> & B). unfold validateMerchant. within_bound B.
  - apply validateCategory_ok.
  - intros (s & -> & -> & B). unfold validateCategory. within_bound B.
  - apply validateUserId_ok.
  - intros (s & -> & -> & B). unfold validateUserId. within_bound B.
  - intros m E. destruct (@validateMerchant_ok v m E) as (s & -> & -> & B).
    unfold validateMerchant. rewrite again.
    rewrite (@trim_nonempty_truthy s (proj1 B)). cbn [negb].
    replace (Str.len (Str.trim s) =? 0) with false
      by (symmetry; apply Z.eqb_neq; lia).
    replace (200 <? Str.len (Str.trim s)) with false
      by (symmetry; apply Z.ltb_ge; lia).
    reflexivity.
  - intros m E. destruct (@validateCategory_ok v m E) as (s & -> & -> & B).
    unfold validateCategory. rewrite again.
    rewrite (@trim_nonempty_truthy s (proj1 B)). cbn [negb].
    replace (Str.len (Str.trim s) =? 0) with false
      by (symmetry; apply Z.eqb_neq; lia).
    replace (100 <? Str.len (Str.trim s)) with false
      by (symmetry; apply Z.ltb_ge; lia).
    reflexivity.
  - intros m E. destruct (@validateUserId_ok v m E) as (s & -> & -> & B).
    unfold validateUserId. rewrite again.
    rewrite (@trim_nonempty_truthy s (proj1 B)). cbn [negb].
    replace (Str.len (Str.trim s) =? 0) with false
      by (symmetry; apply Z.eqb_neq; lia).
    replace (100 <? Str.len (Str.trim s)) with false
      by (symmetry; apply Z.ltb_ge; lia).
    reflexivity.
  - revert H. unfold validateMerchant, invalid.
    destruct v; try (intros E; inversion E; reflexivity).
    repeat match goal with
           | |- context [if ?c then _ else _] => destruct c
           end; intros E; inversion E; reflexivity.
  - apply (@validateMerchant_field v e H).
  - revert H. unfold validateCategory, invalid.
    destruct v; try (intros E; inversion E; reflexivity).
    repeat match goal with
           | |- context [if ?c then _ else _] => destruct c
           end; intros E; inversion E; reflexivity.
  - apply (@validateCategory_field v e H).
  - apply (proj1 (@validateUserId_field v e H)).
  - apply (proj2 (@validateUserId_field v e H)).
Qed.

Lemma name_checks_trim_and_bound_witness :
  validateMerchant (VStr "  Corner Cafe ") = Ok "Corner Cafe" /\
  validateMerchant (VStr "Corner Cafe") = Ok "Corner Cafe".
Proof.
  split; [reflexivity|].
  apply (proj1 (proj2 (proj2 (proj2
           (@name_checks_trim_and_bound (VStr "  Corner Cafe ")))))).
  reflexivity.
Defined.

(* ------------------------------------------------------------------ *)
(** ** The field validator: type, and the order of the checks *)

Section TypeAndOrder.
Context {H : Host}.

Lemma includes_self (s : string) : Str.includes s s = true.
Proof. rewrite <- (app_empty_r s) at 1. apply includes_here. Qed.

(** X2.  The type check reads its input without regard to case: a string is
    accepted, and returned in lower case, exactly when its lower-case
    form is [income] or [expense]; any other string is refused with the
    field [type] and a message that shows the text received. *)
Theorem validateTransactionType_spec (s : string) :
  (str_in (Str.toLowerCase s) validTypes = true ->
   validateTransactionType (VStr s) = Ok (Str.toLowerCase s)) /\
  (str_in (Str.toLowerCase s) validTypes = false ->
   exists msg, validateTransactionType (VStr s) = invalid msg "type" /\
               Str.includes msg s = true).
Proof.
  unfold validateTransactionType. split.
  - intros I. destruct s as [|c s]; [discriminate|].
    change (truthy (VStr (String c s))) with true. cbn [negb].
    rewrite I. reflexivity.
  - intros I. destruct s as [|c s].
    + eexists. split; reflexivity.
    + change (truthy (VStr (String c s))) with true. cbn [negb].
      rewrite I. cbn [negb ToString]. eexists. split; [reflexivity|].
      apply includes_app_r, includes_self.
Qed.

Lemma body_on_object (today : Z) (props : list (string * value)) :
  validateTransaction_body today (VObj props) =
  rbind (validateAmount (lookup props "amount")) (fun amount =>
  rbind (validateDate today (lookup props "date")) (fun date =>
  rbind (validateTransactionType (lookup props "type")) (fun type =>
  rbind (validateMerchant (lookup props "merchant")) (fun merchant =>
  rbind (validateCategory (lookup props "category")) (fun category =>
  rbind (validateCurrency (or_else (lookup props "currency") (VStr "USD")))
    (fun currency =>
  let description :=
    if truthy (lookup props "description")
    then Str.trim (ToString (lookup props "description"))
    else EmptyString in
  if 500 <? Str.len description then
    invalid "Description is too long (max 500 characters)" "description"
  else
    Ok {| Validated.amount := amount;
          Validated.date := date;
          Validated.type := type;
          Validated.merchant := merchant;
          Validated.category := category;
          Validated.currency := currency;
          Validated.description := description;
          Validated.source := or_else (lookup props "source") (VStr "manual");
          Validated.rawText :=
            or_else (lookup props "rawText") (VStr EmptyString) |})))))).
Proof. reflexivity. Qed.


End TypeAndOrder.


Lemma validateTransactionType_spec_witness :
  @validateTransactionType isoHost (VStr "Income") = Ok "income" /\
  exists msg, @validateTransactionType isoHost (VStr "refund")
              = invalid msg "type" /\ Str.includes msg "refund" = true.
Proof.
  split.
  - apply (proj1 (@validateTransactionType_spec isoHost "Income")).
    reflexivity.
  - apply (proj2 (@validateTransactionType_spec isoHost "refund")).
    reflexivity.
Defined.

(* ------------------------------------------------------------------ *)
(** ** The structured extractor: failures and requests *)

Section Extractor.
Context {H : Host} (E : env).

(** The handler of the extractor raises an LLMError and does nothing
    else. *)
Lemma extract_handler_throws (e : error) (w : world) :
  exists e', @extract_handler e w = (Throw e', w) /\ is_LLMError e' = true.
Proof.
  unfold extract_handler.
  destruct (is_LLMError e) eqn:L; [exists e; split; [reflexivity|exact L]|].
  destruct (error_response e) as [[st dm]|].
  - repeat match goal with
           | |- context [if ?c then _ else _] => destruct c
           end; eexists; split; reflexivity.
  - destruct (error_apiStatus e) as [st|]; [|eexists; split; reflexivity].
    destruct st as [st|]; [|eexists; split; reflexivity].
    repeat match goal with
           | |- context [match ?x with _ => _ end] => destruct x
           end; eexists; split; reflexivity.
Qed.

(** The post-processing reads the clock at most and always returns. *)
Lemma normalize_returns (props : list (string * value)) (w : world) :
  exists props', @normalize H props w = (Ok props', w).
Proof.
  unfold normalize, bind, getTodayDate, now, ret.
  set (props1 := match lookup props "amount" with
                 | VStr a => assign props "amount" (VNum (Num.parseFloat a))
                 | _ => props
                 end).
  destruct (truthy (lookup props1 "date")
            && negb (Fence.is_date_text (ToString (lookup props1 "date"))));
    [destruct (Date_new (lookup props1 "date"))|];
    eexists; reflexivity.
Qed.

(** The body of the extractor adds the one request to the trace, or
    nothing, and leaves the rest of the world alone. *)
Lemma extract_body_trace (text : value) (w : world) :
  exists evs,
    snd (extract_body E text w)
    = {| table := table w; files := files w; clock := clock w;
         issued := issued w; trace := (trace w ++ evs)%list |} /\
    (evs = [] \/ exists t, text = VStr t /\
       evs = [Ext_completion
                ("Extract transaction information from this text: " ++ t)]).
Proof.
  assert (same : forall w0 : world,
            w0 = {| table := table w0; files := files w0; clock := clock w0;
                    issued := issued w0;
                    trace := (trace w0 ++ [])%list |}).
  { intros [t f c i tr]. cbn. rewrite app_nil_r. reflexivity. }
  unfold extract_body.
  destruct text as [| | | |t| |]; try (exists []; split; [apply same|auto]).
  destruct (negb (truthy (VStr t)) || (Str.len (Str.trim t) =? 0));
    [exists []; split; [apply same|auto]|].
  destruct (negb _); [exists []; split; [apply same|auto]|].
  eexists. split; [|right; exists t; split; reflexivity].
  unfold create_completion, bind, emit, lift. cbn [fst snd].
  destruct (completion E _) as [[content|]|e]; try reflexivity.
  destruct content as [|c content]; [reflexivity|].
  destruct (JSON_parse _) as [data|pe]; [|reflexivity].
  cbn [ret throw].
  destruct (missingFields data requiredFields) as [missing|e]; [|reflexivity].
  destruct (0 <? List.length missing)%nat; [reflexivity|].
  destruct data; try reflexivity.
  match goal with
  | |- context [normalize ?p ?x] =>
      destruct (normalize_returns p x) as [props' Q]; rewrite Q
  end.
  reflexivity.
Qed.

(** Whatever the extractor raises is an LLMError. *)
Lemma extract_throws (text : value) (w : world) (e : error) :
  fst (extractTransactionFromText E text w) = Throw e -> is_LLMError e = true.
Proof.
  unfold extractTransactionFromText, try_catch.
  destruct (extract_body E text w) as [[v|e0] w1]; [discriminate|].
  destruct (extract_handler_throws e0 w1) as (e' & Q & L). rewrite Q.
  cbn [fst]. intros R. inversion R. subst. exact L.
Qed.

(** X4.  The extractor makes at most one completion request, and none when
    the text is not a string, is blank, or the API key is not
    configured: then it fails at once and the world is untouched.
    Whatever it raises is an LLMError. *)
Theorem extractor_requests_and_failures (text : value) (w : world) :
  (exists evs,
     trace (snd (extractTransactionFromText E text w))
     = (trace w ++ evs)%list /\
     (count is_completion evs <= 1)%nat /\
     forallb is_completion evs = true) /\
  (forall e, fst (extractTransactionFromText E text w) = Throw e ->
     is_LLMError e = true) /\
  ((is_string text = false \/
    exists t, text = VStr t /\ Str.trim t = EmptyString) ->
   extractTransactionFromText E text w
   = (Throw (LLMError "Text input is required and cannot be empty" None), w)) /\
  (forall t, text = VStr t -> Str.trim t <> EmptyString ->
     (OPENAI_API_KEY E = None \/ OPENAI_API_KEY E = Some EmptyString) ->
     extractTransactionFromText E text w
     = (Throw (LLMError
                 "OpenAI API key is not configured. Please set OPENAI_API_KEY in your .env file."
                 None), w)).
Proof.
  split; [|split; [|split]].
  - destruct (extract_body_trace text w) as [evs [T C]].
    exists evs. unfold extractTransactionFromText, try_catch.
    destruct (extract_body E text w) as [[v|e] w1]; cbn [snd] in *.
    + subst w1. cbn [trace]. split; [reflexivity|].
      destruct C as [->|(t & _ & ->)]; cbn; auto.
    + destruct (extract_handler_throws e w1) as (e' & Q & _). rewrite Q.
      cbn [snd]. subst w1. cbn [trace]. split; [reflexivity|].
      destruct C as [->|(t & _ & ->)]; cbn; auto.
  - intros e. apply extract_throws.
  - intros B. unfold extractTransactionFromText, try_catch, extract_body.
    destruct B as [N|(t & -> & B)].
    + destruct text; try discriminate; reflexivity.
    + rewrite B. change (Str.len EmptyString =? 0) with true.
      rewrite orb_true_r. reflexivity.
  - intros t -> B K. unfold extractTransactionFromText, try_catch, extract_body.
    assert (T : truthy (VStr t) = true).
    { destruct t; [exfalso; apply B; reflexivity | reflexivity]. }
    rewrite T, (@len_trim_nonzero t B). cbn [negb orb].
    destruct K as [-> | ->]; reflexivity.
Qed.

End Extractor.

Lemma extractor_requests_and_failures_witness :
  @extractTransactionFromText isoHost Sample.E (VStr "   ") Sample.seen
  = (Throw (LLMError "Text input is required and cannot be empty" None),
     Sample.seen).
Proof.
  destruct (@extractor_requests_and_failures isoHost Sample.E (VStr "   ")
              Sample.seen) as (_ & _ & B & _).
  apply B. right. exists "   ". split; reflexivity.
Defined.

(* ------------------------------------------------------------------ *)
(** ** The structured extractor: what it returns *)

Lemma lookup_assign_same (props : list (string * value)) (k : string)
  (v : value) :
  lookup (assign props k v) k = v.
Proof.
  induction props as [|[k' v'] r IH]; simpl.
  - rewrite String.eqb_refl. reflexivity.
  - destruct (String.eqb k' k) eqn:Q; simpl.
    + rewrite String.eqb_refl. reflexivity.
    + rewrite Q. exact IH.
Qed.

Lemma lookup_assign_other (props : list (string * value)) (k k' : string)
  (v : value) :
  k' <> k -> lookup (assign props k v) k' = lookup props k'.
Proof.
  intros N. induction props as [|[k0 v0] r IH]; simpl.
  - destruct (String.eqb_spec k k'); [congruence | reflexivity].
  - destruct (String.eqb_spec k0 k) as [->|Q]; simpl.
    + destruct (String.eqb_spec k k'); [congruence|].
      reflexivity.
    + rewrite IH. reflexivity.
Qed.

Lemma nullish_assign (props : list (string * value)) (k k' : string)
  (v : value) :
  is_nullish v = false ->
  is_nullish (lookup props k') = false ->
  is_nullish (lookup (assign props k v) k') = false.
Proof.
  intros Nv Nk. destruct (String.eqb_spec k' k) as [->|Q].
  - rewrite lookup_assign_same. exact Nv.
  - rewrite (@lookup_assign_other props k k' v Q). exact Nk.
Qed.

Lemma or_else_truthy (a b : value) :
  truthy b = true -> truthy (or_else a b) = true.
Proof. intros T. unfold or_else. destruct (truthy a) eqn:Q; assumption. Qed.

Lemma or_else_defined (a b : value) :
  is_nullish b = false -> is_nullish (or_else a b) = false.
Proof.
  intros T. unfold or_else. destruct (truthy a) eqn:Q; [|exact T].
  destruct a; try discriminate; reflexivity.
Qed.

Section ExtractorResult.
Context {H : Host} (E : env).

Lemma normalize_shape (props props' : list (string * value)) (w w' : world) :
  @normalize H props w = (Ok props', w') ->
  (forall k, is_nullish (lookup props k) = false ->
             is_nullish (lookup props' k) = false) /\
  truthy (lookup props' "currency") = true /\
  is_nullish (lookup props' "description") = false /\
  is_string (lookup props' "amount") = false.
Proof.
  unfold normalize, bind, getTodayDate, now, ret.
  set (props1 := match lookup props "amount" with
                 | VStr a => assign props "amount" (VNum (Num.parseFloat a))
                 | _ => props
                 end).
  assert (A1 : forall k, is_nullish (lookup props k) = false ->
                         is_nullish (lookup props1 k) = false).
  { intros k N. unfold props1. destruct (lookup props "amount"); try exact N.
    apply nullish_assign; [reflexivity | exact N]. }
  assert (S1 : is_string (lookup props1 "amount") = false).
  { unfold props1. destruct (lookup props "amount") eqn:Q;
      try (rewrite Q; reflexivity).
    rewrite lookup_assign_same. reflexivity. }
  assert (step : forall props2,
            (forall k, is_nullish (lookup props1 k) = false ->
                       is_nullish (lookup props2 k) = false) ->
            lookup props2 "amount" = lookup props1 "amount" ->
            let props3 :=
              assign props2 "currency"
                (or_else (lookup props2 "currency") (VStr "USD")) in
            let out :=
              assign props3 "description"
                (or_else (lookup props3 "description") (VStr EmptyString)) in
            (forall k, is_nullish (lookup props k) = false ->
                       is_nullish (lookup out k) = false) /\
            truthy (lookup out "currency") = true /\
            is_nullish (lookup out "description") = false /\
            is_string (lookup out "amount") = false).
  { intros props2 A2 S2 props3 out. unfold out, props3.
    split; [|split; [|split]].
    - intros k N. apply nullish_assign; [apply or_else_defined; reflexivity|].
      apply nullish_assign; [apply or_else_defined; reflexivity|].
      apply A2, A1, N.
    - rewrite lookup_assign_other by discriminate.
      rewrite lookup_assign_same. apply or_else_truthy. reflexivity.
    - rewrite lookup_assign_same. apply or_else_defined. reflexivity.
    - rewrite !lookup_assign_other by discriminate. rewrite S2. exact S1. }
  destruct (truthy (lookup props1 "date")
            && negb (Fence.is_date_text (ToString (lookup props1 "date"))));
    [destruct (Date_new (lookup props1 "date"))|];
    intros Q; inversion Q; subst; apply step;
    try (intros k N; apply nullish_assign; [reflexivity | exact N]);
    try (apply lookup_assign_other; discriminate);
    auto.
Qed.

Lemma missing_none (data : value) :
  missingFields data requiredFields = Ok [] ->
  exists props, data = VObj props /\
    forall k, In k requiredFields -> is_nullish (lookup props k) = false.
Proof.
  intros M.
  assert (N : is_nullish data = false).
  { destruct data; try reflexivity; discriminate. }
  rewrite (@missingFields_ok data requiredFields N) in M.
  assert (F : filter (fun k => is_nullish (field data k)) requiredFields = [])
    by congruence.
  clear M.
  destruct data as [| | | | | |props]; try discriminate.
  exists props. split; [reflexivity|].
  intros k I. destruct (is_nullish (lookup props k)) eqn:Q; [|reflexivity].
  assert (X : In k (filter (fun k => is_nullish (field (VObj props) k))
                           requiredFields))
    by (apply filter_In; split; assumption).
  rewrite F in X. destruct X.
Qed.

Lemma extract_returns (text : value) (w w' : world) (v : value) :
  extractTransactionFromText E text w = (Ok v, w') ->
  exists props,
    v = VObj props /\
    (forall k, In k requiredFields -> is_nullish (lookup props k) = false) /\
    truthy (lookup props "currency") = true /\
    is_nullish (lookup props "description") = false /\
    is_string (lookup props "amount") = false.
Proof.
  unfold extractTransactionFromText, try_catch.
  destruct (extract_body E text w) as [[v0|e] w1] eqn:B.
  2:{ destruct (extract_handler_throws e w1) as (e' & Q & _). rewrite Q.
      discriminate. }
  intros Q. inversion Q. subst v0 w1. clear Q.
  unfold extract_body in B.
  destruct text as [| | | |t| |]; try discriminate.
  destruct (negb (truthy (VStr t)) || (Str.len (Str.trim t) =? 0));
    [discriminate|].
  destruct (negb _); [discriminate|].
  unfold create_completion, bind, emit, lift in B. cbn [fst snd] in B.
  destruct (completion E _) as [[content|]|e]; try discriminate.
  destruct content as [|c content]; [discriminate|].
  destruct (JSON_parse _) as [data|pe]; [|discriminate].
  cbn [ret throw] in B.
  destruct (missingFields data requiredFields) as [missing|e] eqn:M;
    [|discriminate].
  destruct missing as [|m ms]; [|discriminate].
  cbn [List.length Nat.ltb Nat.leb] in B.
  destruct (missing_none _ M) as (props & -> & R).
  match type of B with
  | context [normalize ?p ?x] =>
      destruct (normalize p x) as [[props'|e] w2] eqn:Nz; [|discriminate]
  end.
  inversion B. subst v w2.
  destruct (normalize_shape _ _ Nz) as (K & C & D & A).
  exists props'. split; [reflexivity|].
  split; [intros k I; apply K, R, I|]. auto.
Qed.

(** X5.  What the extractor returns, when it returns, is an object in which
    the five required keys are present and not [null], [currency] is
    filled (with [USD] when the response had none), [description] is
    present, and [amount] is not a string (a string is read by
    [parseFloat]). *)
Theorem extractor_result_shape (text : value) (w w' : world) (v : value) :
  extractTransactionFromText E text w = (Ok v, w') ->
  exists props,
    v = VObj props /\
    (forall k, In k requiredFields -> is_nullish (lookup props k) = false) /\
    truthy (lookup props "currency") = true /\
    is_nullish (lookup props "description") = false /\
    is_string (lookup props "amount") = false.
Proof. apply extract_returns. Qed.

End ExtractorResult.

Lemma extractor_result_shape_witness :
  exists props,
    fst (@extractTransactionFromText isoHost
           (Sample.answering
              (dq "{'amount': '7.25', 'date': '2024-01-15', 'merchant': 'Kiosk', 'category': 'Food', 'type': 'expense'}"))
           (VStr "a snack") Sample.empty) = Ok (VObj props) /\
    lookup props "amount" = VNum (Num.parseFloat "7.25") /\
    lookup props "currency" = VStr "USD" /\
    is_string (lookup props "amount") = false.
Proof.
  destruct (@extractTransactionFromText isoHost
              (Sample.answering
                 (dq "{'amount': '7.25', 'date': '2024-01-15', 'merchant': 'Kiosk', 'category': 'Food', 'type': 'expense'}"))
              (VStr "a snack") Sample.empty) as [r w'] eqn:Q.
  assert (R : exists v, r = Ok v).
  { vm_compute in Q. inversion Q. eexists; reflexivity. }
  destruct R as [v ->].
  destruct (@extractor_result_shape isoHost _ _ _ _ _ Q)
    as (props & -> & _ & _ & _ & A).
  exists props. split; [reflexivity|].
  vm_compute in Q. inversion Q. subst props.
  repeat split.
Defined.

(* ------------------------------------------------------------------ *)
(** ** The duplicate resolver: both paths *)

Lemma firstn_subset {A} (n : nat) (l : list A) (x : A) :
  In x (firstn n l) -> In x l.
Proof.
  revert l. induction n as [|n IH]; intros l I; [destruct I|].
  destruct l as [|a l]; [destruct I|].
  destruct I as [I|I]; [left; exact I | right; apply IH; exact I].
Qed.

Section Resolver.
Context (E : env).

Lemma filter_filter {A} (f g : A -> bool) (l : list A) :
  filter f (filter g l) = filter (fun x => g x && f x) l.
Proof.
  induction l as [|x l IH]; simpl; [reflexivity|].
  destruct (g x); simpl; [destruct (f x)|]; rewrite IH; reflexivity.
Qed.

Lemma filter_ext_eq {A} (f g : A -> bool) (l : list A) :
  (forall x, f x = g x) -> filter f l = filter g l.
Proof.
  intros Q. induction l as [|x l IH]; simpl; [reflexivity|].
  rewrite Q, IH. reflexivity.
Qed.

Lemma filter_agree {A} (f g : A -> bool) (l : list A) :
  (forall x, In x l -> f x = g x) -> filter f l = filter g l.
Proof.
  induction l as [|x l IH]; intros Q; cbn [filter]; [reflexivity|].
  rewrite (Q x (or_introl eq_refl)), IH; [reflexivity|].
  intros y I. apply Q. right. exact I.
Qed.

Lemma filter_perm {A} (f : A -> bool) (l l' : list A) :
  Permutation l l' -> Permutation (filter f l) (filter f l').
Proof.
  induction 1 as [|x l l' P IH|x y l|l l' l'' P1 IH1 P2 IH2]; cbn [filter].
  - constructor.
  - destruct (f x); [constructor|]; exact IH.
  - destruct (f x), (f y); try apply Permutation_refl.
    apply perm_swap.
  - apply (Permutation_trans IH1 IH2).
Qed.

(** The index holds the items it is given, each once, in its order. *)
Lemma insert_rank_perm (x : Item.t) (l : list Item.t) :
  Permutation (insert_rank E x l) (x :: l).
Proof.
  induction l as [|y l IH]; cbn [insert_rank]; [apply Permutation_refl|].
  destruct (index_rank E x <=? index_rank E y)%N; [apply Permutation_refl|].
  apply (Permutation_trans (perm_skip y IH)). apply perm_swap.
Qed.

Lemma index_order_perm (l : list Item.t) :
  Permutation (index_order E l) l.
Proof.
  unfold index_order. induction l as [|x l IH]; cbn [fold_right];
    [constructor|].
  apply (Permutation_trans (insert_rank_perm x _)). constructor. exact IH.
Qed.

Lemma page_all (op : db_op) (l : list Item.t) :
  one_page E op l -> page E op l = l.
Proof. intros P. unfold page. apply firstn_all2. exact P. Qed.

Lemma page_subset (op : db_op) (l : list Item.t) (x : Item.t) :
  In x (page E op l) -> In x l.
Proof. unfold page. apply firstn_subset. Qed.

Lemma index_matches_In (m dt : string) (tbl : list Item.t) (it : Item.t) :
  In it (index_order E (index_matches m dt tbl)) <->
  In it tbl /\ Item.merchant it = m /\ Item.date it = dt.
Proof.
  split.
  - intros I. apply (Permutation_in _ (index_order_perm _)) in I.
    unfold index_matches in I. apply filter_In in I.
    rewrite andb_true_iff, !String.eqb_eq in I. exact I.
  - intros I. apply (Permutation_in _ (Permutation_sym (index_order_perm _))).
    unfold index_matches. apply filter_In.
    rewrite andb_true_iff, !String.eqb_eq. exact I.
Qed.

(** What the handler of the resolver does with the error of the
    index. *)
Lemma resolver_handler (u : string) (d : Validated.t) (w : world)
  (e : error) :
  db_fault E (OpQuery (Some "merchant-date-index")) = Some e ->
  checkForDuplicates E u d w
  = let w1 := snd (emit (Ext_query (Some "merchant-date-index")) w) in
    if index_missing e then checkForDuplicatesFallback E u d w1
    else if unreadable e then
      (Throw (TypeError ("Cannot read properties of " ++ error_message e
                         ++ " (reading 'includes')")), w1)
    else (Throw (DatabaseError ("Failed to check for duplicates: "
                                ++ error_message e) (Some e)), w1).
Proof.
  intros F. unfold checkForDuplicates, dynamoDB_query_index, fault.
  unfold try_catch, bind, throw. cbn [fst snd emit]. rewrite F.
  cbv zeta. unfold index_missing, unreadable.
  destruct (String.eqb (error_code e) "ResourceNotFoundException");
    [reflexivity|].
  cbn [orb negb andb].
  destruct e as [m f|m o|m o|m o|m|m|c m r a|c n r a];
    cbn [message_includes has_message negb error_message];
    try (destruct (Str.includes _ "index"); reflexivity).
  destruct n; reflexivity.
Qed.

(** The indexed path, when the store answers. *)
Lemma indexed_path (u : string) (d : Validated.t) (w : world) :
  db_fault E (OpQuery (Some "merchant-date-index")) = None ->
  fst (checkForDuplicates E u d w)
  = Ok (filter (is_duplicate_of u d)
          (page E (OpQuery (Some "merchant-date-index"))
             (index_order E
                (index_matches (Validated.merchant d) (Validated.date d)
                   (table w))))).
Proof.
  intros F. unfold checkForDuplicates, dynamoDB_query_index, fault, get_table.
  unfold try_catch, bind, emit, ret. cbn [fst snd]. rewrite F.
  cbn [fst snd ret table]. unfold ret. cbn [fst]. f_equal.
  apply filter_agree. intros it I. apply page_subset in I.
  apply (proj1 (index_matches_In _ _ _ _)) in I. destruct I as (_ & M & D).
  unfold is_duplicate_of. rewrite M, D, !String.eqb_refl.
  destruct (String.eqb (Item.userId it) u); reflexivity.
Qed.

(** The fallback path, when the index is missing and the scan answers. *)
Lemma fallback_path (u : string) (d : Validated.t) (w : world) (e : error) :
  db_fault E (OpQuery (Some "merchant-date-index")) = Some e ->
  index_missing e = true ->
  db_fault E OpScan = None ->
  fst (checkForDuplicates E u d w)
  = Ok (filter (is_duplicate_of u d)
          (firstn 100 (page E OpScan (table w)))).
Proof.
  intros F I S. rewrite (resolver_handler u d w F). cbv zeta. rewrite I.
  unfold checkForDuplicatesFallback, dynamoDB_scan, fault, get_table.
  unfold try_catch, bind, emit, ret, throw. cbn [fst snd]. rewrite S.
  cbn [fst snd table]. f_equal. rewrite filter_filter.
  apply filter_ext_eq. intros it. unfold is_duplicate_of. reflexivity.
Qed.

Lemma is_duplicate_of_spec (u : string) (d : Validated.t) (it : Item.t) :
  is_duplicate_of u d it = true <->
  Item.userId it = u /\ Item.merchant it = Validated.merchant d /\
  Item.date it = Validated.date d /\
  within_tolerance (Item.amount it) (Validated.amount d) = true.
Proof.
  unfold is_duplicate_of.
  rewrite !andb_true_iff, !String.eqb_eq. tauto.
Qed.

Lemma duplicates_by_index (u : string) (d : Validated.t)
  (tbl : list Item.t) :
  Permutation
    (filter (is_duplicate_of u d)
       (index_order E
          (index_matches (Validated.merchant d) (Validated.date d) tbl)))
    (filter (is_duplicate_of u d) tbl).
Proof.
  apply (Permutation_trans (filter_perm _ (index_order_perm _))).
  unfold index_matches. rewrite filter_filter.
  rewrite (@filter_ext_eq _ _ (is_duplicate_of u d)); [apply Permutation_refl|].
  intros it. unfold is_duplicate_of.
  destruct (String.eqb (Item.userId it) u);
    destruct (String.eqb (Item.merchant it) (Validated.merchant d));
    destruct (String.eqb (Item.date it) (Validated.date d));
    destruct (within_tolerance (Item.amount it) (Validated.amount d));
    reflexivity.
Qed.

(** X8.  With the index, and amounts that convert to numbers: the resolver
    returns, of the items the index holds under the merchant and the
    date of the data, in the order of the index and as far as the one
    page of the query goes, those of the user with an amount within the
    tolerance.  When the page holds all items of these keys, they are
    exactly the records of the table that have the user, the merchant
    and the date of the data and an amount within the tolerance, each
    as often as the table has it; their order is that of the index,
    which need not be that of the table. *)
Theorem resolver_exact_with_index (u : string) (d : Validated.t)
  (w : world) :
  db_fault E (OpQuery (Some "merchant-date-index")) = None ->
  amounts_convert d (table w) ->
  let found :=
    index_order E
      (index_matches (Validated.merchant d) (Validated.date d) (table w)) in
  exists dups,
    fst (checkForDuplicates E u d w) = Ok dups /\
    dups = filter (is_duplicate_of u d)
             (page E (OpQuery (Some "merchant-date-index")) found) /\
    (one_page E (OpQuery (Some "merchant-date-index")) found ->
     dups = filter (is_duplicate_of u d) found /\
     Permutation dups (filter (is_duplicate_of u d) (table w)) /\
     (forall it,
        In it dups <->
        In it (table w) /\ Item.userId it = u /\
        Item.merchant it = Validated.merchant d /\
        Item.date it = Validated.date d /\
        within_tolerance (Item.amount it) (Validated.amount d) = true)).
Proof.
  intros F _ found. eexists. split; [apply indexed_path; exact F|].
  split; [reflexivity|]. intros P. fold found. rewrite (page_all P).
  split; [reflexivity|]. split; [apply duplicates_by_index|].
  intros it. rewrite <- is_duplicate_of_spec, <- filter_In.
  split; apply Permutation_in;
    [|apply Permutation_sym]; apply duplicates_by_index.
Qed.

(** What the resolver gives, on either path and whatever the store
    answers. *)
Lemma checkForDuplicates_results (u : string) (d : Validated.t) (w : world) :
  (forall dups, fst (checkForDuplicates E u d w) = Ok dups ->
     forall it, In it dups ->
       In it (table w) /\ is_duplicate_of u d it = true) /\
  (forall e, fst (checkForDuplicates E u d w) = Throw e ->
     (exists msg cause, e = DatabaseError msg (Some cause)) \/
     (exists cause,
        db_fault E (OpQuery (Some "merchant-date-index")) = Some cause /\
        unreadable cause = true /\
        e = TypeError ("Cannot read properties of " ++ error_message cause
                       ++ " (reading 'includes')"))).
Proof.
  assert (sound : forall l it,
            In it (filter (is_duplicate_of u d) l) ->
            In it l /\ is_duplicate_of u d it = true).
  { intros l it I. apply filter_In in I. exact I. }
  assert (fallback : forall w1,
            fst (checkForDuplicatesFallback E u d w1)
            = match db_fault E OpScan with
              | Some e2 =>
                  Throw (DatabaseError
                           ("Failed to check for duplicates (fallback): "
                            ++ error_message e2) (Some e2))
              | None =>
                  Ok (filter (is_duplicate_of u d)
                        (firstn 100 (page E OpScan (table w1))))
              end).
  { intros w1. unfold checkForDuplicatesFallback, dynamoDB_scan, fault,
      get_table.
    unfold try_catch, bind, emit, ret, throw. cbn [fst snd].
    destruct (db_fault E OpScan) as [e2|]; cbn [fst snd table];
      [reflexivity|].
    f_equal. rewrite filter_filter. apply filter_ext_eq. intros it.
    unfold is_duplicate_of. reflexivity. }
  destruct (db_fault E (OpQuery (Some "merchant-date-index"))) as [e1|] eqn:F.
  - rewrite (resolver_handler u d w F). cbv zeta.
    destruct (index_missing e1).
    + rewrite fallback. cbn [emit snd table].
      destruct (db_fault E OpScan) as [e2|]; split.
      * discriminate.
      * intros e Q. injection Q as <-. left. eexists; eexists; reflexivity.
      * intros dups Q. injection Q as <-. intros it J.
        destruct (sound _ _ J) as [J1 J2]. split; [|exact J2].
        apply (@page_subset OpScan), (@firstn_subset _ 100). exact J1.
      * discriminate.
    + destruct (unreadable e1) eqn:U; cbn [fst]; split; try discriminate.
      * intros e Q. injection Q as <-. right. exists e1.
        split; [reflexivity|]. split; [exact U | reflexivity].
      * intros e Q. injection Q as <-. left. eexists; eexists; reflexivity.
  - rewrite (indexed_path u d w F). split; [|discriminate].
    intros dups Q. injection Q as <-. intros it J.
    destruct (sound _ _ J) as [J1 J2]. split; [|exact J2].
    apply page_subset in J1. apply (proj1 (index_matches_In _ _ _ _)) in J1.
    apply J1.
Qed.

(** X10.  On either path, whatever the store answers: a record the resolver
    returns is a record of the table, of the same user, merchant and
    date, within the tolerance; the table is not changed.  A failure is
    a DatabaseError that holds its cause, with one exception: when the
    query of the index fails with an error object whose message is
    [null] or [undefined] and whose code is not
    ResourceNotFoundException, the handler fails on searching the
    message, and what comes out is that TypeError. *)
Theorem resolver_sound (u : string) (d : Validated.t) (w : world) :
  (forall dups, fst (checkForDuplicates E u d w) = Ok dups ->
     forall it, In it dups ->
       In it (table w) /\ Item.userId it = u /\
       Item.merchant it = Validated.merchant d /\
       Item.date it = Validated.date d /\
       within_tolerance (Item.amount it) (Validated.amount d) = true) /\
  table (snd (checkForDuplicates E u d w)) = table w /\
  (forall e, fst (checkForDuplicates E u d w) = Throw e ->
     (exists msg cause, e = DatabaseError msg (Some cause)) \/
     (exists cause,
        db_fault E (OpQuery (Some "merchant-date-index")) = Some cause /\
        unreadable cause = true /\
        e = TypeError ("Cannot read properties of " ++ error_message cause
                       ++ " (reading 'includes')"))) /\
  (forall cause,
     db_fault E (OpQuery (Some "merchant-date-index")) = Some cause ->
     unreadable cause = true ->
     fst (checkForDuplicates E u d w)
     = Throw (TypeError ("Cannot read properties of " ++ error_message cause
                         ++ " (reading 'includes')"))).
Proof.
  destruct (checkForDuplicates_results u d w) as [S T].
  split; [|split; [apply keeps_checkForDuplicates | split; [exact T|]]].
  - intros dups Q it I. destruct (S dups Q it I) as [I1 I2].
    apply is_duplicate_of_spec in I2. tauto.
  - intros cause F U. rewrite (resolver_handler u d w F). cbv zeta.
    assert (I : index_missing cause = false).
    { unfold unreadable in U. unfold index_missing.
      apply andb_true_iff in U. destruct U as [U1 U2].
      apply negb_true_iff in U1. rewrite U1.
      destruct cause; try discriminate. reflexivity. }
    rewrite I, U. reflexivity.
Qed.

End Resolver.

(** X9.  Without the index, on a table of at most a hundred items that the
    scan reads in one page, with amounts that convert to numbers, the
    fallback returns the records of the table that have the user, the
    merchant and the date of the data and an amount within the
    tolerance, in the order of the table.  The indexed path, on a table
    with the index and a page that holds all items of these keys,
    returns the same records, each as often, in the order of the
    index. *)
Theorem fallback_agrees_on_small_tables (indexed scanning : env)
  (u : string) (d : Validated.t) (w : world) (e : error) :
  db_fault indexed (OpQuery (Some "merchant-date-index")) = None ->
  one_page indexed (OpQuery (Some "merchant-date-index"))
    (index_order indexed
       (index_matches (Validated.merchant d) (Validated.date d) (table w))) ->
  db_fault scanning (OpQuery (Some "merchant-date-index")) = Some e ->
  index_missing e = true ->
  db_fault scanning OpScan = None ->
  (List.length (table w) <= 100)%nat ->
  one_page scanning OpScan (table w) ->
  amounts_convert d (table w) ->
  exists by_index by_scan,
    fst (checkForDuplicates indexed u d w) = Ok by_index /\
    fst (checkForDuplicates scanning u d w) = Ok by_scan /\
    by_scan = filter (is_duplicate_of u d) (table w) /\
    Permutation by_index by_scan.
Proof.
  intros F1 P1 F2 I S L P2 _. eexists. eexists.
  split; [apply (indexed_path indexed u d w F1)|].
  split; [apply (@fallback_path scanning u d w e F2 I S)|].
  rewrite (page_all P1), (page_all P2), firstn_all2 by exact L.
  split; [reflexivity|]. apply duplicates_by_index.
Qed.

Lemma resolver_exact_with_index_witness :
  exists dups,
    fst (checkForDuplicates Sample.E_index_by_time "alice" Sample.purchase
           Sample.twice) = Ok dups /\
    Permutation dups
      (filter (is_duplicate_of "alice" Sample.purchase)
         (table Sample.twice)).
Proof.
  assert (A : amounts_convert Sample.purchase (table Sample.twice)).
  { split; [reflexivity|]. intros it [<- | [<- | []]]; reflexivity. }
  destruct (@resolver_exact_with_index Sample.E_index_by_time "alice"
              Sample.purchase Sample.twice eq_refl A)
    as (dups & R & _ & P).
  exists dups. split; [exact R|]. apply P. apply PeanoNat.Nat.le_refl.
Defined.

Lemma fallback_agrees_on_small_tables_witness :
  exists by_index by_scan,
    fst (checkForDuplicates Sample.E_index_by_time "alice" Sample.purchase
           Sample.twice) = Ok by_index /\
    fst (checkForDuplicates Sample.E_no_index "alice" Sample.purchase
           Sample.twice) = Ok by_scan /\
    by_scan = filter (is_duplicate_of "alice" Sample.purchase)
                (table Sample.twice) /\
    Permutation by_index by_scan.
Proof.
  apply (@fallback_agrees_on_small_tables Sample.E_index_by_time
           Sample.E_no_index "alice" Sample.purchase Sample.twice
           (ServiceError "ValidationException"
              "The table does not have the specified index: merchant-date-index"
              None None)
           eq_refl (PeanoNat.Nat.le_refl _) eq_refl eq_refl eq_refl).
  - cbn. lia.
  - apply PeanoNat.Nat.le_refl.
  - split; [reflexivity|]. intros it [<- | [<- | []]]; reflexivity.
Defined.

Lemma resolver_sound_witness :
  In (Sample.item "alice" "tx-1" (Sample.morning - 1000) "12.40")
     (table Sample.seen) /\
  Item.userId (Sample.item "alice" "tx-1" (Sample.morning - 1000) "12.40")
  = "alice".
Proof.
  destruct (@resolver_sound Sample.E "alice" Sample.purchase Sample.seen)
    as (S & _ & _).
  destruct (S [Sample.item "alice" "tx-1" (Sample.morning - 1000) "12.40"]
              eq_refl
              (Sample.item "alice" "tx-1" (Sample.morning - 1000) "12.40")
              (or_introl eq_refl)) as (I & U & _).
  split; [exact I | exact U].
Defined.

(** The two paths on a table with two close purchases: the index, which
    holds them by their time of creation, gives the one made first
    before the other; the scan gives them as the table has them. *)
Example resolver_orders :
  fst (checkForDuplicates Sample.E_index_by_time "alice" Sample.purchase
         Sample.twice)
  = Ok [Sample.item "alice" "tx-b" (Sample.morning - 9000) "12.60";
        Sample.item "alice" "tx-a" (Sample.morning - 1000) "12.40"] /\
  fst (checkForDuplicates Sample.E_no_index "alice" Sample.purchase
         Sample.twice)
  = Ok [Sample.item "alice" "tx-a" (Sample.morning - 1000) "12.40";
        Sample.item "alice" "tx-b" (Sample.morning - 9000) "12.60"].
Proof. split; vm_compute; reflexivity. Qed.

(** With pages of one item the index gives the first of the two only. *)
Example resolver_first_page :
  fst (checkForDuplicates (Sample.E_paged 1) "alice" Sample.purchase
         Sample.twice)
  = Ok [Sample.item "alice" "tx-a" (Sample.morning - 1000) "12.40"].
Proof. vm_compute. reflexivity. Qed.

(** An error object of the index query whose message is [null]: the
    handler fails on it, and the failure is not a DatabaseError. *)
Example resolver_unreadable :
  fst (checkForDuplicates Sample.E_index_unreadable "alice" Sample.purchase
         Sample.seen)
  = Throw (TypeError "Cannot read properties of null (reading 'includes')").
Proof. vm_compute. reflexivity. Qed.
(* ------------------------------------------------------------------ *)
(** * The listing of a user's records *)

Lemma insert_desc_In (x y : Item.t) (l : list Item.t) :
  In y (insert_desc x l) <-> y = x \/ In y l.
Proof.
  induction l as [|a l IH]; cbn [insert_desc].
  - cbn. intuition auto.
  - destruct (String.leb _ _); cbn [In].
    + intuition auto.
    + rewrite IH. intuition auto.
Qed.

Lemma sort_desc_In (y : Item.t) (l : list Item.t) :
  In y (sort_desc l) <-> In y l.
Proof.
  unfold sort_desc. induction l as [|a l IH]; cbn [fold_right In].
  - tauto.
  - rewrite insert_desc_In, IH. intuition auto.
Qed.

Lemma insert_desc_length (x : Item.t) (l : list Item.t) :
  List.length (insert_desc x l) = S (List.length l).
Proof.
  induction l as [|a l IH]; cbn [insert_desc]; [reflexivity|].
  destruct (String.leb _ _); cbn [List.length]; [reflexivity|].
  rewrite IH. reflexivity.
Qed.

Lemma sort_desc_length (l : list Item.t) :
  List.length (sort_desc l) = List.length l.
Proof.
  unfold sort_desc. induction l as [|a l IH]; cbn [fold_right];
    [reflexivity|].
  rewrite insert_desc_length, IH. reflexivity.
Qed.

Lemma descending_cons (a : Item.t) (l : list Item.t) :
  descending (a :: l)
  = match l with
    | b :: _ => String.leb (Item.transactionId b) (Item.transactionId a)
    | [] => true
    end && descending l.
Proof. reflexivity. Qed.

Lemma insert_desc_descending (x : Item.t) (l : list Item.t) :
  descending l = true -> descending (insert_desc x l) = true.
Proof.
  induction l as [|a l IH]; [reflexivity|].
  intros D. cbn [insert_desc].
  destruct (String.leb (Item.transactionId a) (Item.transactionId x)) eqn:L.
  - rewrite descending_cons, L, D. reflexivity.
  - rewrite descending_cons in D. apply andb_true_iff in D.
    destruct D as [D1 D2]. rewrite descending_cons, (IH D2), andb_true_r.
    destruct l as [|b l]; cbn [insert_desc].
    + destruct (String.leb_total (Item.transactionId a) (Item.transactionId x))
        as [T|T]; [congruence | exact T].
    + destruct (String.leb (Item.transactionId b) (Item.transactionId x)).
      * destruct (String.leb_total (Item.transactionId a)
                    (Item.transactionId x)) as [T|T]; [congruence | exact T].
      * exact D1.
Qed.

Lemma sort_desc_descending (l : list Item.t) :
  descending (sort_desc l) = true.
Proof.
  unfold sort_desc. induction l as [|a l IH]; [reflexivity|].
  cbn [fold_right]. apply insert_desc_descending. exact IH.
Qed.

Lemma firstn_descending (n : nat) (l : list Item.t) :
  descending l = true -> descending (firstn n l) = true.
Proof.
  revert l. induction n as [|n IH]; intros l D; [reflexivity|].
  destruct l as [|a l]; [reflexivity|].
  rewrite descending_cons in D. apply andb_true_iff in D.
  destruct D as [D1 D2]. cbn [firstn]. rewrite descending_cons.
  rewrite (IH l D2), andb_true_r.
  destruct l as [|b l]; [destruct n; reflexivity|].
  destruct n; [reflexivity|]. exact D1.
Qed.

Section Listing.
Context (E : env).

Lemma query_user_run (u : string) (Limit : Z) (w : world) :
  db_fault E (OpQuery None) = None -> 1 <= Limit ->
  fst (getUserTransactions E u (Some Limit) w)
  = Ok (firstn (Z.to_nat Limit)
          (page E (OpQuery None) (sort_desc (of_user u (table w))))).
Proof.
  intros F L.
  unfold getUserTransactions, dynamoDB_query_user, fault, get_table.
  unfold try_catch, bind, emit, ret, throw. cbn [fst snd].
  rewrite F. cbn [fst snd].
  replace (Limit <? 1) with false by (symmetry; apply Z.ltb_ge; lia).
  reflexivity.
Qed.

Lemma default_limit (u : string) (w : world) :
  getUserTransactions E u None w = getUserTransactions E u (Some 100) w.
Proof. reflexivity. Qed.

(** X11.  When the store answers and the limit is at least one, the listing
    is the start of the user's records by descending transaction
    identifier: as many as the one page of the query holds, and at most
    [limit].  So it holds records of the table, all of the user, by
    descending transaction identifier, at most [limit] of them; it
    holds all of the user's records when they are at most [limit] and
    the page holds them all; the table does not change. *)
Theorem listing_of_user (u : string) (limit : Z) (w : world) :
  db_fault E (OpQuery None) = None -> 1 <= limit ->
  let records := sort_desc (of_user u (table w)) in
  exists l,
    fst (getUserTransactions E u (Some limit) w) = Ok l /\
    l = firstn (Z.to_nat limit) (page E (OpQuery None) records) /\
    Z.of_nat (List.length l) <= limit /\
    (forall it, In it l -> In it (table w) /\ Item.userId it = u) /\
    descending l = true /\
    (Z.of_nat (List.length (of_user u (table w))) <= limit ->
     one_page E (OpQuery None) records ->
     l = records /\
     forall it, In it (table w) -> Item.userId it = u -> In it l) /\
    table (snd (getUserTransactions E u (Some limit) w)) = table w.
Proof.
  intros F L records. eexists. split; [apply (query_user_run u w F L)|].
  fold records. split; [reflexivity|].
  split; [|split; [|split; [|split]]].
  - pose proof (firstn_le_length (Z.to_nat limit)
                  (page E (OpQuery None) records)). lia.
  - intros it I. apply firstn_subset, firstn_subset in I.
    apply (proj1 (sort_desc_In _ _)) in I.
    unfold of_user in I. apply filter_In in I. destruct I as [I U].
    apply String.eqb_eq in U. split; assumption.
  - unfold page. apply firstn_descending, firstn_descending,
      sort_desc_descending.
  - intros C P. unfold page. rewrite (@firstn_all2 _ (page_items E _ _))
      by exact P.
    rewrite firstn_all2 by (unfold records; rewrite sort_desc_length; lia).
    split; [reflexivity|]. intros it I U.
    apply (proj2 (sort_desc_In _ _)). unfold of_user. apply filter_In.
    split; [exact I|]. apply String.eqb_eq. exact U.
  - unfold getUserTransactions, dynamoDB_query_user, fault, get_table.
    unfold try_catch, bind, emit, ret, throw. cbn [fst snd].
    rewrite F. cbn [fst snd].
    replace (limit <? 1) with false by (symmetry; apply Z.ltb_ge; lia).
    reflexivity.
Qed.

(** X12.  A limit left out is a limit of a hundred; a limit below one makes
    the store refuse, and that, as any fault of the store, comes out as
    a DatabaseError that holds the cause, the table unchanged. *)
Theorem listing_limits_and_failures (u : string) (limit : option Z)
  (w : world) :
  getUserTransactions E u None w = getUserTransactions E u (Some 100) w /\
  (forall l, limit = Some l -> l < 1 ->
     exists msg cause,
       fst (getUserTransactions E u limit w)
       = Throw (DatabaseError ("Failed to get user transactions: " ++ msg)
                  (Some cause)) /\
       error_message cause = msg) /\
  (forall e, fst (getUserTransactions E u limit w) = Throw e ->
     exists cause,
       e = DatabaseError ("Failed to get user transactions: "
                          ++ error_message cause) (Some cause)) /\
  table (snd (getUserTransactions E u limit w)) = table w.
Proof.
  split; [reflexivity|].
  unfold getUserTransactions, dynamoDB_query_user, fault, get_table.
  unfold try_catch, bind, emit, ret, throw. cbn [fst snd].
  split; [|split].
  - intros l -> L.
    replace (l <? 1) with true by (symmetry; apply Z.ltb_lt; lia).
    destruct (db_fault E (OpQuery None)) as [e|]; cbn [fst snd];
      eexists; eexists; split; reflexivity.
  - intros e.
    destruct (db_fault E (OpQuery None)) as [e0|]; cbn [fst snd].
    + intros Q. inversion Q. eexists. reflexivity.
    + destruct (_ <? 1); cbn [fst snd]; [|discriminate].
      intros Q. injection Q as <-.
      exists (ServiceError "ValidationException"
                ("1 validation error detected: Value '"
                 ++ integer_text match limit with
                                   | Some l => l
                                   | None => 100
                                   end
                 ++ "' at 'limit' failed to satisfy constraint: Member must have value greater than or equal to 1")
                None None).
      reflexivity.
  - destruct (db_fault E (OpQuery None)) as [e0|]; cbn [fst snd];
      [reflexivity|].
    destruct (_ <? 1); reflexivity.
Qed.

End Listing.

Lemma listing_of_user_witness :
  exists l,
    fst (getUserTransactions Sample.E "alice" (Some 1) Sample.two) = Ok l /\
    Z.of_nat (List.length l) <= 1.
Proof.
  destruct (@listing_of_user Sample.E "alice" 1 Sample.two eq_refl
              ltac:(lia)) as (l & R & _ & B & _).
  exists l. split; [exact R | exact B].
Defined.

(** With pages of one item, a listing with the limit of a hundred has
    one of the two records of the user. *)
Example listing_first_page :
  fst (getUserTransactions (Sample.E_paged 1) "alice" None Sample.two)
  = Ok [Sample.item "alice" "tx-ff00" (Sample.morning - 9000) "9"].
Proof. vm_compute. reflexivity. Qed.

Lemma listing_limits_and_failures_witness :
  exists msg cause,
    fst (getUserTransactions Sample.E "alice" (Some 0) Sample.two)
    = Throw (DatabaseError ("Failed to get user transactions: " ++ msg)
               (Some cause)) /\
    error_message cause = msg.
Proof.
  destruct (@listing_limits_and_failures Sample.E "alice" (Some 0)
              Sample.two) as (_ & R & _).
  apply (R 0 eq_refl). lia.
Defined.

Section History.
Context (E : env).

(** X13.  The history of a user: an identifier that does not pass the check is
    refused with the check's error before the store is asked, the world
    as it was; one that passes is listed under its trimmed form. *)
Theorem history_checks_user_first (userId : value) (limit : option Z)
  (w : world) :
  (forall e, validateUserId userId = Throw e ->
     getUserTransactionHistory E userId limit w = (Throw e, w) /\
     is_ValidationError e = true /\ error_field e = Some "userId") /\
  (forall s, userId = VStr s -> validateUserId userId = Ok (Str.trim s) ->
     getUserTransactionHistory E userId limit w
     = getUserTransactions E (Str.trim s) limit w).
Proof.
  split.
  - intros e V. unfold getUserTransactionHistory, try_catch, bind, lift, throw.
    rewrite V. cbn [fst snd]. split; [reflexivity|].
    revert V. unfold validateUserId, invalid.
    destruct userId as [| | | |s| |]; try (intros Q; inversion Q; split; reflexivity).
    destruct (negb (truthy (VStr s)));
      [intros Q; inversion Q; split; reflexivity|].
    destruct (Str.len (Str.trim s) =? 0);
      [intros Q; inversion Q; split; reflexivity|].
    destruct (100 <? Str.len (Str.trim s));
      [intros Q; inversion Q; split; reflexivity|].
    discriminate.
  - intros s -> V. unfold getUserTransactionHistory, try_catch, bind, lift, throw.
    rewrite V.
    destruct (getUserTransactions E (Str.trim s) limit w) as [[l|e] w'];
      reflexivity.
Qed.

End History.

Lemma history_checks_user_first_witness :
  getUserTransactionHistory Sample.E (VStr "   ") None Sample.two
  = (invalid "User ID cannot be empty" "userId", Sample.two) /\
  getUserTransactionHistory Sample.E (VStr " alice ") None Sample.two
  = getUserTransactions Sample.E "alice" None Sample.two.
Proof.
  split.
  - apply (proj1 (@history_checks_user_first Sample.E (VStr "   ")
                    None Sample.two)).
    reflexivity.
  - apply (proj2 (@history_checks_user_first Sample.E
                    (VStr " alice ") None Sample.two) " alice " eq_refl).
    reflexivity.
Defined.
(* ------------------------------------------------------------------ *)
(** * A record by its key: create, get, delete *)

Lemma has_key_same (item it : Item.t) :
  has_key (Item.userId item) (Item.transactionId item) it = same_key item it.
Proof.
  unfold has_key, same_key.
  rewrite (String.eqb_sym (Item.userId it)),
          (String.eqb_sym (Item.transactionId it)).
  reflexivity.
Qed.

Lemma has_key_self (item : Item.t) :
  has_key (Item.userId item) (Item.transactionId item) item = true.
Proof. unfold has_key. rewrite !String.eqb_refl. reflexivity. Qed.

Lemma has_key_eq (u t : string) (it : Item.t) :
  has_key u t it = true <-> Item.userId it = u /\ Item.transactionId it = t.
Proof.
  unfold has_key. rewrite andb_true_iff, !String.eqb_eq. tauto.
Qed.

Lemma find_app_miss {A} (f : A -> bool) (l : list A) (x : A) :
  f x = false -> find f (l ++ [x])%list = find f l.
Proof.
  intros F. induction l as [|a l IH]; cbn [app find].
  - rewrite F. reflexivity.
  - destruct (f a); [reflexivity | exact IH].
Qed.

Lemma find_app_hit {A} (f : A -> bool) (l : list A) (x : A) :
  existsb f l = false -> f x = true -> find f (l ++ [x])%list = Some x.
Proof.
  intros N F. induction l as [|a l IH]; cbn [app find].
  - rewrite F. reflexivity.
  - cbn [existsb] in N. apply orb_false_iff in N. destruct N as [N1 N2].
    rewrite N1. apply IH. exact N2.
Qed.

Lemma existsb_same_key (item : Item.t) (tbl : list Item.t) :
  existsb (has_key (Item.userId item) (Item.transactionId item)) tbl
  = existsb (same_key item) tbl.
Proof.
  induction tbl as [|a l IH]; [reflexivity|].
  cbn [existsb]. rewrite has_key_same, IH. reflexivity.
Qed.

(** After a put, the key of the item gives the item. *)
Lemma find_put_item (item : Item.t) (tbl : list Item.t) :
  find (has_key (Item.userId item) (Item.transactionId item))
       (put_item item tbl) = Some item.
Proof.
  unfold put_item. destruct (existsb (same_key item) tbl) eqn:X.
  - induction tbl as [|a l IH]; [discriminate|].
    cbn [map find]. destruct (same_key item a) eqn:S.
    + rewrite has_key_self. reflexivity.
    + rewrite has_key_same, S. apply IH.
      cbn [existsb] in X. rewrite S in X. exact X.
  - apply find_app_hit; [|apply has_key_self].
    rewrite existsb_same_key. exact X.
Qed.

(** After a put, another key gives what it gave. *)
Lemma find_put_other (item : Item.t) (tbl : list Item.t) (u t : string) :
  has_key u t item = false ->
  find (has_key u t) (put_item item tbl) = find (has_key u t) tbl.
Proof.
  intros N. unfold put_item. destruct (existsb (same_key item) tbl).
  - induction tbl as [|a l IH]; [reflexivity|].
    cbn [map find]. destruct (same_key item a) eqn:S.
    + rewrite N.
      assert (Q : has_key u t a = false).
      { destruct (has_key u t a) eqn:K; [|reflexivity].
        apply has_key_eq in K. destruct K as [K1 K2].
        unfold same_key in S. apply andb_true_iff in S.
        rewrite !String.eqb_eq in S. destruct S as [S1 S2].
        rewrite <- N. symmetry. apply has_key_eq. split; congruence. }
      rewrite Q. exact IH.
    + destruct (has_key u t a); [reflexivity | exact IH].
  - apply find_app_miss. exact N.
Qed.

Lemma find_removed (u t : string) (tbl : list Item.t) :
  find (has_key u t) (filter (fun it => negb (has_key u t it)) tbl) = None.
Proof.
  induction tbl as [|a l IH]; [reflexivity|].
  cbn [filter]. destruct (has_key u t a) eqn:K; cbn [negb]; [exact IH|].
  cbn [find]. rewrite K. exact IH.
Qed.

Lemma find_remove_other (u t u' t' : string) (tbl : list Item.t) :
  (u', t') <> (u, t) ->
  find (has_key u' t') (filter (fun it => negb (has_key u t it)) tbl)
  = find (has_key u' t') tbl.
Proof.
  intros N. induction tbl as [|a l IH]; [reflexivity|].
  cbn [filter find]. destruct (has_key u t a) eqn:K; cbn [negb].
  - assert (Q : has_key u' t' a = false).
    { destruct (has_key u' t' a) eqn:K'; [|reflexivity].
      apply has_key_eq in K. apply has_key_eq in K'.
      destruct K, K'. exfalso. apply N. congruence. }
    rewrite Q. exact IH.
  - cbn [find]. destruct (has_key u' t' a); [reflexivity | exact IH].
Qed.

Lemma filter_none {A} (f : A -> bool) (l : list A) :
  find (fun x => negb (f x)) l = None -> filter f l = l.
Proof.
  induction l as [|a l IH]; [reflexivity|].
  cbn [find filter]. destruct (f a); cbn [negb]; [|discriminate].
  intros N. rewrite (IH N). reflexivity.
Qed.

Section RoundTrip.
Context (E : env).
Context (get_fault delete_fault : string -> string -> option error).

Lemma getTransaction_run (u t : string) (w : world) :
  get_fault u t = None ->
  getTransaction get_fault u t w = (Ok (find (has_key u t) (table w)), w).
Proof.
  intros F. unfold getTransaction, dynamoDB_get, try_catch. rewrite F.
  reflexivity.
Qed.

(** X15.  A record that [createTransaction] returns is of the user, and
    [getTransaction] finds it under its key in the world the creation
    leaves; every other key gives what it gave before. *)
Theorem created_record_is_found (u : string) (d : Validated.t)
  (w w1 : world) (item : Item.t) :
  createTransaction E u d w = (Ok item, w1) ->
  Item.userId item = u /\
  (get_fault u (Item.transactionId item) = None ->
   fst (getTransaction get_fault u (Item.transactionId item) w1)
   = Ok (Some item)) /\
  (forall u' t', has_key u' t' item = false -> get_fault u' t' = None ->
     fst (getTransaction get_fault u' t' w1)
     = fst (getTransaction get_fault u' t' w)).
Proof.
  intros C.
  destruct (createTransaction_shape E u d w)
    as (it & F & _ & _ & [(e & R & _) | (R & T)]);
    rewrite C in *; cbn [fst snd] in *; [discriminate|].
  injection R as ->. destruct F as (U & _).
  split; [exact U|]. split.
  - intros G. rewrite (@getTransaction_run _ _ _ G). cbn [fst].
    rewrite T. rewrite <- U. rewrite find_put_item. reflexivity.
  - intros u' t' N G. rewrite !(@getTransaction_run _ _ _ G). cbn [fst].
    rewrite T, (@find_put_other _ _ _ _ N). reflexivity.
Qed.

(** X16.  When the store takes the deletion, the key gives nothing afterwards,
    every other key gives what it gave, only the table changes, and a
    key the table did not have leaves the table as it was. *)
Theorem deleted_record_is_gone (u t : string) (w : world) :
  delete_fault u t = None ->
  let w1 := snd (deleteTransaction delete_fault u t w) in
  fst (deleteTransaction delete_fault u t w) = Ok tt /\
  (get_fault u t = None ->
   fst (getTransaction get_fault u t w1) = Ok None) /\
  (forall u' t', (u', t') <> (u, t) -> get_fault u' t' = None ->
     fst (getTransaction get_fault u' t' w1)
     = fst (getTransaction get_fault u' t' w)) /\
  (forall it, In it (table w1) <-> In it (table w) /\ has_key u t it = false) /\
  (find (has_key u t) (table w) = None -> table w1 = table w) /\
  files w1 = files w /\ trace w1 = trace w.
Proof.
  intros D w1. unfold w1.
  unfold deleteTransaction, dynamoDB_delete, try_catch. rewrite D.
  unfold bind, get_table, set_table. cbn [fst snd].
  split; [reflexivity|]. split; [|split; [|split; [|split; [|split]]]].
  - intros G. rewrite (@getTransaction_run _ _ _ G). cbn [fst table].
    rewrite find_removed. reflexivity.
  - intros u' t' N G. rewrite !(@getTransaction_run _ _ _ G). cbn [fst table].
    rewrite (@find_remove_other _ _ _ _ _ N). reflexivity.
  - intros it. cbn [table]. rewrite filter_In, negb_true_iff. tauto.
  - intros N. cbn [table]. apply filter_none.
    rewrite <- N. clear.
    induction (table w) as [|a l IH]; [reflexivity|].
    cbn [find]. rewrite negb_involutive. rewrite IH. reflexivity.
  - reflexivity.
  - reflexivity.
Qed.

End RoundTrip.

Lemma created_record_is_found_witness :
  let run := createTransaction Sample.E "alice" Sample.purchase Sample.seen in
  exists item,
    fst run = Ok item /\
    fst (getTransaction (fun _ _ => None) "alice" (Item.transactionId item)
           (snd run)) = Ok (Some item).
Proof.
  intro run.
  destruct run as [[item|e] w1] eqn:R; [|vm_compute in R; discriminate].
  exists item. split; [reflexivity|].
  apply (@created_record_is_found Sample.E (fun _ _ => None) "alice"
           Sample.purchase Sample.seen w1 item R).
  reflexivity.
Defined.

Lemma deleted_record_is_gone_witness :
  fst (getTransaction (fun _ _ => None) "alice" "tx-0a1b"
         (snd (deleteTransaction (fun _ _ => None) "alice" "tx-0a1b"
                 Sample.two)))
  = Ok None.
Proof.
  apply (@deleted_record_is_gone (fun _ _ => None) (fun _ _ => None)
           "alice" "tx-0a1b" Sample.two eq_refl).
  reflexivity.
Defined.
(* ------------------------------------------------------------------ *)
(** * The recognizer adapter *)

Section Recognizer.
Context {H : Host} (E : env).

Lemma ocr_handler_throws (e : error) (w : world) :
  exists e', is_OCRError e' = true /\
    (if is_OCRError e then throw e
     else if String.eqb (error_code e) "InvalidParameterException" then
       throw (OCRError "Invalid image format. Supported formats: PNG, JPEG, PDF. Please ensure the file is a valid image." (Some e))
     else if String.eqb (error_code e) "AccessDeniedException" then
       throw (OCRError "AWS Textract access denied. Check your AWS credentials and IAM permissions for Textract." (Some e))
     else if String.eqb (error_code e) "InvalidS3ObjectException" then
       throw (OCRError "Invalid S3 object (if using S3). Check the file path and permissions." (Some e))
     else if String.eqb (error_code e)
               "ProvisionedThroughputExceededException" then
       throw (OCRError "AWS Textract throughput limit exceeded. Please try again in a few moments." (Some e))
     else if String.eqb (error_code e) "ThrottlingException" then
       throw (OCRError "AWS Textract request was throttled. Please try again later." (Some e))
     else throw (OCRError ("OCR extraction failed: " ++ error_message e)
                          (Some e))) w
    = (@Throw string e', w).
Proof.
  destruct (is_OCRError e) eqn:O; [exists e; split; [exact O|reflexivity]|].
  repeat match goal with
         | |- context [if String.eqb ?a ?b then _ else _] =>
             destruct (String.eqb a b)
         end;
    eexists; (split; [|reflexivity]); reflexivity.
Qed.

Lemma ocr_buffer_handler_throws (e : error) (w : world) :
  exists e', is_OCRError e' = true /\
    (if is_OCRError e then throw e
     else if String.eqb (error_code e) "InvalidParameterException" then
       throw (OCRError "Invalid image format. Supported formats: PNG, JPEG, PDF." (Some e))
     else if String.eqb (error_code e) "AccessDeniedException" then
       throw (OCRError "AWS Textract access denied. Check your AWS credentials and IAM permissions." (Some e))
     else throw (OCRError ("OCR extraction from buffer failed: "
                           ++ error_message e) (Some e))) w
    = (@Throw string e', w).
Proof.
  destruct (is_OCRError e) eqn:O; [exists e; split; [exact O|reflexivity]|].
  repeat match goal with
         | |- context [if String.eqb ?a ?b then _ else _] =>
             destruct (String.eqb a b)
         end;
    eexists; (split; [|reflexivity]); reflexivity.
Qed.

Lemma trim_nonempty (s : string) :
  (Str.len (Str.trim s) =? 0) = false -> Str.trim s <> EmptyString.
Proof.
  intros L Q. rewrite Q in L. discriminate.
Qed.

Lemma add_no_events (w : world) : add_events w [] = w.
Proof.
  unfold add_events. rewrite app_nil_r. destruct w; reflexivity.
Qed.

(** What a run of the buffer adapter is, by cases. *)
Lemma extractTextFromBuffer_run (b : buffer) (w : world) :
  (maxSize < length b /\
   extractTextFromBuffer E (Some b) w
   = (Throw (OCRError
               ("Image buffer is too large. Maximum size is 10 MB. Current size: "
                ++ megabytes (length b) ++ " MB") None), w)) \/
  (length b <= maxSize /\
   snd (extractTextFromBuffer E (Some b) w)
   = add_events w [Ext_detectDocumentText (length b)] /\
   ((exists e, fst (extractTextFromBuffer E (Some b) w) = Throw e /\
               is_OCRError e = true) \/
    (exists Blocks,
       detectDocumentText E b = Ok (Some Blocks) /\
       Str.trim (lines_of Blocks) <> EmptyString /\
       fst (extractTextFromBuffer E (Some b) w)
       = Ok (Str.trim (lines_of Blocks))))).
Proof.
  unfold extractTextFromBuffer, call_textract.
  destruct (maxSize <? length b) eqn:L.
  - left. apply Z.ltb_lt in L. split; [exact L|].
    unfold try_catch, throw. reflexivity.
  - right. apply Z.ltb_ge in L. split; [exact L|].
    unfold try_catch, bind, emit, lift. cbn [fst snd].
    fold (add_events w [Ext_detectDocumentText (length b)]).
    destruct (detectDocumentText E b) as [[Blocks|]|e].
    + destruct (negb (truthy (VStr (lines_of Blocks)))
                || (Str.len (Str.trim (lines_of Blocks)) =? 0)) eqn:T.
      * unfold throw. cbn [fst snd is_OCRError]. split; [reflexivity|].
        left. eexists. split; reflexivity.
      * unfold ret. cbn [fst snd]. split; [reflexivity|].
        right. exists Blocks. split; [reflexivity|].
        apply orb_false_iff in T. destruct T as [_ T].
        split; [apply trim_nonempty; exact T | reflexivity].
    + unfold throw. cbn. split; [reflexivity|].
      left. eexists. split; reflexivity.
    + destruct (ocr_buffer_handler_throws e
                  (add_events w [Ext_detectDocumentText (length b)]))
        as (e' & O & R).
      unfold throw in *. cbn [fst snd] in *. rewrite R. cbn [fst snd].
      split; [reflexivity|]. left. exists e'. split; [reflexivity|exact O].
Qed.

(** X18.  The buffer adapter: a text it returns is the trimmed text of the
    lines of the one response of the recognizer, not empty and with no
    space around; a buffer above ten megabytes or an absent one is
    refused before the recognizer is asked; whatever fails comes out as
    an OCRError; and the recognizer is asked at most once. *)
Theorem buffer_recognition (imageBuffer : option buffer) (w : world) :
  (forall t, fst (extractTextFromBuffer E imageBuffer w) = Ok t ->
     exists b Blocks,
       imageBuffer = Some b /\ length b <= maxSize /\
       detectDocumentText E b = Ok (Some Blocks) /\
       t = Str.trim (lines_of Blocks) /\
       t <> EmptyString /\ Str.trim t = t /\
       snd (extractTextFromBuffer E imageBuffer w)
       = add_events w [Ext_detectDocumentText (length b)]) /\
  (forall e, fst (extractTextFromBuffer E imageBuffer w) = Throw e ->
     is_OCRError e = true) /\
  ((imageBuffer = None \/
    exists b, imageBuffer = Some b /\ maxSize < length b) ->
   exists e, extractTextFromBuffer E imageBuffer w = (Throw e, w)) /\
  (exists evs, snd (extractTextFromBuffer E imageBuffer w) = add_events w evs
               /\ (count is_recognition evs <= 1)%nat).
Proof.
  destruct imageBuffer as [b|].
  - destruct (extractTextFromBuffer_run b w)
      as [(L & R) | (L & W & [(e & R & O) | (Blocks & D & N & R)])].
    + rewrite R. cbn [fst snd]. split; [discriminate|].
      split; [intros e Q; inversion Q; reflexivity|].
      split; [intros _; eexists; reflexivity|].
      exists []. rewrite add_no_events. split; [reflexivity | cbn; lia].
    + rewrite W, R. split; [discriminate|].
      split; [intros e' Q; inversion Q; subst; exact O|].
      split.
      * intros [Q | (b' & Q & L')]; [discriminate|].
        inversion Q; subst. lia.
      * eexists. split; [reflexivity | cbn; lia].
    + rewrite W, R. split.
      * intros t Q. inversion Q; subst. exists b, Blocks.
        repeat split; try assumption. apply trim_idempotent.
      * split; [discriminate|]. split.
        -- intros [Q | (b' & Q & L')]; [discriminate|].
           inversion Q; subst. lia.
        -- eexists. split; [reflexivity | cbn; lia].
  - unfold extractTextFromBuffer, try_catch, throw. cbn [fst snd is_OCRError].
    split; [discriminate|].
    split; [intros e Q; inversion Q; reflexivity|].
    split; [intros _; eexists; reflexivity|].
    exists []. rewrite add_no_events. split; [reflexivity | cbn; lia].
Qed.

(** What a run of the path adapter is, by cases. *)
Lemma extractTextFromImage_run (path : string) (b : buffer) (w : world) :
  path <> EmptyString ->
  find_file path (files w) = Some b ->
  (exists e, is_OCRError e = true /\
     fst (extractTextFromImage E (VStr path) w) = Throw e /\
     (snd (extractTextFromImage E (VStr path) w)
      = add_events w [Ext_readFile path] \/
      (readFile_fault E path = None /\ length b <= maxSize /\
       snd (extractTextFromImage E (VStr path) w)
       = add_events w [Ext_readFile path;
                       Ext_detectDocumentText (length b)]))) \/
  (exists Blocks,
     readFile_fault E path = None /\ length b <= maxSize /\
     detectDocumentText E b = Ok (Some Blocks) /\
     Str.trim (lines_of Blocks) <> EmptyString /\
     extractTextFromImage E (VStr path) w
     = (Ok (Str.trim (lines_of Blocks)),
        add_events w [Ext_readFile path; Ext_detectDocumentText (length b)])).
Proof.
  intros P F.
  remember (extractTextFromImage E (VStr path) w) as run eqn:Run.
  revert Run.
  unfold extractTextFromImage, existsSync, readFile, call_textract.
  destruct path as [|c path]; [congruence|].
  change (truthy (VStr (String c path))) with true. cbv iota. cbn [negb].
  unfold try_catch at 1. unfold bind at 1. rewrite F. cbn [fst snd negb].
  unfold bind at 1. unfold bind at 1. unfold emit at 1. cbn [fst snd].
  fold (add_events w [Ext_readFile (String c path)]).
  set (w1 := add_events w [Ext_readFile (String c path)]).
  destruct (readFile_fault E (String c path)) as [e|] eqn:R.
  - unfold throw at 1. cbn [fst snd].
    destruct (ocr_handler_throws e w1) as (e' & O & Q).
    rewrite Q. intros ->. left. exists e'. cbn [fst snd].
    split; [exact O | split; [reflexivity | left; reflexivity]].
  - assert (F1 : find_file (String c path) (files w1) = Some b) by exact F.
    rewrite F1. cbn [fst snd].
    destruct (maxSize <? length b) eqn:L.
    + unfold throw. intros ->. left. cbn [fst snd is_OCRError]. eexists.
      split; [|split; [reflexivity|left; reflexivity]]. reflexivity.
    + apply Z.ltb_ge in L.
      unfold bind at 1. unfold bind at 1. unfold emit at 1. cbn [fst snd].
      assert (W2 : {| table := table w1; files := files w1;
                      clock := clock w1; issued := issued w1;
                      trace := (trace w1
                                ++ [Ext_detectDocumentText (length b)])%list |}
                   = add_events w [Ext_readFile (String c path);
                                   Ext_detectDocumentText (length b)]).
      { unfold w1, add_events. cbn [table files clock issued trace].
        rewrite <- app_assoc. reflexivity. }
      rewrite W2.
      set (w2 := add_events w [Ext_readFile (String c path);
                               Ext_detectDocumentText (length b)]).
      unfold lift.
      destruct (detectDocumentText E b) as [[Blocks|]|e].
      * cbn [fst snd].
        destruct (negb (truthy (VStr (lines_of Blocks)))
                  || (Str.len (Str.trim (lines_of Blocks)) =? 0)) eqn:T.
        -- unfold throw. intros ->. left. cbn [fst snd is_OCRError]. eexists.
           split; [|split; [reflexivity|right; auto]]. reflexivity.
        -- unfold ret. intros ->. right. exists Blocks.
           apply orb_false_iff in T. destruct T as [_ T].
           repeat split; try assumption; try reflexivity.
           apply trim_nonempty; exact T.
      * cbn. unfold throw. intros ->. left. eexists.
        split; [|split; [reflexivity|right; auto]]. reflexivity.
      * cbn [fst snd].
        destruct (ocr_handler_throws e w2) as (e' & O & Q).
        rewrite Q. intros ->. left. exists e'. cbn [fst snd].
        split; [exact O | split; [reflexivity | right; auto]].
Qed.

Lemma extractTextFromImage_no_file (p : value) (w : world) :
  (forall path, p = VStr path -> path <> EmptyString ->
                find_file path (files w) = None) ->
  exists msg,
    extractTextFromImage E p w = (Throw (OCRError msg None), w).
Proof.
  intros N. unfold extractTextFromImage, existsSync.
  destruct p as [| | | |path| |];
    try (unfold try_catch, throw; cbn; eexists; reflexivity).
  destruct path as [|c path];
    [unfold try_catch, throw; cbn; eexists; reflexivity|].
  change (truthy (VStr (String c path))) with true. cbv iota. cbn [negb].
  unfold try_catch, bind.
  rewrite (N (String c path) eq_refl ltac:(discriminate)).
  cbn [fst snd negb]. unfold throw. cbn. eexists. reflexivity.
Qed.

(** X19.  The path adapter: a text it returns is the trimmed text of the lines
    the recognizer found in the file of the path, a file of at most ten
    megabytes, read once; the text is not empty and has no space around.
    What is not a path of a file is refused with the world as it was.
    Whatever fails comes out as an OCRError.  The adapter only adds
    events: no file and no record changes, and the recognizer is asked
    at most once. *)
Theorem image_recognition (imagePath : value) (w : world) :
  (forall t, fst (extractTextFromImage E imagePath w) = Ok t ->
     exists path b Blocks,
       imagePath = VStr path /\ find_file path (files w) = Some b /\
       length b <= maxSize /\
       detectDocumentText E b = Ok (Some Blocks) /\
       t = Str.trim (lines_of Blocks) /\
       t <> EmptyString /\ Str.trim t = t /\
       snd (extractTextFromImage E imagePath w)
       = add_events w [Ext_readFile path;
                       Ext_detectDocumentText (length b)]) /\
  (forall e, fst (extractTextFromImage E imagePath w) = Throw e ->
     is_OCRError e = true) /\
  ((forall path, imagePath = VStr path -> path <> EmptyString ->
                 find_file path (files w) = None) ->
   exists e, extractTextFromImage E imagePath w = (Throw e, w)) /\
  (exists evs, snd (extractTextFromImage E imagePath w) = add_events w evs
               /\ (count is_recognition evs <= 1)%nat).
Proof.
  assert (C : (forall path, imagePath = VStr path -> path <> EmptyString ->
                            find_file path (files w) = None) \/
              exists path b, imagePath = VStr path /\ path <> EmptyString /\
                             find_file path (files w) = Some b).
  { destruct imagePath as [| | | |path| |];
      try (left; intros path' Q; discriminate).
    destruct path as [|c path]; [left; intros path' Q N; congruence|].
    destruct (find_file (String c path) (files w)) as [b|] eqn:F.
    - right. exists (String c path), b. repeat split; [discriminate|exact F].
    - left. intros path' Q N. inversion Q; subst. exact F. }
  destruct C as [N | (path & b & -> & P & F)].
  - destruct (@extractTextFromImage_no_file imagePath w N) as (msg & R).
    rewrite R. cbn [fst snd].
    split; [discriminate|].
    split; [intros e Q; inversion Q; reflexivity|].
    split; [intros _; eexists; reflexivity|].
    exists []. rewrite add_no_events. split; [reflexivity | cbn; lia].
  - destruct (@extractTextFromImage_run path b w P F)
      as [(e & O & R & W) | (Blocks & RF & L & D & NE & R)].
    + rewrite R. split; [discriminate|].
      split; [intros e' Q; inversion Q; subst; exact O|].
      split.
      * intros N. rewrite (N path eq_refl P) in F. discriminate.
      * destruct W as [W | (_ & _ & W)]; rewrite W; eexists;
          (split; [reflexivity | cbn; lia]).
    + rewrite R. cbn [fst snd]. split.
      * intros t Q. inversion Q; subst. exists path, b, Blocks.
        repeat split; try assumption. apply trim_idempotent.
      * split; [discriminate|]. split.
        -- intros N. rewrite (N path eq_refl P) in F. discriminate.
        -- eexists. split; [reflexivity | cbn; lia].
Qed.

End Recognizer.

Lemma buffer_recognition_witness :
  exists e,
    @extractTextFromBuffer isoHost Sample.E (Some Sample.large) Sample.seen
    = (Throw e, Sample.seen).
Proof.
  apply (proj1 (proj2 (proj2 (@buffer_recognition isoHost Sample.E
                                (Some Sample.large) Sample.seen)))).
  right. exists Sample.large. split; [reflexivity|]. reflexivity.
Defined.

Lemma image_recognition_witness :
  exists e,
    @extractTextFromImage isoHost Sample.E (VStr "uploads/none.png")
      Sample.seen
    = (Throw e, Sample.seen).
Proof.
  apply (proj1 (proj2 (proj2 (@image_recognition isoHost Sample.E
                                (VStr "uploads/none.png") Sample.seen)))).
  intros path Q _. injection Q as <-. reflexivity.
Defined.
(* ------------------------------------------------------------------ *)
(** * The extension of a file name *)

Lemma drop_suffix (n : nat) (s : string) :
  exists stem, s = stem ++ Str.drop n s.
Proof.
  revert s. induction n as [|n IH]; intros s.
  - exists EmptyString. reflexivity.
  - destruct s as [|c s]; [exists EmptyString; reflexivity|].
    destruct (IH s) as (stem & Q). exists (String c stem).
    cbn [Str.drop append]. rewrite <- Q. reflexivity.
Qed.

Lemma drop_app (a b : string) : Str.drop (String.length a) (a ++ b) = b.
Proof. induction a as [|c a IH]; [reflexivity | exact IH]. Qed.

Lemma endsWith_spec (s p : string) :
  endsWith s p = true <-> exists stem, s = stem ++ p.
Proof.
  unfold endsWith. rewrite andb_true_iff, Nat.leb_le, String.eqb_eq. split.
  - intros [_ D].
    destruct (drop_suffix (String.length s - String.length p) s) as (stem & Q).
    exists stem. rewrite D in Q. exact Q.
  - intros (stem & ->). rewrite str_length_app. split; [lia|].
    replace (String.length stem + String.length p - String.length p)%nat
      with (String.length stem) by lia.
    apply drop_app.
Qed.

Lemma lower_upper (c : ascii) : Str.lower (Str.upper c) = Str.lower c.
Proof.
  destruct c as [[] [] [] [] [] [] [] []]; reflexivity.
Qed.

Lemma toLowerCase_toUpperCase (s : string) :
  Str.toLowerCase (Str.toUpperCase s) = Str.toLowerCase s.
Proof.
  unfold Str.toLowerCase, Str.toUpperCase.
  induction s as [|c s IH]; [reflexivity|].
  cbn [Str.map]. rewrite lower_upper, IH. reflexivity.
Qed.

Lemma map_app (f : ascii -> ascii) (a b : string) :
  Str.map f (a ++ b) = Str.map f a ++ Str.map f b.
Proof.
  induction a as [|c a IH]; [reflexivity|].
  cbn [append Str.map]. rewrite IH. reflexivity.
Qed.

(** X20.  A name is accepted exactly when it is a string whose lower-case
    form ends with one of the four extensions; so the case of the
    letters does not matter, and what is not a string is refused. *)
Theorem image_format_by_extension (filename : value) :
  (isValidImageFormat filename = true <->
   exists name stem ext,
     filename = VStr name /\ In ext supportedFormats /\
     Str.toLowerCase name = stem ++ ext) /\
  (forall name,
     filename = VStr name ->
     isValidImageFormat (VStr (Str.toUpperCase name))
     = isValidImageFormat filename) /\
  (is_string filename = false -> isValidImageFormat filename = false).
Proof.
  split; [|split].
  - split.
    + destruct filename as [| | | |name| |]; try discriminate.
      unfold isValidImageFormat.
      destruct name as [|c name]; [discriminate|].
      change (negb (truthy (VStr (String c name)))) with false. cbv iota.
      intros X. apply existsb_exists in X. destruct X as (ext & I & W).
      apply endsWith_spec in W. destruct W as (stem & Q).
      exists (String c name), stem, ext. auto.
    + intros (name & stem & ext & -> & I & Q).
      unfold isValidImageFormat.
      destruct name as [|c name].
      * destruct stem; [|discriminate]. cbn in Q.
        destruct I as [<-|[<-|[<-|[<-|[]]]]]; discriminate.
      * change (negb (truthy (VStr (String c name)))) with false. cbv iota.
        apply existsb_exists. exists ext. split; [exact I|].
        apply endsWith_spec. exists stem. exact Q.
  - intros name ->. unfold isValidImageFormat.
    destruct name as [|c name]; [reflexivity|].
    change (negb (truthy (VStr (String c name)))) with false.
    change (negb (truthy (VStr (Str.toUpperCase (String c name)))))
      with false.
    cbv iota. rewrite toLowerCase_toUpperCase. reflexivity.
  - destruct filename; try reflexivity. discriminate.
Qed.

Lemma image_format_by_extension_witness :
  isValidImageFormat (VStr "uploads/Receipt.JPEG") = true /\
  isValidImageFormat (VStr "uploads/receipt.jpeg.exe") = false.
Proof.
  split.
  - apply (proj1 (image_format_by_extension (VStr "uploads/Receipt.JPEG"))).
    exists "uploads/Receipt.JPEG", "uploads/receipt", ".jpeg".
    split; [reflexivity|]. split; [cbn; auto | reflexivity].
  - reflexivity.
Defined.

(* ------------------------------------------------------------------ *)
(** * What the cleanup does to the files *)

Lemma find_file_removed (path : string) (fs : list (string * buffer)) :
  find_file path (filter (fun f => negb (String.eqb (fst f) path)) fs) = None.
Proof.
  induction fs as [|[p b] fs IH]; [reflexivity|].
  cbn [filter fst]. destruct (String.eqb p path) eqn:Q; cbn [negb];
    [exact IH|].
  cbn [find_file]. rewrite Q. exact IH.
Qed.

Lemma find_file_other (path q : string) (fs : list (string * buffer)) :
  q <> path ->
  find_file q (filter (fun f => negb (String.eqb (fst f) path)) fs)
  = find_file q fs.
Proof.
  intros N. induction fs as [|[p b] fs IH]; [reflexivity|].
  cbn [filter fst find_file]. destruct (String.eqb p path) eqn:Q; cbn [negb].
  - apply String.eqb_eq in Q. subst p.
    replace (String.eqb path q) with false
      by (symmetry; apply String.eqb_neq; congruence).
    exact IH.
  - cbn [find_file]. destruct (String.eqb p q); [reflexivity | exact IH].
Qed.

Section CleanupFiles.
Context (E : env).

Lemma cleanupImageFile_files (filePath : value) (w : world) :
  let w1 := snd (cleanupImageFile E filePath w) in
  fst (cleanupImageFile E filePath w) = Ok tt /\
  table w1 = table w /\
  (forall path, filePath = VStr path -> path <> EmptyString ->
     unlink_fault E path = None ->
     find_file path (files w1) = None) /\
  (forall q, filePath <> VStr q ->
     find_file q (files w1) = find_file q (files w)) /\
  (forall path, filePath = VStr path ->
     unlink_fault E path <> None \/ find_file path (files w) = None ->
     files w1 = files w) /\
  (is_string filePath = false -> files w1 = files w).
Proof.
  intro w1. unfold w1. clear w1.
  unfold cleanupImageFile, existsSync, unlink.
  unfold try_catch, bind, emit, ret, throw. cbn [fst snd].
  destruct filePath as [| |b|n|path|l|o];
    try (cbn [fst snd table files truthy negb];
         repeat match goal with
                | |- context [if ?c then _ else _] => destruct c
                end;
         cbn [fst snd table files];
         repeat split; try reflexivity; intros; try discriminate;
         reflexivity).
  destruct path as [|c path].
  - change (negb (truthy (VStr EmptyString))) with true. cbv iota.
    cbn [fst snd table files].
    repeat split; try reflexivity; intros; try discriminate.
    inversion H; subst. congruence.
  - change (negb (truthy (VStr (String c path)))) with false. cbv iota.
    cbn [files fst snd].
    destruct (find_file (String c path) (files w)) as [b|] eqn:F;
      cbn [fst snd files table].
    + destruct (unlink_fault E (String c path)) as [e|] eqn:U;
        cbn [fst snd files table].
      * repeat split; try reflexivity; intros; try discriminate.
        inversion H; subst. congruence.
      * rewrite F. cbn [fst snd files table].
        split; [reflexivity|]. split; [reflexivity|].
        split; [|split; [|split]].
        -- intros p Q _ _. inversion Q; subst. apply find_file_removed.
        -- intros q N. apply find_file_other. congruence.
        -- intros p Q [N|N]; inversion Q; subst; congruence.
        -- discriminate.
    + repeat split; try reflexivity; intros; try discriminate.
      inversion H; subst. exact F.
Qed.

(** X21.  The cleanup returns normally and leaves the table alone.  When the
    file system takes the deletion, the file of a path that is not
    empty is gone afterwards; every other file stays; and when the
    deletion fails, or the path is empty or names no file, no file
    changes. *)
Theorem cleanup_removes_the_file (filePath : value) (w : world) :
  let w1 := snd (cleanupImageFile E filePath w) in
  fst (cleanupImageFile E filePath w) = Ok tt /\
  table w1 = table w /\
  (forall path, filePath = VStr path -> path <> EmptyString ->
     unlink_fault E path = None ->
     find_file path (files w1) = None) /\
  (forall q, filePath <> VStr q ->
     find_file q (files w1) = find_file q (files w)) /\
  (forall path, filePath = VStr path ->
     unlink_fault E path <> None \/ find_file path (files w) = None ->
     files w1 = files w) /\
  (is_string filePath = false -> files w1 = files w).
Proof. apply cleanupImageFile_files. Qed.

End CleanupFiles.

Lemma cleanup_removes_the_file_witness :
  find_file "uploads/receipt.png"
    (files (snd (cleanupImageFile Sample.E (VStr "uploads/receipt.png")
                   Sample.seen))) = None /\
  find_file "uploads/large.png"
    (files (snd (cleanupImageFile Sample.E (VStr "uploads/receipt.png")
                   Sample.seen))) = Some Sample.large.
Proof.
  destruct (@cleanup_removes_the_file Sample.E (VStr "uploads/receipt.png")
              Sample.seen) as (_ & _ & G & O & _).
  split.
  - apply (G "uploads/receipt.png" eq_refl); [discriminate | reflexivity].
  - rewrite (O "uploads/large.png"); [reflexivity | discriminate].
Defined.
(* ------------------------------------------------------------------ *)
(** * What a run of a pipeline leaves behind *)

Section Runs.
Context {H : Host} (E : env).

Lemma extractTextFromBuffer_throws (b : option buffer) (w : world) (e : error) :
  fst (extractTextFromBuffer E b w) = Throw e -> is_OCRError e = true.
Proof.
  destruct b as [b|].
  - destruct (extractTextFromBuffer_run E b w)
      as [(_ & R) | (_ & _ & [(e' & R & O) | (Blocks & _ & _ & R)])];
      rewrite R; cbn [fst]; intros Q; inversion Q; subst;
      [reflexivity | exact O].
  - unfold extractTextFromBuffer, try_catch, throw. cbn [fst is_OCRError].
    intros Q. inversion Q. reflexivity.
Qed.

Lemma extractTextFromImage_throws (p : value) (w : world) (e : error) :
  fst (extractTextFromImage E p w) = Throw e -> is_OCRError e = true.
Proof.
  assert (C : (forall path, p = VStr path -> path <> EmptyString ->
                            find_file path (files w) = None) \/
              exists path b, p = VStr path /\ path <> EmptyString /\
                             find_file path (files w) = Some b).
  { destruct p as [| | | |path| |];
      try (left; intros path' Q; discriminate).
    destruct path as [|c path]; [left; intros path' Q N; congruence|].
    destruct (find_file (String c path) (files w)) as [b|] eqn:F.
    - right. exists (String c path), b. repeat split; [discriminate|exact F].
    - left. intros path' Q N. inversion Q; subst. exact F. }
  destruct C as [N | (path & b & -> & P & F)].
  - destruct (@extractTextFromImage_no_file H E p w N) as (msg & R).
    rewrite R. cbn [fst]. intros Q. inversion Q. reflexivity.
  - destruct (@extractTextFromImage_run H E path b w P F)
      as [(e' & O & R & _) | (Blocks & _ & _ & _ & _ & R)];
      rewrite R; cbn [fst]; intros Q; inversion Q; subst; exact O.
Qed.

Lemma validateUserId_throws (v : value) (e : error) :
  validateUserId v = Throw e -> is_ValidationError e = true.
Proof.
  unfold validateUserId, invalid.
  destruct v as [| | | |s| |]; try (intros Q; inversion Q; reflexivity).
  repeat match goal with
         | |- context [if ?c then _ else _] => destruct c
         end; intros Q; inversion Q; reflexivity.
Qed.

Lemma validateTransaction_throws (today : Z) (c : value) (e : error) :
  validateTransaction today c = Throw e -> is_ValidationError e = true.
Proof.
  unfold validateTransaction.
  destruct (validateTransaction_body today c) as [v|e0]; [discriminate|].
  destruct (is_ValidationError e0) eqn:V; intros Q; inversion Q; subst;
    [exact V | reflexivity].
Qed.

Lemma declared_V (e : error) :
  is_ValidationError e = true -> is_declared_error e = true.
Proof. unfold is_declared_error. intros ->. reflexivity. Qed.

Lemma declared_D (e : error) :
  is_DatabaseError e = true -> is_declared_error e = true.
Proof.
  unfold is_declared_error. intros ->.
  destruct (is_ValidationError e); reflexivity.
Qed.

Lemma declared_L (e : error) :
  is_LLMError e = true -> is_declared_error e = true.
Proof. destruct e; try discriminate. reflexivity. Qed.

Lemma declared_O (e : error) :
  is_OCRError e = true -> is_declared_error e = true.
Proof. destruct e; try discriminate. reflexivity. Qed.

(** The candidate of a run: the user passed the check, and the data is
    the object the extractor returned, tagged with the source and the
    raw text. *)
Lemma candidate_inv (r : request) (w w0 : world) (u : string) (c : value) :
  candidate E r w = (Ok (u, c), w0) ->
  validateUserId (userId_of r) = Ok u /\
  exists props text,
    c = VObj (assign (assign props "source" (VStr (source_of r)))
                "rawText" text).
Proof.
  unfold candidate, bind, lift, ret.
  destruct (validateUserId (userId_of r)) as [u'|e] eqn:U; [|discriminate].
  cbn [fst snd].
  destruct (text_of E r w) as [[text|e] w1]; [|discriminate].
  destruct (extractTransactionFromText E text w1) as [[v|e] w2] eqn:X;
    [|discriminate].
  destruct (@extract_returns H E text w1 w2 v X) as (props & -> & _).
  cbn [setprop fst snd]. intros Q. inversion Q. subst.
  split; [reflexivity|]. exists props, text. reflexivity.
Qed.

Lemma candidate_throws (r : request) (w : world) (e : error) :
  fst (candidate E r w) = Throw e -> is_declared_error e = true.
Proof.
  unfold candidate, bind, lift, ret.
  destruct (validateUserId (userId_of r)) as [u'|e0] eqn:U; cbn [fst snd].
  2:{ intros Q. inversion Q. subst.
      apply declared_V, (validateUserId_throws _ U). }
  destruct (text_of E r w) as [[text|e0] w1] eqn:T; cbn [fst snd].
  2:{ intros Q. inversion Q. subst. apply declared_O.
      unfold text_of, bind, ret in T.
      destruct r as [u t|u p|u b]; [discriminate| |].
      - destruct (extractTextFromImage E p w) as [[t|e1] w2] eqn:X;
          [discriminate|].
        inversion T. subst.
        apply (@extractTextFromImage_throws p w e). rewrite X. reflexivity.
      - destruct (extractTextFromBuffer E b w) as [[t|e1] w2] eqn:X;
          [discriminate|].
        inversion T. subst.
        apply (@extractTextFromBuffer_throws b w e). rewrite X. reflexivity. }
  destruct (extractTransactionFromText E text w1) as [[v|e0] w2] eqn:X;
    cbn [fst snd].
  2:{ intros Q. inversion Q. subst. apply declared_L.
      apply (@extract_throws H E text w1 e). rewrite X. reflexivity. }
  destruct (@extract_returns H E text w1 w2 v X) as (props & -> & _).
  cbn [setprop fst snd]. discriminate.
Qed.

Lemma validated_throws (r : request) (w : world) (e : error) :
  fst (validated E r w) = Throw e -> is_declared_error e = true.
Proof.
  unfold validated, bind, now, lift, ret.
  pose proof (@candidate_throws r w) as C.
  destruct (candidate E r w) as [[[u c]|e0] w0]; cbn [fst snd] in *.
  - destruct (validateTransaction (clock w0) c) as [d|e1] eqn:V;
      cbn [fst]; [discriminate|].
    intros Q. inversion Q. subst.
    apply declared_V, (validateTransaction_throws _ _ V).
  - intros Q. inversion Q. subst. apply C. reflexivity.
Qed.

Lemma createTransaction_id (u : string) (d : Validated.t) (w : world)
  (item : Item.t) :
  fst (createTransaction E u d w) = Ok item ->
  Item.transactionId item = "tx-" ++ uuidv4 E (issued w) /\
  Item.timestamp item = clock w.
Proof.
  unfold createTransaction, dynamoDB_put, fresh_uuid, fault, get_table,
    set_table, tick.
  unfold try_catch, bind, emit, ret, throw, now. cbn [fst snd].
  destruct (db_fault E OpPut); cbn [fst snd clock issued];
    [discriminate|].
  intros Q. inversion Q. split; reflexivity.
Qed.

Lemma createTransaction_throws (u : string) (d : Validated.t) (w : world)
  (e : error) :
  fst (createTransaction E u d w) = Throw e -> is_DatabaseError e = true.
Proof.
  unfold createTransaction, dynamoDB_put, fresh_uuid, fault, get_table,
    set_table, tick.
  unfold try_catch, bind, emit, ret, throw, now. cbn [fst snd].
  destruct (db_fault E OpPut); cbn [fst snd]; [|discriminate].
  intros Q. inversion Q. reflexivity.
Qed.

Lemma In_put_item (item : Item.t) (tbl : list Item.t) :
  In item (put_item item tbl).
Proof.
  unfold put_item. destruct (existsb (same_key item) tbl) eqn:X.
  - apply existsb_exists in X. destruct X as (it & I & S).
    apply in_map_iff. exists it. rewrite S. auto.
  - apply in_or_app. right. left. reflexivity.
Qed.

(** What an attempt gives: the failure of a stage, with the table as it
    was; or the first duplicate, a record of the table, with the table
    as it was; or the item created, put into the table. *)
Lemma attempt_cases (r : request) (w : world) :
  (exists e, fst (attempt E r w) = Throw e /\
             (is_declared_error e = true \/
              exists cause,
                db_fault E (OpQuery (Some "merchant-date-index"))
                = Some cause /\
                unreadable cause = true /\
                e = TypeError ("Cannot read properties of "
                               ++ error_message cause
                               ++ " (reading 'includes')")) /\
             table (snd (attempt E r w)) = table w) \/
  (exists u d w0 first,
     validated E r w = (Ok (u, d), w0) /\
     fst (attempt E r w) = Ok (inl first) /\
     In first (table w) /\ is_duplicate_of u d first = true /\
     table (snd (attempt E r w)) = table w) \/
  (exists u d w0 item,
     validated E r w = (Ok (u, d), w0) /\
     fst (attempt E r w) = Ok (inr item) /\
     created_from item u d /\
     (exists uuid, Item.transactionId item = "tx-" ++ uuid) /\
     table (snd (attempt E r w)) = put_item item (table w)).
Proof.
  unfold attempt, bind.
  pose proof (@validated_throws r w) as VT.
  destruct (keeps_validated E r w) as [K1 _].
  destruct (validated E r w) as [[[u d]|e] w1] eqn:V; cbn [fst snd] in *.
  2:{ left. exists e. auto. }
  pose proof (checkForDuplicates_results E u d w1) as [S T].
  destruct (keeps_checkForDuplicates E u d w1) as [K2 _].
  destruct (checkForDuplicates E u d w1) as [[dups|e] w2] eqn:D;
    cbn [fst snd] in *.
  2:{ left. exists e. split; [reflexivity|]. split; [|congruence].
      destruct (T e eq_refl) as [(msg & cause & ->) | U];
        [left; reflexivity | right; exact U]. }
  destruct dups as [|first others].
  2:{ right. left. exists u, d, w1, first. unfold ret. cbn [fst snd].
      destruct (S _ eq_refl first (or_introl eq_refl)) as [I1 I2].
      repeat split; try assumption; congruence. }
  destruct (createTransaction_shape E u d w2)
    as (item & CF & _ & _ & [(e & R & KT) | (R & KT)]).
  - pose proof (@createTransaction_throws u d w2 e R) as DB.
    destruct (createTransaction E u d w2) as [[created|e'] w3];
      cbn [fst snd] in *; [discriminate|].
    inversion R. subst e'. left. exists e. unfold throw. cbn [fst snd].
    split; [reflexivity|].
    split; [left; apply declared_D; exact DB | congruence].
  - pose proof (@createTransaction_id u d w2 item R) as [ID _].
    destruct (createTransaction E u d w2) as [[created|e'] w3];
      cbn [fst snd] in *; [|discriminate].
    inversion R. subst created. right. right.
    exists u, d, w1, item. unfold ret. cbn [fst snd].
    split; [reflexivity|]. split; [reflexivity|]. split; [exact CF|].
    split; [eexists; exact ID | congruence].
Qed.

Lemma after_attempt (r : request) (w1 : world) :
  exists w2, cleanup E r w1 = (Ok tt, w2) /\ table w2 = table w1.
Proof.
  destruct (cleanup_returns E r w1) as [w2 Q].
  destruct (keeps_cleanup E r w1) as [K _]. rewrite Q in K.
  exists w2. split; [exact Q | exact K].
Qed.

Lemma process_failure (r : request) (w : world) (e : error) :
  fst (process E r w) = Throw e ->
  (is_declared_error e = true /\ table (snd (process E r w)) = table w) \/
  (exists cause,
     db_fault E (OpQuery (Some "merchant-date-index")) = Some cause /\
     unreadable cause = true /\
     e = TypeError ("Cannot read properties of " ++ error_message cause
                    ++ " (reading 'includes')") /\
     table (snd (process E r w)) = table w) \/
  (exists item msg,
     e = TypeError msg /\ is_number (Item.amount item) = false /\
     table (snd (process E r w)) = put_item item (table w)).
Proof.
  rewrite process_staged. unfold staged, try_catch, bind.
  destruct (attempt_cases r w)
    as [(e1 & A & C & K) | [(u & d & w0 & first & _ & A & _ & _ & K)
                           | (u & d & w0 & item & _ & A & _ & _ & K)]];
    destruct (attempt E r w) as [[found|e0] w1]; cbn [fst snd] in *;
    try discriminate;
    destruct (after_attempt r w1) as (w2 & Q & K2); rewrite Q;
    cbn [fst snd].
  - unfold throw. cbn [fst snd]. intros R. inversion R. subst.
    inversion A. subst.
    destruct C as [C | (cause & F & U & ->)].
    + left. split; [exact C | congruence].
    + right. left. exists cause.
      split; [exact F|]. split; [exact U|]. split; [reflexivity | congruence].
  - inversion A. subst found. unfold ret. discriminate.
  - inversion A. subst found. unfold lift, created_outcome.
    unfold generateConfirmationMessage. cbn [fst snd].
    destruct (Item.amount item) eqn:Am; cbn [rbind]; try discriminate;
      intros R; inversion R; right; right; exists item; eexists;
      (split; [reflexivity|]); rewrite Am;
      (split; [reflexivity | congruence]).
Qed.

(** X22.  A run that fails is in one of three cases.  It has stored nothing
    and fails with an error of one of the four declared classes.  Or it
    has stored nothing and fails with the TypeError of the resolver's
    handler: the query of the index failed with an error object whose
    message is [null] or [undefined] and whose code is not
    ResourceNotFoundException, and the handler failed on searching the
    message.  Or it has stored the record and fails on the confirmation
    message, with a TypeError, and then the amount stored is not a
    number. *)
Theorem failed_run_and_the_table (r : request) (w : world) (e : error) :
  fst (process E r w) = Throw e ->
  (is_declared_error e = true /\ table (snd (process E r w)) = table w) \/
  (exists cause,
     db_fault E (OpQuery (Some "merchant-date-index")) = Some cause /\
     unreadable cause = true /\
     e = TypeError ("Cannot read properties of " ++ error_message cause
                    ++ " (reading 'includes')") /\
     table (snd (process E r w)) = table w) \/
  (exists item msg,
     e = TypeError msg /\ is_number (Item.amount item) = false /\
     table (snd (process E r w)) = put_item item (table w)).
Proof. apply process_failure. Qed.

(** X23.  A run that answers: the user passed the check; and either the answer
    is the duplicate answer for a record of the table, a record of that
    user, and the table is as it was; or the answer is the confirmation
    of a new record of that user, with status confirmed, the source of
    the entry point, a number as amount and an identifier that starts
    with [tx-], and the table is the old one with that record put into
    it. *)
Theorem completed_run_answer (r : request) (w : world) (o : outcome) :
  fst (process E r w) = Ok o ->
  exists u,
    validateUserId (userId_of r) = Ok u /\
    ((exists first,
        o = duplicate_outcome r first /\
        In first (table w) /\ Item.userId first = u /\
        table (snd (process E r w)) = table w) \/
     (exists item,
        created_outcome r item = Ok o /\
        transaction o = Some item /\ isDuplicate o = false /\
        Item.userId item = u /\ Item.status item = "confirmed" /\
        Item.source item = VStr (source_of r) /\
        is_number (Item.amount item) = true /\
        (exists uuid, Item.transactionId item = "tx-" ++ uuid) /\
        table (snd (process E r w)) = put_item item (table w) /\
        In item (table (snd (process E r w))))).
Proof.
  rewrite process_staged. unfold staged, try_catch, bind.
  destruct (attempt_cases r w)
    as [(e1 & A & C & K) | [(u & d & w0 & first & V & A & I & Du & K)
                           | (u & d & w0 & item & V & A & CF & ID & K)]];
    destruct (attempt E r w) as [[found|e0] w1]; cbn [fst snd] in *;
    try discriminate;
    destruct (after_attempt r w1) as (w2 & Q & K2); rewrite Q;
    cbn [fst snd].
  - unfold throw. discriminate.
  - inversion A. subst found. unfold ret. cbn [fst snd].
    intros R. inversion R. subst o.
    destruct (@validated_inv H E r w w0 u d V) as (c & Cd & _).
    destruct (@candidate_inv r w w0 u c Cd) as (U & _).
    exists u. split; [exact U|]. left. exists first.
    split; [reflexivity|]. split; [exact I|].
    apply andb_true_iff in Du. destruct Du as [Du _].
    apply andb_true_iff in Du. destruct Du as [Du _].
    apply andb_true_iff in Du. destruct Du as [Du _].
    apply String.eqb_eq in Du. split; [exact Du | congruence].
  - inversion A. subst found. unfold lift. cbn [fst snd].
    intros R.
    destruct (@validated_inv H E r w w0 u d V) as (c & Cd & Vd).
    destruct (@candidate_inv r w w0 u c Cd) as (U & props & text & ->).
    exists u. split; [exact U|]. right. exists item.
    split; [exact R|].
    destruct CF as (C1 & C2 & _ & _ & _ & _ & _ & _ & C9 & _ & C11).
    pose proof (@validateTransaction_checked H _ _ _ Vd) as Ch.
    destruct Ch as (props' & P & _ & _ & _ & _ & _ & _ & _ & _ & S & _).
    inversion P. subst props'. clear P.
    rewrite (@lookup_assign_other _ "rawText" "source" text) in S
      by discriminate.
    rewrite lookup_assign_same in S.
    assert (Src : Item.source item = VStr (source_of r)).
    { rewrite C9, S. destruct r; reflexivity. }
    unfold created_outcome, generateConfirmationMessage in R.
    destruct (Item.amount item) eqn:Am; cbn [rbind] in R; try discriminate.
    inversion R. cbn [transaction isDuplicate].
    repeat split; try assumption; try reflexivity.
    + congruence.
    + rewrite K2, K. apply In_put_item.
Qed.

End Runs.

Lemma failed_run_and_the_table_witness :
  fst (@process isoHost E_amount_true Sample.text Sample.empty)
  = Throw (TypeError "transaction.amount.toFixed is not a function") /\
  exists item msg,
    TypeError "transaction.amount.toFixed is not a function" = TypeError msg /\
    is_number (Item.amount item) = false /\
    table (snd (@process isoHost E_amount_true Sample.text Sample.empty))
    = put_item item (table Sample.empty).
Proof.
  assert (R : fst (@process isoHost E_amount_true Sample.text Sample.empty)
              = Throw (TypeError "transaction.amount.toFixed is not a function"))
    by (vm_compute; reflexivity).
  split; [exact R|].
  destruct (@failed_run_and_the_table isoHost E_amount_true Sample.text
              Sample.empty _ R) as [[D _] | [(cause & F & _) | S]];
    [discriminate D | discriminate F | exact S].
Defined.

(** A run whose query of the index fails with an error object whose
    message is [null]: it fails with the TypeError of the handler, and
    nothing is stored. *)
Example failed_run_unreadable :
  fst (@process isoHost Sample.E_index_unreadable Sample.text Sample.empty)
  = Throw (TypeError "Cannot read properties of null (reading 'includes')")
  /\
  table (snd (@process isoHost Sample.E_index_unreadable Sample.text
                Sample.empty)) = [].
Proof. split; vm_compute; reflexivity. Qed.

Lemma completed_run_answer_witness :
  exists u,
    validateUserId (userId_of Sample.text) = Ok u /\
    exists o, fst (@process isoHost Sample.E Sample.text Sample.seen) = Ok o /\
              isDuplicate o = true.
Proof.
  destruct (fst (@process isoHost Sample.E Sample.text Sample.seen))
    as [o|e] eqn:R; [|vm_compute in R; discriminate].
  destruct (@completed_run_answer isoHost Sample.E Sample.text Sample.seen
              o R) as (u & U & _).
  exists u. split; [exact U|]. exists o. split; [reflexivity|].
  vm_compute in R. inversion R. reflexivity.
Defined.
(* ------------------------------------------------------------------ *)
(** * The date the extractor returns *)

Lemma digit_char (k : Z) :
  Str.is_digit (ascii_of_nat (48 + Z.to_nat (k mod 10))) = true.
Proof.
  assert (B : 0 <= k mod 10 < 10) by (apply Z.mod_pos_bound; lia).
  assert (C : (Z.to_nat (k mod 10) < 10)%nat) by lia.
  destruct (Z.to_nat (k mod 10)) as [|[|[|[|[|[|[|[|[|[|n]]]]]]]]]];
    try reflexivity.
  lia.
Qed.

Lemma short_iso_date (t : Z) :
  0 <= Time.YearFromTime t <= 9999 ->
  Fence.is_date_text (Time.isoDate t) = true.
Proof.
  intros Hy. rewrite isoDate_shape. unfold Time.isoYear.
  replace ((0 <=? Time.YearFromTime t) && (Time.YearFromTime t <=? 9999))
    with true by (symmetry; apply andb_true_iff; split; apply Z.leb_le; lia).
  cbn [Time.pad append Fence.is_date_text].
  rewrite !digit_char. reflexivity.
Qed.

Section ExtractedDate.
Context {H : Host} (E : env).

Lemma extract_normalized (text : value) (w w' : world) (v : value) :
  extractTransactionFromText E text w = (Ok v, w') ->
  exists props0 w1 props',
    @normalize H props0 w1 = (Ok props', w') /\ v = VObj props'.
Proof.
  unfold extractTransactionFromText, try_catch.
  destruct (extract_body E text w) as [[v0|e] w1] eqn:B.
  2:{ destruct (extract_handler_throws e w1) as (e' & Q & _). rewrite Q.
      discriminate. }
  intros Q. inversion Q. subst v0 w1. clear Q.
  unfold extract_body in B.
  destruct text as [| | | |t| |]; try discriminate.
  destruct (negb (truthy (VStr t)) || (Str.len (Str.trim t) =? 0));
    [discriminate|].
  destruct (negb _); [discriminate|].
  unfold create_completion, bind, emit, lift in B. cbn [fst snd] in B.
  destruct (completion E _) as [[content|]|e]; try discriminate.
  destruct content as [|c content]; [discriminate|].
  destruct (JSON_parse _) as [data|pe]; [|discriminate].
  cbn [ret throw] in B.
  destruct (missingFields data requiredFields) as [missing|e] eqn:M;
    [|discriminate].
  destruct missing as [|m ms]; [|discriminate].
  cbn [List.length Nat.ltb Nat.leb] in B.
  destruct (missing_none _ M) as (props & -> & R).
  match type of B with
  | context [normalize ?p ?x] =>
      destruct (normalize p x) as [[props'|e] w2] eqn:Nz; [|discriminate];
      exists p, x, props'
  end.
  inversion B. subst v w2. split; [exact Nz | reflexivity].
Qed.

Lemma normalize_date (props props' : list (string * value)) (w w' : world) :
  @normalize H props w = (Ok props', w') ->
  truthy (lookup props' "date") = true ->
  Fence.is_date_text (ToString (lookup props' "date")) = true \/
  exists t, lookup props' "date" = VStr (Time.isoDate t).
Proof.
  unfold normalize, bind, getTodayDate, now, ret.
  set (props1 := match lookup props "amount" with
                 | VStr a => assign props "amount" (VNum (Num.parseFloat a))
                 | _ => props
                 end).
  assert (out : forall props2,
            lookup
              (assign
                 (assign props2 "currency"
                    (or_else (lookup props2 "currency") (VStr "USD")))
                 "description"
                 (or_else
                    (lookup
                       (assign props2 "currency"
                          (or_else (lookup props2 "currency") (VStr "USD")))
                       "description") (VStr EmptyString))) "date"
            = lookup props2 "date").
  { intros props2. rewrite !lookup_assign_other by discriminate.
    reflexivity. }
  destruct (truthy (lookup props1 "date")) eqn:T; cbn [andb].
  - destruct (Fence.is_date_text (ToString (lookup props1 "date"))) eqn:D;
      cbn [negb].
    + cbn [fst snd]. intros Q _. inversion Q. left. rewrite out. exact D.
    + destruct (Date_new (lookup props1 "date")) as [t|]; cbn [fst snd];
        intros Q _; inversion Q; right; rewrite out, lookup_assign_same;
        eexists; reflexivity.
  - cbn [fst snd]. intros Q T'. inversion Q. subst props'.
    rewrite out in T'. congruence.
Qed.


End ExtractedDate.

(* ------------------------------------------------------------------ *)
(** * The message of POST /chat *)

Lemma trimEnd_fixed_tail (c : ascii) (r : string) :
  Str.trimEnd (String c r) = String c r ->
  Str.trimEnd r = r /\ (Str.is_ws c = true -> r <> EmptyString).
Proof.
  cbn [Str.trimEnd]. destruct (Str.trimEnd r) as [|d r'] eqn:Q.
  - destruct (Str.is_ws c); [discriminate|].
    intros X. inversion X. subst r. split; [reflexivity | discriminate].
  - intros X. inversion X. subst r. split; [reflexivity|].
    intros _. discriminate.
Qed.

Lemma trimEnd_keeps (c : ascii) (r : string) :
  Str.trimEnd r = r -> (Str.is_ws c = true -> r <> EmptyString) ->
  Str.trimEnd (String c r) = String c r.
Proof.
  intros Q N. cbn [Str.trimEnd]. rewrite Q.
  destruct r as [|d r']; [|reflexivity].
  destruct (Str.is_ws c); [exfalso; apply N; reflexivity | reflexivity].
Qed.

Lemma collapse_nonempty (s : string) :
  s <> EmptyString -> collapse s <> EmptyString.
Proof.
  induction s as [|c r IH]; [congruence|]. intros _. cbn [collapse].
  destruct (Str.is_ws c); [|discriminate].
  destruct r as [|d r']; [discriminate|].
  destruct (Str.is_ws d); [apply IH; discriminate | discriminate].
Qed.

Lemma collapse_head (c : ascii) (r : string) :
  Str.is_ws c = false -> collapse (String c r) = String c (collapse r).
Proof. intros W. cbn [collapse]. rewrite W. reflexivity. Qed.

(** The collapse of a text with no white space at its end has its white
    space as single spaces, none at the end. *)
Lemma collapse_spaced (t : string) :
  Str.trimEnd t = t -> spaced_from true (collapse t) = true.
Proof.
  induction t as [|c r IH]; [reflexivity|].
  intros Q. destruct (@trimEnd_fixed_tail _ _ Q) as [Qr N].
  cbn [collapse]. destruct (Str.is_ws c) eqn:W.
  - destruct r as [|d r']; [exfalso; apply (N eq_refl); reflexivity|].
    destruct (Str.is_ws d) eqn:Wd; [apply IH; exact Qr|].
    specialize (IH Qr). rewrite (@collapse_head _ _ Wd) in IH |- *.
    cbn [spaced_from] in IH |- *. rewrite Wd in IH |- *.
    change (Str.is_ws " ") with true. cbn.
    exact IH.
  - cbn [spaced_from]. rewrite W. apply IH. exact Qr.
Qed.

Lemma spaced_weaken (s : string) :
  spaced_from false s = true -> spaced_from true s = true.
Proof.
  destruct s as [|c r]; [reflexivity|]. cbn [spaced_from].
  destruct (Str.is_ws c); [discriminate | auto].
Qed.

Lemma spaced_trimEnd (s : string) :
  spaced_from true s = true -> Str.trimEnd s = s.
Proof.
  induction s as [|c r IH]; [reflexivity|]. cbn [spaced_from].
  destruct (Str.is_ws c) eqn:W.
  - intros Q. apply andb_true_iff in Q. destruct Q as [Q S].
    apply andb_true_iff in Q. destruct Q as [_ Q].
    apply trimEnd_keeps; [apply IH; exact S|].
    intros _. destruct r; [discriminate | discriminate].
  - intros S. apply trimEnd_keeps; [apply IH; exact S|].
    rewrite W. discriminate.
Qed.

Lemma spaced_trim (s : string) :
  spaced_from false s = true -> Str.trim s = s.
Proof.
  intros S. unfold Str.trim.
  assert (T : Str.trimStart s = s).
  { destruct s as [|c r]; [reflexivity|]. cbn [spaced_from] in S.
    cbn [Str.trimStart]. destruct (Str.is_ws c); [discriminate|reflexivity]. }
  rewrite T. apply spaced_trimEnd, spaced_weaken, S.
Qed.

Lemma spaced_collapse (b : bool) (s : string) :
  spaced_from b s = true -> collapse s = s.
Proof.
  revert b. induction s as [|c r IH]; [reflexivity|]. intros b.
  cbn [spaced_from collapse]. destruct (Str.is_ws c) eqn:W.
  - intros Q. apply andb_true_iff in Q. destruct Q as [Q S].
    apply andb_true_iff in Q. destruct Q as [Q N].
    apply andb_true_iff in Q. destruct Q as [_ Q].
    apply Ascii.eqb_eq in Q. subst c.
    destruct r as [|d r']; [discriminate|].
    apply negb_true_iff in N. rewrite N. rewrite (IH true S). reflexivity.
  - intros S. rewrite (IH true S). reflexivity.
Qed.

Lemma trim_fixed (m : string) :
  Str.trimStart (Str.trim m) = Str.trim m /\
  Str.trimEnd (Str.trim m) = Str.trim m.
Proof.
  split; [|apply trimEnd_idempotent].
  unfold Str.trim. pose proof (trimStart_head m) as Hd.
  destruct (Str.trimStart m) as [|c r]; [reflexivity|].
  destruct (@trimEnd_head c r Hd) as [r' Q]. rewrite Q.
  cbn [Str.trimStart]. rewrite Hd. reflexivity.
Qed.

Lemma trimEnd_empty (s : string) :
  Str.trimEnd s = EmptyString -> blank s = true.
Proof.
  unfold blank. induction s as [|c r IH]; [reflexivity|].
  cbn [Str.trimEnd Str.forallb].
  destruct (Str.trimEnd r) as [|d r']; [|discriminate].
  destruct (Str.is_ws c); [|discriminate]. intros _. apply IH. reflexivity.
Qed.

Lemma trim_empty (s : string) :
  Str.trim s = EmptyString -> blank s = true.
Proof.
  unfold Str.trim, blank. induction s as [|c r IH]; [reflexivity|].
  cbn [Str.trimStart Str.forallb]. destruct (Str.is_ws c) eqn:W.
  - exact IH.
  - intros Q. apply trimEnd_empty in Q. unfold blank in Q.
    cbn [Str.forallb] in Q. rewrite W in Q. discriminate.
Qed.

Lemma without_ws_trimStart (s : string) :
  without_ws (Str.trimStart s) = without_ws s.
Proof.
  induction s as [|c r IH]; [reflexivity|].
  cbn [Str.trimStart without_ws]. destruct (Str.is_ws c) eqn:W; [exact IH|].
  cbn [without_ws]. rewrite W. reflexivity.
Qed.

Lemma without_ws_trimEnd (s : string) :
  without_ws (Str.trimEnd s) = without_ws s.
Proof.
  induction s as [|c r IH]; [reflexivity|].
  cbn [Str.trimEnd without_ws].
  destruct (Str.trimEnd r) as [|d r'] eqn:Q.
  - cbn [without_ws] in IH. rewrite <- IH.
    destruct (Str.is_ws c) eqn:W; [reflexivity|].
    cbn [without_ws]. rewrite W. reflexivity.
  - cbn [without_ws]. rewrite <- IH. reflexivity.
Qed.

Lemma without_ws_collapse (s : string) :
  without_ws (collapse s) = without_ws s.
Proof.
  induction s as [|c r IH]; [reflexivity|].
  cbn [collapse without_ws]. destruct (Str.is_ws c) eqn:W.
  - destruct r as [|d r']; [reflexivity|].
    destruct (Str.is_ws d) eqn:Wd; [exact IH|].
    change (without_ws (String " " (collapse (String d r'))))
      with (without_ws (collapse (String d r'))).
    exact IH.
  - cbn [without_ws]. rewrite W, IH. reflexivity.
Qed.

(** X25.  The message the route hands on.  Its white space is single spaces
    between other characters; the second trim of the route changes
    nothing; the other characters are those of the message, in their
    order; a message that has this form already is handed on as it is,
    so normalizing twice is normalizing once; and a message that is not
    blank stays not blank. *)
Theorem message_normal_form (message : string) :
  single_spaced (normalizedMessage message) = true /\
  normalizedMessage message = collapse (Str.trim message) /\
  without_ws (normalizedMessage message) = without_ws message /\
  (single_spaced message = true -> normalizedMessage message = message) /\
  normalizedMessage (normalizedMessage message) = normalizedMessage message /\
  (blank message = false ->
   normalizedMessage message <> EmptyString /\
   Str.trim (normalizedMessage message) <> EmptyString).
Proof.
  destruct (trim_fixed message) as [TS TE].
  assert (S : single_spaced (collapse (Str.trim message)) = true).
  { unfold single_spaced. pose proof (@collapse_spaced _ TE) as C.
    destruct (Str.trim message) as [|c r] eqn:Q; [reflexivity|].
    cbn [Str.trimStart] in TS. destruct (Str.is_ws c) eqn:W.
    - exfalso. pose proof (trimStart_head r) as Hd. rewrite TS in Hd.
      congruence.
    - rewrite (@collapse_head _ _ W) in C |- *. cbn [spaced_from] in C |- *.
      rewrite W in C |- *. exact C. }
  assert (N : normalizedMessage message = collapse (Str.trim message)).
  { unfold normalizedMessage. apply spaced_trim. exact S. }
  assert (fixed : forall s, single_spaced s = true -> normalizedMessage s = s).
  { intros s Ss. unfold normalizedMessage.
    rewrite (@spaced_trim _ Ss), (@spaced_collapse _ _ Ss).
    apply spaced_trim. exact Ss. }
  split; [rewrite N; exact S|]. split; [exact N|].
  split; [|split; [apply fixed|split]].
  - rewrite N, without_ws_collapse. unfold Str.trim.
    rewrite without_ws_trimEnd, without_ws_trimStart. reflexivity.
  - apply fixed. rewrite N. exact S.
  - intros B.
    assert (Q : normalizedMessage message <> EmptyString).
    { rewrite N. apply collapse_nonempty. intros Q. apply trim_empty in Q.
      congruence. }
    split; [exact Q|]. unfold normalizedMessage at 1.
    rewrite trim_idempotent. exact Q.
Qed.

Lemma message_normal_form_witness :
  normalizedMessage
    ("  Spent   $12.50" ++ String Str.LF "  at Starbucks  ")
  = "Spent $12.50 at Starbucks" /\
  normalizedMessage "Spent $12.50 at Starbucks" = "Spent $12.50 at Starbucks".
Proof.
  split; [reflexivity|].
  apply (proj1 (proj2 (proj2 (proj2
                 (message_normal_form "Spent $12.50 at Starbucks"))))).
  reflexivity.
Defined.
(* ------------------------------------------------------------------ *)
(** * POST /chat *)

Lemma not_blank (s : string) :
  (Str.len (Str.trim s) =? 0) = false <-> blank s = false.
Proof.
  split.
  - intros L. destruct (blank s) eqn:B; [|reflexivity].
    assert (Q : Str.trim s = EmptyString).
    { unfold blank in B. unfold Str.trim. clear L.
      induction s as [|c r IH]; [reflexivity|].
      cbn [Str.forallb] in B. apply andb_true_iff in B.
      destruct B as [B1 B2]. cbn [Str.trimStart]. rewrite B1.
      apply IH. exact B2. }
    rewrite Q in L. discriminate.
  - intros B. destruct (Str.trim s) eqn:Q; [|reflexivity].
    apply trim_empty in Q. congruence.
Qed.

Section ChatRoute.
Context {H : Host} (E : env).
Context (service_statusCode : error -> option Z).
Context (service_name : error -> string).
Context (development : bool).

Local Abbreviation handler :=
  (errorHandler service_statusCode service_name development).
Local Abbreviation route :=
  (post_chat E service_statusCode service_name development).

Lemma handler_status (e : error) :
  (is_ValidationError e = true ->
   exists msg d, handler e = Failed 400 msg "ValidationError" d) /\
  (is_ValidationError e = false ->
   is_declared_error e = true \/ (exists m, e = TypeError m) ->
   status_of (handler e) = 500).
Proof.
  split.
  - destruct e; try discriminate. intros _.
    unfold errorHandler. cbn. eexists; eexists; reflexivity.
  - intros V [D | (m & ->)]; [|reflexivity].
    destruct e; try discriminate; reflexivity.
Qed.

(** What the handler of the route does, by cases on the body. *)
Lemma chat_cases (body : value) (w : world) :
  (exists m, chat E body w = (Throw (TypeError m), w) /\
             forall k, destructure body k = Throw (TypeError m) \/
                       exists m', destructure body k = Throw (TypeError m')) \/
  (exists userId message msg f,
     destructure body "userId" = Ok userId /\
     destructure body "message" = Ok message /\
     ((forall u, userId = VStr u -> blank u = true) \/
      (forall m, message = VStr m -> blank m = true)) /\
     chat E body w = (Throw (ValidationError msg (Some f)), w)) \/
  (exists u m,
     destructure body "userId" = Ok (VStr u) /\
     destructure body "message" = Ok (VStr m) /\
     blank u = false /\ blank m = false /\
     chat E body w
     = process E (FromText (VStr u) (VStr (normalizedMessage m))) w).
Proof.
  unfold chat, bind, lift.
  destruct (destructure body "userId") as [userId|e] eqn:U; cbn [fst snd].
  2:{ left. destruct body; try discriminate; inversion U; eexists;
        (split; [reflexivity|]); intros k; right; eexists; reflexivity. }
  destruct (destructure body "message") as [message|e] eqn:M; cbn [fst snd].
  2:{ destruct body; discriminate. }
  assert (refuse : forall msg f,
            (forall u, userId = VStr u -> blank u = true) \/
            (forall m, message = VStr m -> blank m = true) ->
            exists userId' message' msg' f',
              Ok userId = Ok userId' /\ Ok message = Ok message' /\
              ((forall u, userId' = VStr u -> blank u = true) \/
               (forall m, message' = VStr m -> blank m = true)) /\
              @throw outcome (ValidationError msg (Some f)) w
              = (Throw (ValidationError msg' (Some f')), w)).
  { intros msg f B. exists userId, message, msg, f. auto. }
  destruct userId as [| | | |u| |];
    try (right; left; apply refuse; left; intros u Q; discriminate).
  destruct (negb (truthy (VStr u)) || (Str.len (Str.trim u) =? 0)) eqn:Bu.
  { right. left. apply refuse. left. intros u' Q. inversion Q. subst u'.
    apply orb_true_iff in Bu. destruct Bu as [Bu|Bu].
    - destruct u; [reflexivity | discriminate].
    - destruct (blank u) eqn:B; [reflexivity|].
      apply not_blank in B. congruence. }
  apply orb_false_iff in Bu. destruct Bu as [_ Bu].
  destruct message as [| | | |m| |];
    try (right; left; apply refuse; right; intros m Q; discriminate).
  destruct (negb (truthy (VStr m))) eqn:Tm.
  { right. left. apply refuse. right. intros m' Q. inversion Q. subst m'.
    destruct m; [reflexivity | discriminate]. }
  destruct (Str.len (Str.trim m) =? 0) eqn:Bm.
  { right. left. apply refuse. right. intros m' Q. inversion Q. subst m'.
    destruct (blank m) eqn:B; [reflexivity|].
    apply not_blank in B. congruence. }
  right. right. exists u, m. split; [reflexivity|]. split; [reflexivity|].
  split; [apply not_blank; exact Bu|]. split; [apply not_blank; exact Bm|].
  reflexivity.
Qed.

(** X26.  The route answers with status 200, 400 or 500, whatever the error
    objects of the client libraries carry.  A request whose user id or
    whose message is not a string that has more than white space is
    refused with 400 and the world as it was; any other request is a
    run of the text pipeline on the normalized message.  Status 400 is a
    ValidationError and means that nothing was stored. *)
Theorem chat_route_answers (body : value) (w : world) :
  (status_of (fst (route body w)) = 200 \/
   status_of (fst (route body w)) = 400 \/
   status_of (fst (route body w)) = 500) /\
  (status_of (fst (route body w)) = 400 ->
   table (snd (route body w)) = table w /\
   exists msg d, fst (route body w) = Failed 400 msg "ValidationError" d) /\
  (forall userId message,
     destructure body "userId" = Ok userId ->
     destructure body "message" = Ok message ->
     (forall u, userId = VStr u -> blank u = true) \/
     (forall m, message = VStr m -> blank m = true) ->
     snd (route body w) = w /\ status_of (fst (route body w)) = 400) /\
  (forall u m,
     destructure body "userId" = Ok (VStr u) ->
     destructure body "message" = Ok (VStr m) ->
     blank u = false -> blank m = false ->
     chat E body w
     = process E (FromText (VStr u) (VStr (normalizedMessage m))) w).
Proof.
  unfold post_chat.
  destruct (chat_cases body w)
    as [(m0 & R & D)
       | [(userId & message & msg & f & U & M & B & R)
         | (u & m & U & M & Bu & Bm & R)]].
  - rewrite R. cbn [fst snd].
    split; [auto|]. split; [discriminate|]. split.
    + intros userId message U _ _.
      destruct (D "userId") as [Q | (m' & Q)]; congruence.
    + intros u m U _ _ _.
      destruct (D "userId") as [Q | (m' & Q)]; congruence.
  - rewrite R. cbn [fst snd].
    split; [auto|]. split; [|split].
    + intros _. split; [reflexivity|].
      apply (proj1 (handler_status (ValidationError msg (Some f)))).
      reflexivity.
    + intros userId' message' _ _ _. split; reflexivity.
    + intros u m U' M' Bu Bm. exfalso.
      rewrite U in U'. rewrite M in M'. inversion U'. inversion M'. subst.
      destruct B as [B|B]; [rewrite (B u eq_refl) in Bu
                           | rewrite (B m eq_refl) in Bm]; discriminate.
  - rewrite R.
    pose proof (@process_failure H E
                  (FromText (VStr u) (VStr (normalizedMessage m))) w) as PF.
    destruct (process E (FromText (VStr u) (VStr (normalizedMessage m))) w)
      as [[o|e] w'] eqn:P; cbn [fst snd] in *.
    + split; [auto|]. split; [discriminate|]. split.
      * intros userId' message' U' M' B. exfalso.
        rewrite U in U'. rewrite M in M'. inversion U'. inversion M'. subst.
        destruct B as [B|B]; [rewrite (B u eq_refl) in Bu
                             | rewrite (B m eq_refl) in Bm]; discriminate.
      * intros u' m' U' M' _ _.
        rewrite U in U'. rewrite M in M'. inversion U'. inversion M'.
        subst u' m'. symmetry. exact P.
    + specialize (PF e eq_refl).
      destruct (is_ValidationError e) eqn:V.
      * destruct (proj1 (handler_status e) V) as (msg & d & Q).
        rewrite Q. cbn [status_of].
        split; [auto|]. split; [|split].
        -- intros _. split; [|eexists; eexists; reflexivity].
           destruct PF as [[_ T] | [(cause & _ & _ & -> & _)
                                   | (item & m' & -> & _)]];
             [exact T | discriminate | discriminate].
        -- intros userId' message' U' M' B. exfalso.
           rewrite U in U'. rewrite M in M'. inversion U'. inversion M'.
           subst.
           destruct B as [B|B]; [rewrite (B u eq_refl) in Bu
                                | rewrite (B m eq_refl) in Bm]; discriminate.
        -- intros u' m' U' M' _ _.
           rewrite U in U'. rewrite M in M'. inversion U'. inversion M'.
           subst u' m'. symmetry. exact P.
      * assert (S : status_of (handler e) = 500).
        { apply (proj2 (handler_status e) V).
          destruct PF as [[D _] | [(cause & _ & _ & -> & _)
                                  | (item & m' & -> & _)]];
            [left; exact D | right; eexists; reflexivity
             | right; eexists; reflexivity]. }
        rewrite S. split; [auto|]. split; [discriminate|]. split.
        -- intros userId' message' U' M' B. exfalso.
           rewrite U in U'. rewrite M in M'. inversion U'. inversion M'.
           subst.
           destruct B as [B|B]; [rewrite (B u eq_refl) in Bu
                                | rewrite (B m eq_refl) in Bm]; discriminate.
        -- intros u' m' U' M' _ _.
           rewrite U in U'. rewrite M in M'. inversion U'. inversion M'.
           subst u' m'. symmetry. exact P.
Qed.

End ChatRoute.

Lemma chat_route_answers_witness :
  let none := fun _ : error => @None Z in
  let name := fun _ : error => "Error" in
  @post_chat isoHost Sample.E none name false
    (VObj [("userId", VStr "alice"); ("message", VStr "   ")]) Sample.seen
  = (Failed 400 "Message cannot be empty after trimming whitespace"
       "ValidationError" None, Sample.seen) /\
  status_of
    (fst (@post_chat isoHost Sample.E none name false
            (VObj [("userId", VStr "alice");
                   ("message", VStr "Spent   $12.50 at  Starbucks")])
            Sample.empty)) = 200.
Proof.
  intros none name. split; [reflexivity|].
  destruct (@chat_route_answers isoHost Sample.E none name false
              (VObj [("userId", VStr "alice");
                     ("message", VStr "Spent   $12.50 at  Starbucks")])
              Sample.empty) as ([S | [S | S]] & _);
    [exact S | vm_compute in S; discriminate S
     | vm_compute in S; discriminate S].
Defined.
(* ------------------------------------------------------------------ *)
(** * The cleaning of a response before it is parsed *)

Lemma strip_fences_cons (a : ascii) (r : string) :
  Ascii.eqb a Str.backtick = false ->
  Fence.strip_fences (String a r) = String a (Fence.strip_fences r).
Proof.
  intros N. destruct r as [|b [|c r']]; cbn [Fence.strip_fences];
    rewrite ?N; reflexivity.
Qed.

Lemma strip_fences_plain (s t : string) :
  lacks Str.backtick s = true ->
  Fence.strip_fences (s ++ t) = s ++ Fence.strip_fences t.
Proof.
  unfold lacks. induction s as [|a r IH]; [reflexivity|].
  cbn [Str.forallb append]. intros Q. apply andb_true_iff in Q.
  destruct Q as [Q1 Q2]. apply negb_true_iff in Q1.
  rewrite (@strip_fences_cons a _ Q1), (IH Q2). reflexivity.
Qed.

Lemma strip_newlines_plain (s : string) :
  lacks Str.LF s = true -> Fence.strip_newlines s = s.
Proof.
  unfold lacks. induction s as [|a r IH]; [reflexivity|].
  cbn [Str.forallb Fence.strip_newlines]. intros Q.
  apply andb_true_iff in Q. destruct Q as [Q1 Q2].
  apply negb_true_iff in Q1. rewrite Q1, (IH Q2). reflexivity.
Qed.

Lemma strip_newlines_app (a b : string) :
  Fence.strip_newlines (a ++ b)
  = Fence.strip_newlines a ++ Fence.strip_newlines b.
Proof.
  induction a as [|c r IH]; [reflexivity|].
  cbn [append Fence.strip_newlines].
  destruct (Ascii.eqb c Str.LF); [exact IH|].
  cbn [append]. rewrite IH. reflexivity.
Qed.

Lemma strip_newlines_lacks (s : string) :
  lacks Str.LF (Fence.strip_newlines s) = true.
Proof.
  unfold lacks. induction s as [|c r IH]; [reflexivity|].
  cbn [Fence.strip_newlines]. destruct (Ascii.eqb c Str.LF) eqn:Q;
    [exact IH|].
  cbn [Str.forallb]. rewrite Q, IH. reflexivity.
Qed.

Lemma strip_newlines_keeps (c : ascii) (s : string) :
  lacks c s = true -> lacks c (Fence.strip_newlines s) = true.
Proof.
  unfold lacks. induction s as [|a r IH]; [reflexivity|].
  cbn [Str.forallb Fence.strip_newlines]. intros Q.
  apply andb_true_iff in Q. destruct Q as [Q1 Q2].
  destruct (Ascii.eqb a Str.LF); [exact (IH Q2)|].
  cbn [Str.forallb]. rewrite Q1, (IH Q2). reflexivity.
Qed.

Lemma app_empty (s : string) : s ++ EmptyString = s.
Proof. induction s as [|c r IH]; [reflexivity|]. cbn. rewrite IH. reflexivity. Qed.

(** X7.  What the cleaning does.  A response without line feed and backtick
    is only trimmed.  A response in a bare fence, the fence lines ended
    by line feeds, is unwrapped: what is left is its body without line
    feeds, trimmed.  A response that opens with a fence and the tag
    [json] keeps the tag, and so is no JSON text. *)
Theorem cleanJson_effect (body : string) :
  (lacks Str.LF body = true -> lacks Str.backtick body = true ->
   Fence.cleanJson body = Str.trim body) /\
  (lacks Str.backtick body = true ->
   Fence.cleanJson
     (Fence.fence ++ String Str.LF body ++ String Str.LF Fence.fence)
   = Str.trim (Fence.strip_newlines body)) /\
  Json.parse_text (Fence.cleanJson (Fence.fence ++ "json" ++ body)) = None.
Proof.
  split; [|split].
  - intros L B. unfold Fence.cleanJson.
    rewrite (@strip_newlines_plain _ L).
    rewrite <- (app_empty body) at 1.
    rewrite (@strip_fences_plain _ EmptyString B). cbn [Fence.strip_fences].
    rewrite app_empty. reflexivity.
  - intros B. unfold Fence.cleanJson. f_equal.
    change (Fence.strip_newlines
              (Fence.fence ++ String Str.LF body ++ String Str.LF Fence.fence))
      with (Fence.fence
            ++ Fence.strip_newlines (body ++ String Str.LF Fence.fence)).
    rewrite strip_newlines_app.
    change (Fence.strip_newlines (String Str.LF Fence.fence)) with Fence.fence.
    pose proof (strip_newlines_lacks body) as L.
    pose proof (@strip_newlines_keeps _ _ B) as B'.
    set (b := Fence.strip_newlines body) in *.
    assert (S : Fence.strip_fences (Fence.fence ++ b ++ Fence.fence)
                = Fence.strip_fences (b ++ Fence.fence)).
    { destruct b as [|d r]; [reflexivity|].
      unfold lacks in L. cbn [Str.forallb] in L. apply andb_true_iff in L.
      destruct L as [L _]. apply negb_true_iff in L.
      unfold Fence.fence at 1. cbn [append].
      cbn [Fence.strip_fences]. rewrite Ascii.eqb_refl. cbn [andb].
      rewrite L. reflexivity. }
    rewrite S, (@strip_fences_plain _ Fence.fence B'). cbn. apply app_empty.
  - destruct (cleanJson_keeps_tag body) as (t & Q). rewrite Q.
    apply parse_text_j.
Qed.

Lemma cleanJson_effect_witness :
  Fence.cleanJson
    (Fence.fence ++ String Str.LF Sample.answer ++ String Str.LF Fence.fence)
  = Str.trim (Fence.strip_newlines Sample.answer).
Proof.
  apply (proj1 (proj2 (cleanJson_effect Sample.answer))).
  reflexivity.
Defined.
(* ------------------------------------------------------------------ *)
(** * The request of an update *)

Lemma In_assign (l : list (string * value)) (k : string) (v : value)
  (x : string * value) :
  In x (assign l k v) -> x = (k, v) \/ In x l.
Proof.
  induction l as [|[k' v'] r IH]; cbn [assign In].
  - intros [Q|[]]. left. symmetry. exact Q.
  - destruct (String.eqb k' k); cbn [In].
    + intros [Q|Q]; [left; symmetry; exact Q | right; right; exact Q].
    + intros [Q|Q]; [right; left; exact Q|].
      destruct (IH Q) as [R|R]; [left; exact R | right; right; exact R].
Qed.

Lemma lookup_assign (l : list (string * value)) (k k' : string) (v : value) :
  lookup (assign l k v) k' = if String.eqb k k' then v else lookup l k'.
Proof.
  destruct (String.eqb_spec k k') as [<-|N].
  - apply lookup_assign_same.
  - apply lookup_assign_other. congruence.
Qed.

Section UpdateRequest.
Variable updates : value.

Lemma loop_spec (all keys : list string) (index : nat) (parts : update_parts) :
  (forall k, In k keys -> In k all) ->
  sound updates all parts ->
  let parts' := update_loop updates keys index parts in
  sound updates all parts' /\
  (forall k, named k parts -> named k parts') /\
  (forall k, In k keys -> str_in k allowedFields = true -> named k parts') /\
  (updateExpressions parts <> [] -> updateExpressions parts' <> []) /\
  (forall k, In k keys -> str_in k allowedFields = true ->
     updateExpressions parts' <> []) /\
  ((forall k, In k keys -> str_in k allowedFields = false) ->
   parts' = parts).
Proof.
  revert index parts. induction keys as [|key r IH]; intros index parts A Snd.
  - cbn [update_loop]. repeat split; try apply Snd; auto;
      intros k [].
  - cbn [update_loop].
    assert (step :
              sound updates all (update_step updates key index parts) /\
              (forall k, named k parts ->
                         named k (update_step updates key index parts)) /\
              (str_in key allowedFields = true ->
               named key (update_step updates key index parts) /\
               updateExpressions (update_step updates key index parts) <> [])
              /\
              (updateExpressions parts <> [] ->
               updateExpressions (update_step updates key index parts) <> [])
              /\
              (str_in key allowedFields = false ->
               update_step updates key index parts = parts)).
    { unfold update_step, named.
      destruct (str_in key allowedFields) eqn:Al;
        cbn [expressionAttributeNames expressionAttributeValues
             updateExpressions].
      - split; [|split; [|split; [|split]]].
        + destruct Snd as [S1 S2]. split.
          * intros n a I. apply In_assign in I. destruct I as [Q|I].
            -- inversion Q. exists key.
               split; [apply A; left; reflexivity|]. auto.
            -- apply S1. exact I.
          * intros ph v I. apply In_assign in I. destruct I as [Q|I].
            -- inversion Q. exists key, index.
               split; [apply A; left; reflexivity|]. auto.
            -- apply S2. exact I.
        + intros k N. rewrite lookup_assign.
          destruct (String.eqb_spec ("#" ++ key) ("#" ++ k)) as [Q|Q];
            [inversion Q; reflexivity | exact N].
        + intros _. split; [apply lookup_assign_same|].
          destruct (updateExpressions parts); discriminate.
        + intros _. destruct (updateExpressions parts); discriminate.
        + discriminate.
      - split; [exact Snd|]. split; [auto|]. split; [discriminate|].
        split; [auto|]. reflexivity. }
    destruct step as (S' & N' & Here & E' & Skip).
    destruct (IH (S index) (update_step updates key index parts)
                (fun k I => A k (or_intror I)) S')
      as (I1 & I2 & I3 & I4 & I5 & I6).
    split; [exact I1|]. split; [intros k N; apply I2, N', N|].
    split; [|split; [|split]].
    + intros k [<-|I] Al; [apply I2, (proj1 (Here Al)) | apply I3; assumption].
    + intros Ne. apply I4, E', Ne.
    + intros k [<-|I] Al; [apply I4, (proj2 (Here Al)) | apply (I5 k I Al)].
    + intros None. rewrite I6; [apply Skip, None; left; reflexivity|].
      intros k I. apply None. right. exact I.
Qed.

End UpdateRequest.

(** X17.  The request of an update.  It is made exactly when a key of the
    updates is one of the seven allowed fields; otherwise the function
    throws, before any request, a DatabaseError whose cause is the
    DatabaseError [No valid fields to update].  A request names only
    allowed fields of the updates and [updatedAt]; it names every
    allowed field of the updates; its values are values of allowed
    fields of the updates, and the ISO instant for [updatedAt]; its key
    is the one given.  Whatever is thrown is a DatabaseError. *)
Theorem update_request_names_allowed_fields (userId transactionId : string)
  (updates : value) (instant : Z) :
  let request :=
    updateTransaction_params userId transactionId updates instant in
  (forall keys, Object_keys updates = Ok keys ->
     ((exists k, In k keys /\ str_in k allowedFields = true) ->
      exists p, request = Ok p) /\
     ((forall k, In k keys -> str_in k allowedFields = false) ->
      request
      = Throw (DatabaseError
                 "Failed to update transaction: No valid fields to update"
                 (Some (DatabaseError "No valid fields to update" None))))) /\
  (forall p, request = Ok p ->
     Key p = (userId, transactionId) /\ ReturnValues p = "ALL_NEW" /\
     (forall n a, In (n, a) (ExpressionAttributeNames p) ->
        exists k, n = "#" ++ k /\ a = VStr k /\
                  (k = "updatedAt" \/
                   str_in k allowedFields = true /\
                   exists keys, Object_keys updates = Ok keys /\ In k keys)) /\
     (forall keys k, Object_keys updates = Ok keys -> In k keys ->
        str_in k allowedFields = true ->
        lookup (ExpressionAttributeNames p) ("#" ++ k) = VStr k) /\
     lookup (ExpressionAttributeNames p) "#updatedAt" = VStr "updatedAt" /\
     lookup (ExpressionAttributeValues p) ":updatedAt"
     = VStr (Time.toISOString instant) /\
     (forall ph v, In (ph, v) (ExpressionAttributeValues p) ->
        ph = ":updatedAt" \/
        exists k, str_in k allowedFields = true /\ v = field updates k)) /\
  (forall e, request = Throw e -> is_DatabaseError e = true).
Proof.
  intro request. unfold request, updateTransaction_params. clear request.
  destruct (Object_keys updates) as [keys|e0] eqn:K; cbn [rbind].
  2:{ split; [intros keys Q; discriminate|].
      split; [discriminate|]. intros e Q. inversion Q. reflexivity. }
  set (start := {| updateExpressions := [];
                   expressionAttributeNames := [];
                   expressionAttributeValues := [] |}).
  assert (S0 : sound updates keys start).
  { split; intros ? ? []. }
  destruct (@loop_spec updates keys keys 0 start (fun k I => I) S0)
    as ((S1 & S2) & _ & N & _ & Ne & Same).
  set (parts := update_loop updates keys 0 start) in *.
  split; [|split].
  - intros keys' Q. inversion Q. subst keys'. split.
    + intros (k & I & Al). pose proof (Ne k I Al) as X.
      destruct (updateExpressions parts) as [|x xs] eqn:U; [congruence|].
      cbn [List.length Nat.eqb]. eexists. reflexivity.
    + intros None. rewrite (Same None). reflexivity.
  - destruct (List.length (updateExpressions parts) =? 0)%nat;
      [discriminate|].
    intros p Q. inversion Q. subst p. clear Q.
    cbn [Key ReturnValues ExpressionAttributeNames ExpressionAttributeValues].
    split; [reflexivity|]. split; [reflexivity|].
    split; [|split; [|split; [|split]]].
    + intros n a I. apply In_assign in I. destruct I as [Q|I].
      * inversion Q. exists "updatedAt". auto.
      * destruct (S1 n a I) as (k & Ik & Al & -> & ->).
        exists k. split; [reflexivity|]. split; [reflexivity|].
        right. split; [exact Al|]. exists keys. auto.
    + intros keys' k Q I Al. inversion Q. subst keys'.
      rewrite lookup_assign.
      destruct (String.eqb_spec "#updatedAt" ("#" ++ k)) as [X|X].
      * inversion X. subst k. discriminate Al.
      * apply (N k I Al).
    + apply lookup_assign_same.
    + apply lookup_assign_same.
    + intros ph v I. apply In_assign in I. destruct I as [Q|I].
      * inversion Q. left. reflexivity.
      * destruct (S2 ph v I) as (k & i & _ & Al & _ & ->).
        right. exists k. auto.
  - intros e.
    destruct (List.length (updateExpressions parts) =? 0)%nat;
      [|discriminate].
    intros Q. inversion Q. reflexivity.
Qed.

Lemma update_request_names_allowed_fields_witness :
  exists p,
    updateTransaction_params "alice" "tx-1"
      (VObj [("amount", VNum Num.one); ("userId", VStr "bob");
             ("7", VNull); ("status", VStr "void")]) Sample.morning = Ok p.
Proof.
  destruct (@update_request_names_allowed_fields "alice" "tx-1"
              (VObj [("amount", VNum Num.one); ("userId", VStr "bob");
                     ("7", VNull); ("status", VStr "void")]) Sample.morning)
    as (A & _).
  apply (proj1 (A ["7"; "amount"; "userId"; "status"] eq_refl)).
  exists "status". split; [cbn; auto | reflexivity].
Defined.
(* ------------------------------------------------------------------ *)
(** * The files after a run *)

Lemma keeps_files_bind {A B} (m : M A) (k : A -> M B) :
  keeps_files m -> (forall a, keeps_files (k a)) -> keeps_files (bind m k).
Proof.
  intros Hm Hk w. unfold bind. pose proof (Hm w) as F1.
  destruct (m w) as [[a|e] w1]; cbn [snd] in *; [|exact F1].
  rewrite (Hk a w1). exact F1.
Qed.

Lemma keeps_files_try {A} (m : M A) (h : error -> M A) :
  keeps_files m -> (forall e, keeps_files (h e)) ->
  keeps_files (try_catch m h).
Proof.
  intros Hm Hh w. unfold try_catch. pose proof (Hm w) as F1.
  destruct (m w) as [[a|e] w1]; cbn [snd] in *; [exact F1|].
  rewrite (Hh e w1). exact F1.
Qed.

Ltac files_leaf :=
  solve [ intros w; reflexivity
        | intros w; simpl;
          repeat match goal with
                 | |- context [match ?x with _ => _ end] => destruct x
                 end; reflexivity ].

Ltac files_go :=
  repeat first
    [ files_leaf
    | apply keeps_files_bind; [|intros]
    | apply keeps_files_try; [|intros]
    | match goal with
      | |- keeps_files (match ?x with _ => _ end) => destruct x
      end ].

Section FilesOfRuns.
Context {H : Host} (E : env).

Lemma keeps_files_extract (text : value) :
  keeps_files (extractTransactionFromText E text).
Proof.
  unfold extractTransactionFromText, extract_body, extract_handler,
    create_completion, normalize, getTodayDate. files_go.
Qed.

Lemma keeps_files_checkForDuplicates (u : string) (d : Validated.t) :
  keeps_files (checkForDuplicates E u d).
Proof.
  unfold checkForDuplicates, checkForDuplicatesFallback,
    dynamoDB_query_index, dynamoDB_scan, fault, get_table. files_go.
Qed.

Lemma keeps_files_extractTextFromImage (path : value) :
  keeps_files (extractTextFromImage E path).
Proof.
  unfold extractTextFromImage, call_textract, readFile, existsSync. files_go.
Qed.

Lemma keeps_files_extractTextFromBuffer (b : option buffer) :
  keeps_files (extractTextFromBuffer E b).
Proof. unfold extractTextFromBuffer, call_textract. files_go. Qed.

Lemma keeps_files_createTransaction (u : string) (d : Validated.t) :
  keeps_files (createTransaction E u d).
Proof.
  unfold createTransaction, dynamoDB_put, fresh_uuid, fault, get_table,
    set_table, tick. files_go.
Qed.

Lemma keeps_files_attempt (r : request) : keeps_files (attempt E r).
Proof.
  unfold attempt, validated, candidate, text_of.
  apply keeps_files_bind.
  - apply keeps_files_bind.
    + apply keeps_files_bind; [files_leaf|intros].
      apply keeps_files_bind.
      * destruct r; [files_leaf| |];
          (apply keeps_files_bind; [|intros; files_leaf]);
          [apply keeps_files_extractTextFromImage
          |apply keeps_files_extractTextFromBuffer].
      * intros. apply keeps_files_bind; [apply keeps_files_extract|].
        intros. files_go.
    + intros. files_go.
  - intros. apply keeps_files_bind; [apply keeps_files_checkForDuplicates|].
    intros [|first others]; [|files_leaf].
    apply keeps_files_bind; [apply keeps_files_createTransaction|].
    intros. files_leaf.
Qed.

(** The files after a run are those the cleanup leaves, from a world
    with the files of the start. *)
Lemma staged_files (r : request) (w : world) :
  exists w1, files w1 = files w /\
             files (snd (staged E r w)) = files (snd (cleanup E r w1)).
Proof.
  unfold staged, try_catch, bind.
  pose proof (keeps_files_attempt r w) as F.
  destruct (attempt E r w) as [[found|e] w1]; cbn [fst snd] in *;
    exists w1; (split; [exact F|]);
    destruct (cleanup_returns E r w1) as [w2 Q]; rewrite Q; cbn [fst snd].
  - destruct found as [first|created]; [reflexivity|].
    unfold lift. reflexivity.
  - reflexivity.
Qed.

Lemma process_files (r : request) (w : world) :
  (forall u path, r = FromImage u (VStr path) -> path <> EmptyString ->
     (unlink_fault E path = None ->
      find_file path (files (snd (process E r w))) = None) /\
     (forall q, q <> path ->
        find_file q (files (snd (process E r w))) = find_file q (files w)) /\
     (unlink_fault E path <> None ->
      files (snd (process E r w)) = files w)) /\
  ((forall u path, r <> FromImage u (VStr path)) ->
   files (snd (process E r w)) = files w).
Proof.
  rewrite process_staged.
  destruct (staged_files r w) as (w1 & F & ->).
  split.
  - intros u path -> P. cbn [cleanup].
    destruct (@cleanupImageFile_files E (VStr path) w1)
      as (_ & _ & Gone & Others & Same & _).
    split; [|split].
    + intros U. apply (Gone path eq_refl P U).
    + intros q N. rewrite Others; [rewrite F; reflexivity|].
      intros Q. inversion Q. congruence.
    + intros U. rewrite (Same path eq_refl (or_introl U)). exact F.
  - intros N. destruct r as [u t|u p|u b]; cbn [cleanup snd]; try exact F.
    destruct (@cleanupImageFile_files E p w1) as (_ & _ & _ & _ & _ & Same).
    rewrite Same; [exact F|].
    destruct p; try reflexivity. exfalso. apply (N u s). reflexivity.
Qed.

(** X24.  After a run from an image, whether it answers or fails, the file of
    the path is gone when the file system takes the deletion, and every
    other file is as it was; when the deletion fails no file changes.
    A run from a text or from a buffer changes no file. *)
Theorem files_after_a_run (r : request) (w : world) :
  (forall u path, r = FromImage u (VStr path) -> path <> EmptyString ->
     (unlink_fault E path = None ->
      find_file path (files (snd (process E r w))) = None) /\
     (forall q, q <> path ->
        find_file q (files (snd (process E r w))) = find_file q (files w)) /\
     (unlink_fault E path <> None ->
      files (snd (process E r w)) = files w)) /\
  ((forall u path, r <> FromImage u (VStr path)) ->
   files (snd (process E r w)) = files w).
Proof. apply process_files. Qed.

End FilesOfRuns.

Lemma files_after_a_run_witness :
  find_file "uploads/receipt.png"
    (files (snd (@process isoHost Sample.E Sample.image Sample.seen))) = None.
Proof.
  destruct (@files_after_a_run isoHost Sample.E Sample.image Sample.seen)
    as (G & _).
  destruct (G (VStr "alice") "uploads/receipt.png") as (Gone & _);
    [reflexivity | discriminate | apply Gone; reflexivity].
Defined.
(* ------------------------------------------------------------------ *)
(** * POST /chat/upload *)

Section UploadRouteFacts.
Context {H : Host} (E : env).
Context (service_statusCode : error -> option Z).
Context (service_name : error -> string).
Context (development : bool).

Local Abbreviation upload_route :=
  (post_chat_upload E service_statusCode service_name development).

(** X27.  The upload route, for a request whose file was stored at [path].
    Without a user id the request is refused with 400 before anything
    runs, and the world is as it was: the stored file stays.  With a
    user id the request is a run of the image pipeline, after which,
    whatever the answer, the file is gone when the file system takes
    the deletion.  The status is 200, 400 or 500. *)
Theorem upload_route_and_the_file (body : value) (path : string)
  (w : world) (userId : value) :
  destructure body "userId" = Ok userId ->
  path <> EmptyString ->
  (truthy userId = false ->
   exists d,
     upload_route body (Some path) w
     = (Failed 400 "User ID is required" "ValidationError" d, w)) /\
  (truthy userId = true ->
   upload E body (Some path) w = process E (FromImage userId (VStr path)) w /\
   (unlink_fault E path = None ->
    find_file path (files (snd (upload_route body (Some path) w))) = None) /\
   (status_of (fst (upload_route body (Some path) w)) = 200 \/
    status_of (fst (upload_route body (Some path) w)) = 400 \/
    status_of (fst (upload_route body (Some path) w)) = 500)).
Proof.
  intros U P. unfold post_chat_upload, upload, bind, lift. rewrite U.
  cbn [fst snd]. split.
  - intros T. rewrite T. cbn [negb throw]. unfold errorHandler. cbn.
    eexists. reflexivity.
  - intros T. rewrite T. cbn [negb].
    change (processTransactionFromImage E userId (VStr path))
      with (process E (FromImage userId (VStr path))).
    split; [reflexivity|].
    destruct (@process_files H E (FromImage userId (VStr path)) w)
      as (G & _).
    destruct (G userId path eq_refl P) as (Gone & _).
    pose proof (@process_failure H E (FromImage userId (VStr path)) w) as PF.
    destruct (process E (FromImage userId (VStr path)) w) as [[o|e] w'];
      cbn [fst snd] in *.
    + split; [exact Gone | auto].
    + split; [exact Gone|].
      specialize (PF e eq_refl).
      destruct (is_ValidationError e) eqn:V.
      * destruct (proj1 (@handler_status service_statusCode service_name
                           development e) V) as (msg & d & Q).
        rewrite Q. auto.
      * right. right.
        apply (proj2 (@handler_status service_statusCode service_name
                        development e) V).
        destruct PF as [[D _] | [(cause & _ & _ & -> & _)
                                | (item & m' & -> & _)]];
          [left; exact D | right; eexists; reflexivity
           | right; eexists; reflexivity].
Qed.

End UploadRouteFacts.

Lemma upload_route_and_the_file_witness :
  let none := fun _ : error => @None Z in
  let name := fun _ : error => "Error" in
  (exists d,
     @post_chat_upload isoHost Sample.E none name false
       (VObj [("userId", VStr EmptyString)]) (Some "uploads/receipt.png")
       Sample.seen
     = (Failed 400 "User ID is required" "ValidationError" d, Sample.seen)) /\
  find_file "uploads/receipt.png"
    (files (snd (@post_chat_upload isoHost Sample.E none name false
                   (VObj [("userId", VStr "   ")])
                   (Some "uploads/receipt.png") Sample.seen))) = None.
Proof.
  intros none name. split.
  - apply (@upload_route_and_the_file isoHost Sample.E none name false
             (VObj [("userId", VStr EmptyString)]) "uploads/receipt.png"
             Sample.seen (VStr EmptyString) eq_refl);
      [discriminate | reflexivity].
  - apply (@upload_route_and_the_file isoHost Sample.E none name false
             (VObj [("userId", VStr "   ")]) "uploads/receipt.png"
             Sample.seen (VStr "   ") eq_refl);
      [discriminate | reflexivity | reflexivity].
Defined.
(* ------------------------------------------------------------------ *)
(** * A creation appends, or overwrites *)

Section Creation.
Context (E : env).

Lemma createTransaction_stamp (u : string) (d : Validated.t) (w w1 : world)
  (item : Item.t) :
  createTransaction E u d w = (Ok item, w1) ->
  Item.userId item = u /\
  Item.transactionId item = "tx-" ++ uuidv4 E (issued w) /\
  Item.timestamp item = clock w /\
  Item.createdAt item = Time.toISOString (clock w) /\
  Item.updatedAt item = Time.toISOString (clock w) /\
  issued w1 = S (issued w) /\
  table w1 = put_item item (table w).
Proof.
  unfold createTransaction, dynamoDB_put, fresh_uuid, fault, get_table,
    set_table, tick.
  unfold try_catch, bind, emit, ret, throw, now. cbn [fst snd].
  destruct (db_fault E OpPut); cbn [fst snd clock issued table];
    [discriminate|].
  intros Q. inversion Q. repeat split.
Qed.


End Creation.

